(** * ros2_berrygps: the NMEA sentence pipeline of [gps_node.py]

    A shallow embedding of [GPSNode.parse_nmea_sentence] and
    [GPSNode.add_sentence] (src/ros2_berrygps/gps_node.py), and the
    properties the specification states about them.

    Conventions of the embedding.
    - A Python [float] is an IEEE 754 binary64 number: Rocq's primitive
      [float].  The node's numeric parameters may be Python ints
      ([epe_quality0] defaults to [1000000]); every int that occurs is
      exactly representable, and is read as the float of the same value.
    - [math.sin], [math.cos], [math.radians], the power operator and the
      conversion [rclpy.time.Time(seconds=..).to_msg()] belong to Python's
      and ROS's libraries; they are parameters ([MathLib]).  The sine, the
      cosine, the power and the conversion can raise (a sine of an
      infinity, an overflowing power, a negative time): they give a float
      or an exception, and [add_sentence] ends where they raise, with what
      it has assigned and published until then.
    - The module [ros2_berrygps.gps_utils] ([check_nmea_checksum],
      [parse_maps], [euler2quat]) is not among the sources; it is a
      parameter as well ([GpsUtils]).
    - The publishers are modelled by the list of messages published, oldest
      first; the logger is not modelled.
    - [get_frame_id] and [IMUNode.handle_imu]
      (src/ros2_berrygps/imu_node.py) are embedded as well.  The values of
      the ROS parameters, the readings of RTIMU and the module
      [ros2_berrygps.imu_utils] are arguments of theirs. *)

From Stdlib Require Import ZArith List String Ascii Bool Lia.
From Stdlib Require Import PrimFloat.
From Stdlib Require FloatAxioms.
From stdpp Require Import base option list gmap strings.

Set Warnings "-inexact-float,-comment-terminator-in-string".
Local Open Scope Z_scope.

(** ** Messages of [sensor_msgs] and [geometry_msgs] *)

(** The constants of [sensor_msgs/msg/NavSatStatus]. *)
Module NavSatStatus.
Definition STATUS_NO_FIX : Z := -1.
Definition STATUS_FIX : Z := 0.
Definition STATUS_SBAS_FIX : Z := 1.
Definition STATUS_GBAS_FIX : Z := 2.
Definition SERVICE_GPS : Z := 1.
End NavSatStatus.

(** [header.stamp] and [header.frame_id]. The stamp is whatever the caller
    or the node's clock gives; only its identity matters here. *)
Record Header := { stamp : Z; frame_id : string }.

Module NavSatFix.
Definition COVARIANCE_TYPE_UNKNOWN : Z := 0.
Definition COVARIANCE_TYPE_APPROXIMATED : Z := 1.

Record t := {
  header : Header;
  status : Z;                       (* status.status *)
  service : Z;                      (* status.service *)
  latitude : float;
  longitude : float;
  altitude : float;
  position_covariance : list float; (* float64[9], row-major *)
  position_covariance_type : Z
}.

(** The covariance of a fresh [NavSatFix()]: nine zeros. *)
Definition zero_covariance : list float := replicate 9 0%float.
End NavSatFix.

Module TwistStamped.
Record t := {
  header : Header;
  linear_x : float;                 (* twist.linear.x *)
  linear_y : float                  (* twist.linear.y *)
}.
End TwistStamped.

Module QuaternionStamped.
Record t := {
  header : Header;
  x : float; y : float; z : float; w : float
}.
End QuaternionStamped.

Module TimeReference.
Record t (time : Type) := {
  header : Header;
  time_ref : time;
  source : string
}.
Arguments header {time} _.
Arguments time_ref {time} _.
Arguments source {time} _.
End TimeReference.

(** ** The parsed sentence

    [parse_nmea_sentence] returns [{sentence_type: parsed_sentence}], a
    dictionary from the sentence type to the dictionary of its decoded
    fields.  [add_sentence] asks which key is there (['GGA' in
    parsed_sentence]) and reads the fields by name.  Here the outer
    dictionary has one optional entry per type [add_sentence] asks for, and
    the fields of each entry are a record with the names [add_sentence]
    reads. *)

Module GGA.
Record t := {
  fix_type : Z;
  latitude : float;
  latitude_direction : string;
  longitude : float;
  longitude_direction : string;
  altitude : float;
  mean_sea_level : float;
  hdop : float;
  utc_time : float
}.
End GGA.

Module VTG.
Record t := { speed : float; true_course : float }.
End VTG.

Module RMC.
Record t := {
  fix_valid : bool;
  latitude : float;
  latitude_direction : string;
  longitude : float;
  longitude_direction : string;
  utc_time : float;
  speed : float;
  true_course : float
}.
End RMC.

Module GST.
Record t := { lon_std_dev : float; lat_std_dev : float; alt_std_dev : float }.
End GST.

Module HDT.
(** [heading] is either absent ([None], Python's [None]) or a float; which
    of them a blank field gives is up to the decoder of [parse_maps]. *)
Record t := { heading : option float }.
End HDT.

Record ParsedSentence := {
  sGGA : option GGA.t;
  sVTG : option VTG.t;
  sRMC : option RMC.t;
  sGST : option GST.t;
  sHDT : option HDT.t
}.

(** The dictionary with no key [add_sentence] asks for: a sentence type
    that [parse_maps] knows and [add_sentence] does not handle. *)
Definition no_entry : ParsedSentence :=
  {| sGGA := None; sVTG := None; sRMC := None; sGST := None; sHDT := None |}.

(** The one-key dictionaries [{'GGA': data}], [{'VTG': data}], ... *)
Definition of_GGA (data : GGA.t) : ParsedSentence :=
  {| sGGA := Some data; sVTG := None; sRMC := None; sGST := None; sHDT := None |}.
Definition of_VTG (data : VTG.t) : ParsedSentence :=
  {| sGGA := None; sVTG := Some data; sRMC := None; sGST := None; sHDT := None |}.
Definition of_RMC (data : RMC.t) : ParsedSentence :=
  {| sGGA := None; sVTG := None; sRMC := Some data; sGST := None; sHDT := None |}.
Definition of_GST (data : GST.t) : ParsedSentence :=
  {| sGGA := None; sVTG := None; sRMC := None; sGST := Some data; sHDT := None |}.
Definition of_HDT (data : HDT.t) : ParsedSentence :=
  {| sGGA := None; sVTG := None; sRMC := None; sGST := None; sHDT := Some data |}.

(** ** Python's truth values *)

(** [bool(x)] of a float: false exactly at [0.0] and [-0.0]; a NaN is true. *)
Definition float_truth (x : float) : bool := negb (PrimFloat.eqb x 0%float).

(** [bool(s)] of a string: false exactly at the empty string. *)
Definition str_truth (s : string) : bool :=
  match s with
  | EmptyString => false
  | String _ _ => true
  end.

(** ** The libraries *)

(** What [connect_serial] can catch from [add_sentence]: a [ValueError]
    (line 121), or anything else (line 123). *)
Inductive exn :=
  | ValueError (msg : string)
  | OtherException (msg : string).

(** The result of each function is its value or the exception it raises:
    [math.sin] and [math.cos] raise a [ValueError] at an infinity, a power
    that overflows raises an [OverflowError], and [rclpy.time.Time] raises
    at seconds that are negative or too large.  [math.radians] is a
    product and does not raise. *)
Class MathLib := {
  sin : float -> exn + float;             (* math.sin *)
  cos : float -> exn + float;             (* math.cos *)
  radians : float -> float;               (* math.radians *)
  pow : float -> float -> exn + float;    (* x ** y *)
  time_msg : Type;                        (* builtin_interfaces/Time *)
  Time_to_msg : float -> exn + time_msg   (* rclpy.time.Time(seconds=s).to_msg() *)
}.

(** [ros2_berrygps.gps_utils], which the sources do not include.
    [parse_maps sentence_type] is [None] when [sentence_type not in
    parse_maps]; otherwise it is the decoding that the entry's (name,
    decoder, index) triples define: from the list of fields to
    [{sentence_type: parsed_sentence}], or to the exception a decoder (or an
    index out of range) raises. *)
Class GpsUtils := {
  check_nmea_checksum : string -> bool;
  parse_maps : string -> option (list string -> exn + ParsedSentence);
  euler2quat : float -> float -> float -> float * float * float * float
}.

(** ** The node *)

(** The attributes of [self] that [add_sentence] reads or writes.
    [last_valid_fix_time] does not exist until the first GGA sentence with a
    time sets it. *)
Record GPSNode `{MathLib} := {
  time_ref_source : string;
  use_RMC : bool;
  valid_fix : bool;
  default_epe_quality0 : float;
  default_epe_quality1 : float;
  default_epe_quality2 : float;
  default_epe_quality4 : float;
  default_epe_quality5 : float;
  default_epe_quality9 : float;
  using_receiver_epe : bool;
  lon_std_dev : float;
  lat_std_dev : float;
  alt_std_dev : float;
  last_valid_fix_time : option (TimeReference.t time_msg)
}.

(** What the four publishers received. *)
Inductive Published `{MathLib} :=
  | fix_pub (m : NavSatFix.t)
  | vel_pub (m : TwistStamped.t)
  | heading_pub (m : QuaternionStamped.t)
  | time_ref_pub (m : TimeReference.t time_msg).

(** How a call of [add_sentence] ends: [return False], falling off the end
    ([None]), or an exception. *)
Inductive Outcome :=
  | ReturnFalse
  | ReturnNone
  | Raise (e : exn).

Section Node.
Context `{ML : MathLib}.

(** [__init__], with the parameters' default values. *)
Definition init : GPSNode :=
  {| time_ref_source := "gps";
     use_RMC := false;
     valid_fix := false;
     default_epe_quality0 := 1000000%float;
     default_epe_quality1 := 4.0%float;
     default_epe_quality2 := 0.1%float;
     default_epe_quality4 := 0.02%float;
     default_epe_quality5 := 4.0%float;
     default_epe_quality9 := 3.0%float;
     using_receiver_epe := false;
     lon_std_dev := nan;
     lat_std_dev := nan;
     alt_std_dev := nan;
     last_valid_fix_time := None |}.

(** [self.gps_qualities]: fix type of a GGA sentence to (default estimated
    position error, NavSatStatus value, NavSatFix covariance type).
    [__init__] builds it from the [default_epe_quality] attributes, which
    nothing assigns afterwards. *)
Definition gps_qualities (self : GPSNode) : gmap Z (float * Z * Z) :=
  list_to_map [
    (* Unknown *)
    (-1, (default_epe_quality0 self, NavSatStatus.STATUS_NO_FIX,
          NavSatFix.COVARIANCE_TYPE_UNKNOWN));
    (* Invalid *)
    (0, (default_epe_quality0 self, NavSatStatus.STATUS_NO_FIX,
         NavSatFix.COVARIANCE_TYPE_UNKNOWN));
    (* SPS *)
    (1, (default_epe_quality1 self, NavSatStatus.STATUS_FIX,
         NavSatFix.COVARIANCE_TYPE_APPROXIMATED));
    (* DGPS *)
    (2, (default_epe_quality2 self, NavSatStatus.STATUS_SBAS_FIX,
         NavSatFix.COVARIANCE_TYPE_APPROXIMATED));
    (* RTK Fix *)
    (4, (default_epe_quality4 self, NavSatStatus.STATUS_GBAS_FIX,
         NavSatFix.COVARIANCE_TYPE_APPROXIMATED));
    (* RTK Float *)
    (5, (default_epe_quality5 self, NavSatStatus.STATUS_GBAS_FIX,
         NavSatFix.COVARIANCE_TYPE_APPROXIMATED));
    (* WAAS *)
    (9, (default_epe_quality9 self, NavSatStatus.STATUS_GBAS_FIX,
         NavSatFix.COVARIANCE_TYPE_APPROXIMATED))
  ].

(** Lines 190-193: the entry of the fix type, or of [-1] when the fix type
    is not a key. *)
Definition gps_qual (self : GPSNode) (fix_type : Z) : float * Z * Z :=
  let fix_type := if decide (is_Some (gps_qualities self !! fix_type))
                  then fix_type else -1 in
  default (default_epe_quality0 self, NavSatStatus.STATUS_NO_FIX,
           NavSatFix.COVARIANCE_TYPE_UNKNOWN)
          (gps_qualities self !! fix_type).

(** *** Assignments to attributes of [self] *)

Definition set_valid_fix (self : GPSNode) (v : bool) : GPSNode :=
  {| time_ref_source := time_ref_source self;
     use_RMC := use_RMC self;
     valid_fix := v;
     default_epe_quality0 := default_epe_quality0 self;
     default_epe_quality1 := default_epe_quality1 self;
     default_epe_quality2 := default_epe_quality2 self;
     default_epe_quality4 := default_epe_quality4 self;
     default_epe_quality5 := default_epe_quality5 self;
     default_epe_quality9 := default_epe_quality9 self;
     using_receiver_epe := using_receiver_epe self;
     lon_std_dev := lon_std_dev self;
     lat_std_dev := lat_std_dev self;
     alt_std_dev := alt_std_dev self;
     last_valid_fix_time := last_valid_fix_time self |}.

Definition set_using_receiver_epe (self : GPSNode) (v : bool) : GPSNode :=
  {| time_ref_source := time_ref_source self;
     use_RMC := use_RMC self;
     valid_fix := valid_fix self;
     default_epe_quality0 := default_epe_quality0 self;
     default_epe_quality1 := default_epe_quality1 self;
     default_epe_quality2 := default_epe_quality2 self;
     default_epe_quality4 := default_epe_quality4 self;
     default_epe_quality5 := default_epe_quality5 self;
     default_epe_quality9 := default_epe_quality9 self;
     using_receiver_epe := v;
     lon_std_dev := lon_std_dev self;
     lat_std_dev := lat_std_dev self;
     alt_std_dev := alt_std_dev self;
     last_valid_fix_time := last_valid_fix_time self |}.

Definition set_lon_std_dev (self : GPSNode) (v : float) : GPSNode :=
  {| time_ref_source := time_ref_source self;
     use_RMC := use_RMC self;
     valid_fix := valid_fix self;
     default_epe_quality0 := default_epe_quality0 self;
     default_epe_quality1 := default_epe_quality1 self;
     default_epe_quality2 := default_epe_quality2 self;
     default_epe_quality4 := default_epe_quality4 self;
     default_epe_quality5 := default_epe_quality5 self;
     default_epe_quality9 := default_epe_quality9 self;
     using_receiver_epe := using_receiver_epe self;
     lon_std_dev := v;
     lat_std_dev := lat_std_dev self;
     alt_std_dev := alt_std_dev self;
     last_valid_fix_time := last_valid_fix_time self |}.

Definition set_lat_std_dev (self : GPSNode) (v : float) : GPSNode :=
  {| time_ref_source := time_ref_source self;
     use_RMC := use_RMC self;
     valid_fix := valid_fix self;
     default_epe_quality0 := default_epe_quality0 self;
     default_epe_quality1 := default_epe_quality1 self;
     default_epe_quality2 := default_epe_quality2 self;
     default_epe_quality4 := default_epe_quality4 self;
     default_epe_quality5 := default_epe_quality5 self;
     default_epe_quality9 := default_epe_quality9 self;
     using_receiver_epe := using_receiver_epe self;
     lon_std_dev := lon_std_dev self;
     lat_std_dev := v;
     alt_std_dev := alt_std_dev self;
     last_valid_fix_time := last_valid_fix_time self |}.

Definition set_alt_std_dev (self : GPSNode) (v : float) : GPSNode :=
  {| time_ref_source := time_ref_source self;
     use_RMC := use_RMC self;
     valid_fix := valid_fix self;
     default_epe_quality0 := default_epe_quality0 self;
     default_epe_quality1 := default_epe_quality1 self;
     default_epe_quality2 := default_epe_quality2 self;
     default_epe_quality4 := default_epe_quality4 self;
     default_epe_quality5 := default_epe_quality5 self;
     default_epe_quality9 := default_epe_quality9 self;
     using_receiver_epe := using_receiver_epe self;
     lon_std_dev := lon_std_dev self;
     lat_std_dev := lat_std_dev self;
     alt_std_dev := v;
     last_valid_fix_time := last_valid_fix_time self |}.

Definition set_last_valid_fix_time (self : GPSNode)
    (v : TimeReference.t time_msg) : GPSNode :=
  {| time_ref_source := time_ref_source self;
     use_RMC := use_RMC self;
     valid_fix := valid_fix self;
     default_epe_quality0 := default_epe_quality0 self;
     default_epe_quality1 := default_epe_quality1 self;
     default_epe_quality2 := default_epe_quality2 self;
     default_epe_quality4 := default_epe_quality4 self;
     default_epe_quality5 := default_epe_quality5 self;
     default_epe_quality9 := default_epe_quality9 self;
     using_receiver_epe := using_receiver_epe self;
     lon_std_dev := lon_std_dev self;
     lat_std_dev := lat_std_dev self;
     alt_std_dev := alt_std_dev self;
     last_valid_fix_time := Some v |}.

(** The parameter [useRMC] is read once, in [__init__]; this is the node as
    it would have been built with another value of it. *)
Definition with_use_RMC (self : GPSNode) (v : bool) : GPSNode :=
  {| time_ref_source := time_ref_source self;
     use_RMC := v;
     valid_fix := valid_fix self;
     default_epe_quality0 := default_epe_quality0 self;
     default_epe_quality1 := default_epe_quality1 self;
     default_epe_quality2 := default_epe_quality2 self;
     default_epe_quality4 := default_epe_quality4 self;
     default_epe_quality5 := default_epe_quality5 self;
     default_epe_quality9 := default_epe_quality9 self;
     using_receiver_epe := using_receiver_epe self;
     lon_std_dev := lon_std_dev self;
     lat_std_dev := lat_std_dev self;
     alt_std_dev := alt_std_dev self;
     last_valid_fix_time := last_valid_fix_time self |}.

End Node.

(** ** [add_sentence], from line 170 on: the parsed sentence *)

Section Dispatch.
Context `{ML : MathLib} `{GU : GpsUtils}.

Local Open Scope float_scope.

(** Lines 187-235: [not self.use_RMC and 'GGA' in parsed_sentence].  The
    three powers of lines 226-228 can raise, after [valid_fix] and the
    standard deviations were assigned and before anything is published;
    the conversion of line 233 can raise after the fix was published. *)
Definition on_GGA (self : GPSNode) (hdr : Header) (time_source : string)
    (data : GGA.t) : GPSNode * list Published * Outcome :=
  let fix_type := GGA.fix_type data in
  let '(default_epe, status, covariance_type) := gps_qual self fix_type in
  let self := if (status >? 0)%Z
              then set_valid_fix self true
              else set_valid_fix self false in
  let latitude := GGA.latitude data in
  let latitude := if String.eqb (GGA.latitude_direction data) "S"
                  then - latitude else latitude in
  let longitude := GGA.longitude data in
  let longitude := if String.eqb (GGA.longitude_direction data) "W"
                   then - longitude else longitude in
  (* Altitude is above ellipsoid, so adjust for mean-sea-level *)
  let altitude := GGA.altitude data + GGA.mean_sea_level data in
  (* use default epe std_dev unless we've received a GST sentence with epes *)
  let self := if negb (using_receiver_epe self) || is_nan (lon_std_dev self)
              then set_lon_std_dev self default_epe else self in
  let self := if negb (using_receiver_epe self) || is_nan (lat_std_dev self)
              then set_lat_std_dev self default_epe else self in
  let self := if negb (using_receiver_epe self) || is_nan (alt_std_dev self)
              then set_alt_std_dev self (default_epe * 2) else self in
  let hdop := GGA.hdop data in
  match pow (hdop * lon_std_dev self) 2 with
  | inl e => (self, [], Raise e)
  | inr c0 =>
  match pow (hdop * lat_std_dev self) 2 with
  | inl e => (self, [], Raise e)
  | inr c4 =>
  match pow (2 * hdop * alt_std_dev self) 2 with
  | inl e => (self, [], Raise e)
  | inr c8 =>
      let covariance := <[0%nat := c0]> NavSatFix.zero_covariance in
      let covariance := <[4%nat := c4]> covariance in
      let covariance := <[8%nat := c8]> covariance in  (* FIXME *)
      let current_fix :=
        {| NavSatFix.header := hdr;
           NavSatFix.status := status;
           NavSatFix.service := NavSatStatus.SERVICE_GPS;
           NavSatFix.latitude := latitude;
           NavSatFix.longitude := longitude;
           NavSatFix.altitude := altitude;
           NavSatFix.position_covariance := covariance;
           NavSatFix.position_covariance_type := covariance_type |} in
      if negb (is_nan (GGA.utc_time data)) then
        match Time_to_msg (GGA.utc_time data) with
        | inl e => (self, [fix_pub current_fix], Raise e)
        | inr time_ref =>
            let current_time_ref :=
              {| TimeReference.header := hdr;
                 TimeReference.time_ref := time_ref;
                 TimeReference.source := time_source |} in
            (set_last_valid_fix_time self current_time_ref,
             [fix_pub current_fix; time_ref_pub current_time_ref], ReturnNone)
        end
      else
        (self, [fix_pub current_fix], ReturnNone)
  end end end.

(** Lines 242-246 and 283-287: the velocity message of a speed and a
    course, or the exception of the sine or of the cosine. *)
Definition current_vel (hdr : Header) (speed true_course : float)
    : exn + TwistStamped.t :=
  match sin true_course with
  | inl e => inl e
  | inr s =>
      match cos true_course with
      | inl e => inl e
      | inr c =>
          inr {| TwistStamped.header := hdr;
                 TwistStamped.linear_x := speed * s;
                 TwistStamped.linear_y := speed * c |}
      end
  end.

(** Lines 238-247: [not self.use_RMC and 'VTG' in parsed_sentence]. *)
Definition on_VTG (self : GPSNode) (hdr : Header) (data : VTG.t)
    : GPSNode * list Published * Outcome :=
  (* Only report VTG data when you've received a valid GGA fix as well. *)
  if valid_fix self then
    match current_vel hdr (VTG.speed data) (VTG.true_course data) with
    | inl e => (self, [], Raise e)
    | inr vel => (self, [vel_pub vel], ReturnNone)
    end
  else
    (self, [], ReturnNone).

(** Lines 250-288: ['RMC' in parsed_sentence].  The fix is published (line
    275) before the conversion of line 278 and the sine and cosine of lines
    286-287, which can raise. *)
Definition on_RMC (self : GPSNode) (hdr : Header) (time_source : string)
    (data : RMC.t) : GPSNode * list Published * Outcome :=
  (* Only publish a fix from RMC if the use_RMC flag is set. *)
  let fix_part : list Published * option exn :=
    if use_RMC self then
      let status := if RMC.fix_valid data
                    then NavSatStatus.STATUS_FIX
                    else NavSatStatus.STATUS_NO_FIX in
      let latitude := RMC.latitude data in
      let latitude := if String.eqb (RMC.latitude_direction data) "S"
                      then - latitude else latitude in
      let longitude := RMC.longitude data in
      let longitude := if String.eqb (RMC.longitude_direction data) "W"
                       then - longitude else longitude in
      let current_fix :=
        {| NavSatFix.header := hdr;
           NavSatFix.status := status;
           NavSatFix.service := NavSatStatus.SERVICE_GPS;
           NavSatFix.latitude := latitude;
           NavSatFix.longitude := longitude;
           NavSatFix.altitude := nan;
           NavSatFix.position_covariance := NavSatFix.zero_covariance;
           NavSatFix.position_covariance_type :=
             NavSatFix.COVARIANCE_TYPE_UNKNOWN |} in
      if negb (is_nan (RMC.utc_time data)) then
        match Time_to_msg (RMC.utc_time data) with
        | inl e => ([fix_pub current_fix], Some e)
        | inr time_ref =>
            let current_time_ref :=
              {| TimeReference.header := hdr;
                 TimeReference.time_ref := time_ref;
                 TimeReference.source := time_source |} in
            ([fix_pub current_fix; time_ref_pub current_time_ref], None)
        end
      else
        ([fix_pub current_fix], None)
    else ([], None) in
  match fix_part with
  | (published, Some e) => (self, published, Raise e)
  | (published, None) =>
      (* Publish velocity from RMC regardless, since GGA doesn't provide it. *)
      if RMC.fix_valid data then
        match current_vel hdr (RMC.speed data) (RMC.true_course data) with
        | inl e => (self, published, Raise e)
        | inr vel => (self, published ++ [vel_pub vel], ReturnNone)
        end
      else (self, published, ReturnNone)
  end.

(** Lines 290-296: ['GST' in parsed_sentence]. *)
Definition on_GST (self : GPSNode) (data : GST.t)
    : GPSNode * list Published * Outcome :=
  (* Use receiver-provided error estimate if available *)
  let self := set_using_receiver_epe self true in
  let self := set_lon_std_dev self (GST.lon_std_dev data) in
  let self := set_lat_std_dev self (GST.lat_std_dev data) in
  let self := set_alt_std_dev self (GST.alt_std_dev data) in
  (self, [], ReturnNone).

(** Lines 298-308: ['HDT' in parsed_sentence]. [if data['heading']] is
    Python's truth of the value. *)
Definition on_HDT (self : GPSNode) (hdr : Header) (data : HDT.t)
    : GPSNode * list Published * Outcome :=
  match HDT.heading data with
  | Some heading =>
      if float_truth heading then
        let '(q0, q1, q2, q3) := euler2quat 0 0 (radians heading) in
        let current_heading :=
          {| QuaternionStamped.header := hdr;
             QuaternionStamped.x := q0;
             QuaternionStamped.y := q1;
             QuaternionStamped.z := q2;
             QuaternionStamped.w := q3 |} in
        (self, [heading_pub current_heading], ReturnNone)
      else (self, [], ReturnNone)
  | None => (self, [], ReturnNone)
  end.

(** Lines 170-310.  [timestamp] is the optional argument, [now] what
    [self.get_clock().now().to_msg()] gives at the call.  The result is
    the node, the messages published and how the call ends; a call that
    raises has assigned and published what came before the exception. *)
Definition add_parsed_sentence (self : GPSNode)
    (parsed_sentence : ParsedSentence) (frame_id : string)
    (timestamp : option Z) (now : Z) : GPSNode * list Published * Outcome :=
  let current_time := match timestamp with
                      | Some t => t
                      | None => now
                      end in
  let hdr := {| stamp := current_time; frame_id := frame_id |} in
  let time_source := if str_truth (time_ref_source self)
                     then time_ref_source self else frame_id in
  match (if use_RMC self then None else sGGA parsed_sentence) with
  | Some data => on_GGA self hdr time_source data
  | None =>
  match (if use_RMC self then None else sVTG parsed_sentence) with
  | Some data => on_VTG self hdr data
  | None =>
  match sRMC parsed_sentence with
  | Some data => on_RMC self hdr time_source data
  | None =>
  match sGST parsed_sentence with
  | Some data => on_GST self data
  | None =>
  match sHDT parsed_sentence with
  | Some data => on_HDT self hdr data
  | None => (self, [], ReturnFalse)
  end end end end end.

End Dispatch.

(** ** Strings *)

(** [s.split(sep)] for a separator of one character. *)
Fixpoint split (sep : ascii) (s : string) : list string :=
  match s with
  | EmptyString => [EmptyString]
  | String c s' =>
      if Ascii.eqb c sep then EmptyString :: split sep s'
      else match split sep s' with
           | field :: fields => String c field :: fields
           | [] => [String c EmptyString]
           end
  end.

(** [s.lstrip(c)], [s.rstrip(c)] and [s.strip(c)] for one character. *)
Fixpoint lstrip (c : ascii) (s : string) : string :=
  match s with
  | EmptyString => EmptyString
  | String a s' => if Ascii.eqb a c then lstrip c s' else s
  end.

Definition rstrip (c : ascii) (s : string) : string :=
  string_of_list_ascii
    (rev (list_ascii_of_string
            (lstrip c (string_of_list_ascii (rev (list_ascii_of_string s)))))).

Definition strip (c : ascii) (s : string) : string := rstrip c (lstrip c s).

(** [s[n:]]. *)
Fixpoint slice_from (n : nat) (s : string) : string :=
  match n, s with
  | O, _ => s
  | S n', String _ s' => slice_from n' s'
  | S _, EmptyString => EmptyString
  end.

(** ** Regular expressions

    The patterns of this program use literals, character classes,
    alternation, sequence and repetition; [re.match] asks whether some
    prefix of the line matches.  Both patterns end in [$], which Python
    (without [re.MULTILINE]) lets match at the end of the string and just
    before a newline that ends the string: with [dollar] as its last
    factor, a pattern matches a prefix exactly when it matches the whole
    line.  [^] is the start of the line, where [re.match] starts. *)

Inductive regex :=
  | Void                               (* matches nothing *)
  | Eps                                (* the empty string *)
  | Sym (p : ascii -> bool)            (* one character of a class *)
  | Cat (r1 r2 : regex)
  | Alt (r1 r2 : regex)
  | Star (r : regex).

Fixpoint nullable (r : regex) : bool :=
  match r with
  | Void => false
  | Eps => true
  | Sym _ => false
  | Cat r1 r2 => nullable r1 && nullable r2
  | Alt r1 r2 => nullable r1 || nullable r2
  | Star _ => true
  end.

(** The derivative of [r] by the character [c]. *)
Fixpoint deriv (c : ascii) (r : regex) : regex :=
  match r with
  | Void => Void
  | Eps => Void
  | Sym p => if p c then Eps else Void
  | Cat r1 r2 =>
      if nullable r1 then Alt (Cat (deriv c r1) r2) (deriv c r2)
      else Cat (deriv c r1) r2
  | Alt r1 r2 => Alt (deriv c r1) (deriv c r2)
  | Star r1 => Cat (deriv c r1) (Star r1)
  end.

Fixpoint accepts (r : regex) (s : list ascii) : bool :=
  match s with
  | [] => nullable r
  | c :: s' => accepts (deriv c r) s'
  end.

Definition chr (c : ascii) : regex := Sym (Ascii.eqb c).

Fixpoint lit (s : string) : regex :=
  match s with
  | EmptyString => Eps
  | String c s' => Cat (chr c) (lit s')
  end.

Definition newline : ascii := "010"%char.

Definition in_range (lo hi c : ascii) : bool :=
  (nat_of_ascii lo <=? nat_of_ascii c)%nat && (nat_of_ascii c <=? nat_of_ascii hi)%nat.

(** [.]: any character but a newline. *)
Definition dot : regex := Sym (fun c => negb (Ascii.eqb c newline)).

(** [[0-9A-Fa-f]]. *)
Definition is_hex (c : ascii) : bool :=
  in_range "0" "9" c || in_range "A" "F" c || in_range "a" "f" c.

(** [$] at the end of a pattern. *)
Definition dollar : regex := Alt Eps (chr newline).

(** Line 134: "(^\$GP|^\$GN|^\$GL|^\$IN).*\*[0-9A-Fa-f]{2}$". *)
Definition nmea_pattern : regex :=
  Cat (Alt (lit "$GP") (Alt (lit "$GN") (Alt (lit "$GL") (lit "$IN"))))
      (Cat (Star dot)
           (Cat (chr "*") (Cat (Sym is_hex) (Cat (Sym is_hex) dollar)))).

(** [re.match(pattern, s)] for a pattern that ends in [$]. *)
Definition re_match (pattern : regex) (s : string) : bool :=
  accepts pattern (list_ascii_of_string s).

(** The structural grammar as the specification writes it, to compare with
    [nmea_pattern]:
    "^\$(GP|GN|GL|IN)\w+(,[^,*]*)*\*[0-9A-Fa-f]{2}$".
    [\w] is taken over ASCII: a letter, a digit or an underscore. *)
Definition is_word (c : ascii) : bool :=
  in_range "a" "z" c || in_range "A" "Z" c || in_range "0" "9" c
  || Ascii.eqb c "_".

Definition is_field_char (c : ascii) : bool :=
  negb (Ascii.eqb c ",") && negb (Ascii.eqb c "*").

Definition structural_grammar : regex :=
  Cat (chr "$")
      (Cat (Alt (lit "GP") (Alt (lit "GN") (Alt (lit "GL") (lit "IN"))))
           (Cat (Cat (Sym is_word) (Star (Sym is_word)))
                (Cat (Star (Cat (chr ",") (Star (Sym is_field_char))))
                     (Cat (chr "*")
                          (Cat (Sym is_hex) (Cat (Sym is_hex) dollar)))))).

(** ** [parse_nmea_sentence] and [add_sentence] *)

(** What [parse_nmea_sentence] gives: [False] after the regex did not match
    (line 137), [False] for a sentence type that is not in [parse_maps]
    (line 146), the dictionary (line 154), or the exception of a decoder. *)
Inductive ParseResult :=
  | RegexMismatch
  | NotInParseMaps (sentence_type : string)
  | Parsed (parsed_sentence : ParsedSentence)
  | ParseRaise (e : exn).

Section AddSentence.
Context `{ML : MathLib} `{GU : GpsUtils}.

Definition parse_nmea_sentence (nmea_sentence : string) : ParseResult :=
  (* Check for a valid nmea sentence *)
  if negb (re_match nmea_pattern nmea_sentence) then RegexMismatch
  else
    let fields := map (strip ",") (split "," nmea_sentence) in
    (* Ignore the $ and talker ID portions (e.g. GP) *)
    let sentence_type := slice_from 3 (nth 0 fields EmptyString) in
    match parse_maps sentence_type with
    | None => NotInParseMaps sentence_type
    | Some parse_map =>
        match parse_map fields with
        | inl e => ParseRaise e
        | inr parsed_sentence => Parsed parsed_sentence
        end
    end.

(** Lines 159-310.  A dictionary with a key is true, so [if not
    parsed_sentence] holds exactly for the two [False] results.  An
    exception of a decoder leaves the node as it was; one of the dispatch
    leaves what [add_parsed_sentence] gives. *)
Definition add_sentence (self : GPSNode) (nmea_string frame_id : string)
    (timestamp : option Z) (now : Z) : GPSNode * list Published * Outcome :=
  if negb (check_nmea_checksum nmea_string) then (self, [], ReturnFalse)
  else
    match parse_nmea_sentence nmea_string with
    | RegexMismatch => (self, [], ReturnFalse)
    | NotInParseMaps _ => (self, [], ReturnFalse)
    | ParseRaise e => (self, [], Raise e)
    | Parsed parsed_sentence =>
        add_parsed_sentence self parsed_sentence frame_id timestamp now
    end.

(** The loop of [connect_serial] (lines 115-125) over the lines read, each
    already stripped and decoded and paired with the clock at its call:
    what each line published.  [frame_id] is what [get_frame_id] gives
    from the node's parameters.  A [ValueError] that [add_sentence] raises,
    from a decoder or from the dispatch, is logged and the loop goes on
    (line 121); any other exception of [add_sentence] ends it (line 123).
    Either way the node keeps what the call assigned before it raised. *)
Fixpoint connect_serial (self : GPSNode) (frame_id : string)
    (input : list (string * Z)) : GPSNode * list (string * list Published) :=
  match input with
  | [] => (self, [])
  | (data, now) :: rest =>
      let '(self', published, outcome) :=
        add_sentence self data frame_id None now in
      match outcome with
      | Raise (OtherException _) => (self', [(data, published)])
      | _ =>
          let '(self'', trace) := connect_serial self' frame_id rest in
          (self'', (data, published) :: trace)
      end
  end.

(** The sentence type [parse_nmea_sentence] looks up (lines 138-141). *)
Definition sentence_type_of (nmea_sentence : string) : string :=
  slice_from 3 (nth 0 (map (strip ",") (split "," nmea_sentence)) EmptyString).

(** The dictionary [add_sentence] dispatches for a line, if the line gets
    that far. *)
Definition sentence_of (nmea_string : string) : option ParsedSentence :=
  if check_nmea_checksum nmea_string then
    match parse_nmea_sentence nmea_string with
    | Parsed parsed_sentence => Some parsed_sentence
    | _ => None
    end
  else None.

End AddSentence.

(** ** Auxiliary definitions of the statements *)

(** The three parts of what [add_sentence] gives. *)
Definition node_after `{MathLib} (r : GPSNode * list Published * Outcome)
    : GPSNode := r.1.1.
Definition published `{MathLib} (r : GPSNode * list Published * Outcome)
    : list Published := r.1.2.
Definition outcome `{MathLib} (r : GPSNode * list Published * Outcome)
    : Outcome := r.2.

(** The strings a regular expression denotes. *)
Inductive Matches : regex -> list ascii -> Prop :=
  | MEps : Matches Eps []
  | MSym p c : p c = true -> Matches (Sym p) [c]
  | MCat r1 r2 s1 s2 :
      Matches r1 s1 -> Matches r2 s2 -> Matches (Cat r1 r2) (s1 ++ s2)
  | MAltL r1 r2 s : Matches r1 s -> Matches (Alt r1 r2) s
  | MAltR r1 r2 s : Matches r2 s -> Matches (Alt r1 r2) s
  | MStarNil r : Matches (Star r) []
  | MStarApp r s1 s2 :
      Matches r s1 -> Matches (Star r) s2 -> Matches (Star r) (s1 ++ s2).

(** The header and the time source of the messages of one call (lines
    170-184). *)
Definition header_of (frame_id : string) (timestamp : option Z) (now : Z)
    : Header :=
  {| stamp := match timestamp with Some t => t | None => now end;
     frame_id := frame_id |}.

Definition time_source_of `{MathLib} (self : GPSNode) (frame_id : string)
    : string :=
  if str_truth (time_ref_source self) then time_ref_source self else frame_id.

(** The policy of lines 218-223 for one standard deviation: the default
    unless the receiver gave a value that is not NaN. *)
Definition resolve_std_dev (using_receiver_epe : bool)
    (std_dev default : float) : float :=
  if negb using_receiver_epe || is_nan std_dev then default else std_dev.

(** The node after lines 190-223 of the GGA branch: [valid_fix] and the
    three standard deviations are assigned. *)
Definition GGA_node `{MathLib} (self : GPSNode) (data : GGA.t) : GPSNode :=
  let '(default_epe, status, _) := gps_qual self (GGA.fix_type data) in
  let self := if (status >? 0)%Z
              then set_valid_fix self true
              else set_valid_fix self false in
  let self := if negb (using_receiver_epe self) || is_nan (lon_std_dev self)
              then set_lon_std_dev self default_epe else self in
  let self := if negb (using_receiver_epe self) || is_nan (lat_std_dev self)
              then set_lat_std_dev self default_epe else self in
  let self := if negb (using_receiver_epe self) || is_nan (alt_std_dev self)
              then set_alt_std_dev self (default_epe * 2)%float else self in
  self.

(** The three powers of lines 226-228 for the standard deviations [lon],
    [lat], [alt], in their order: the diagonal of the covariance, or the
    first exception. *)
Definition covariance_diagonal `{MathLib} (hdop lon lat alt : float)
    : exn + float * float * float :=
  match pow (hdop * lon)%float 2%float with
  | inl e => inl e
  | inr c0 =>
      match pow (hdop * lat)%float 2%float with
      | inl e => inl e
      | inr c4 =>
          match pow (2 * hdop * alt)%float 2%float with
          | inl e => inl e
          | inr c8 => inr (c0, c4, c8)
          end
      end
  end.

(** The diagonal for a GGA sentence: with the standard deviations that the
    policy resolves. *)
Definition GGA_covariance `{MathLib} (self : GPSNode) (data : GGA.t)
    : exn + float * float * float :=
  let default_epe := (gps_qual self (GGA.fix_type data)).1.1 in
  covariance_diagonal (GGA.hdop data)
    (resolve_std_dev (using_receiver_epe self) (lon_std_dev self) default_epe)
    (resolve_std_dev (using_receiver_epe self) (lat_std_dev self) default_epe)
    (resolve_std_dev (using_receiver_epe self) (alt_std_dev self)
       (default_epe * 2)%float).

(** The fix message of the GGA branch (lines 187-228), written out, for
    the diagonal [c0], [c4], [c8] of the covariance. *)
Definition GGA_fix `{MathLib} (self : GPSNode) (hdr : Header) (data : GGA.t)
    (c0 c4 c8 : float) : NavSatFix.t :=
  let entry := gps_qual self (GGA.fix_type data) in
  {| NavSatFix.header := hdr;
     NavSatFix.status := entry.1.2;
     NavSatFix.service := NavSatStatus.SERVICE_GPS;
     NavSatFix.latitude :=
       if String.eqb (GGA.latitude_direction data) "S"
       then (- GGA.latitude data)%float else GGA.latitude data;
     NavSatFix.longitude :=
       if String.eqb (GGA.longitude_direction data) "W"
       then (- GGA.longitude data)%float else GGA.longitude data;
     NavSatFix.altitude := (GGA.altitude data + GGA.mean_sea_level data)%float;
     NavSatFix.position_covariance :=
       [c0; 0%float; 0%float;
        0%float; c4; 0%float;
        0%float; 0%float; c8];
     NavSatFix.position_covariance_type := entry.2 |}.

(** The fix message of the RMC branch (lines 254-273), written out. *)
Definition RMC_fix (hdr : Header) (data : RMC.t) : NavSatFix.t :=
  {| NavSatFix.header := hdr;
     NavSatFix.status := if RMC.fix_valid data
                         then NavSatStatus.STATUS_FIX
                         else NavSatStatus.STATUS_NO_FIX;
     NavSatFix.service := NavSatStatus.SERVICE_GPS;
     NavSatFix.latitude :=
       if String.eqb (RMC.latitude_direction data) "S"
       then (- RMC.latitude data)%float else RMC.latitude data;
     NavSatFix.longitude :=
       if String.eqb (RMC.longitude_direction data) "W"
       then (- RMC.longitude data)%float else RMC.longitude data;
     NavSatFix.altitude := nan;
     NavSatFix.position_covariance := NavSatFix.zero_covariance;
     NavSatFix.position_covariance_type := NavSatFix.COVARIANCE_TYPE_UNKNOWN |}.

(** Lines 281-288: the velocity of an RMC sentence, after the messages
    [published] for its fix. *)
Definition RMC_velocity `{MathLib} (self : GPSNode) (hdr : Header)
    (data : RMC.t) (published : list Published)
    : GPSNode * list Published * Outcome :=
  if RMC.fix_valid data then
    match current_vel hdr (RMC.speed data) (RMC.true_course data) with
    | inl e => (self, published, Raise e)
    | inr vel => (self, published ++ [vel_pub vel], ReturnNone)
    end
  else (self, published, ReturnNone).

(** The time reference of lines 233 and 278, for the time message that
    the conversion gave. *)
Definition time_ref_of `{MathLib} (hdr : Header) (src : string)
    (time_ref : time_msg) : TimeReference.t time_msg :=
  {| TimeReference.header := hdr;
     TimeReference.time_ref := time_ref;
     TimeReference.source := src |}.

(** [self.gps_qualities] with the fallback to [-1], entry by entry. *)
Definition table_entry `{MathLib} (self : GPSNode) (fix_type : Z)
    : float * Z * Z :=
  if decide (fix_type = 1) then
    (default_epe_quality1 self, NavSatStatus.STATUS_FIX,
     NavSatFix.COVARIANCE_TYPE_APPROXIMATED)
  else if decide (fix_type = 2) then
    (default_epe_quality2 self, NavSatStatus.STATUS_SBAS_FIX,
     NavSatFix.COVARIANCE_TYPE_APPROXIMATED)
  else if decide (fix_type = 4) then
    (default_epe_quality4 self, NavSatStatus.STATUS_GBAS_FIX,
     NavSatFix.COVARIANCE_TYPE_APPROXIMATED)
  else if decide (fix_type = 5) then
    (default_epe_quality5 self, NavSatStatus.STATUS_GBAS_FIX,
     NavSatFix.COVARIANCE_TYPE_APPROXIMATED)
  else if decide (fix_type = 9) then
    (default_epe_quality9 self, NavSatStatus.STATUS_GBAS_FIX,
     NavSatFix.COVARIANCE_TYPE_APPROXIMATED)
  else
    (default_epe_quality0 self, NavSatStatus.STATUS_NO_FIX,
     NavSatFix.COVARIANCE_TYPE_UNKNOWN).

(** The status of a fix type in the table; it does not depend on the node. *)
Definition quality_status (fix_type : Z) : Z :=
  if decide (fix_type = 1) then NavSatStatus.STATUS_FIX
  else if decide (fix_type = 2) then NavSatStatus.STATUS_SBAS_FIX
  else if decide (fix_type = 4) then NavSatStatus.STATUS_GBAS_FIX
  else if decide (fix_type = 5) then NavSatStatus.STATUS_GBAS_FIX
  else if decide (fix_type = 9) then NavSatStatus.STATUS_GBAS_FIX
  else NavSatStatus.STATUS_NO_FIX.

(** *** Notions of the properties below *)

(** The node holds the receiver's estimates [lon], [lat], [alt]. *)
Definition holds_receiver_epe `{MathLib} (lon lat alt : float)
    (self : GPSNode) : Prop :=
  using_receiver_epe self = true /\ lon_std_dev self = lon /\
  lat_std_dev self = lat /\ alt_std_dev self = alt.

(** No VTG sentence can publish: RMC is the source of the fix, or there is
    no valid fix. *)
Definition vtg_silent `{MathLib} (self : GPSNode) : Prop :=
  use_RMC self = true \/ valid_fix self = false.

(** The line does not restore a valid fix: if it is a GGA sentence, the
    status of its fix type does not pass the test of line 197. *)
Definition restores_no_fix `{GpsUtils} (line : string) : Prop :=
  forall p data,
    sentence_of line = Some p -> sGGA p = Some data ->
    (quality_status (GGA.fix_type data) >? 0)%Z = false.

(** No character of the string is a newline. *)
Definition no_newline (s : list ascii) : Prop :=
  Forall (fun c => negb (Ascii.eqb c newline) = true) s.

(** The talker identifiers of both patterns. *)
Definition talkers : list (list ascii) :=
  map list_ascii_of_string ["GP"; "GN"; "GL"; "IN"]%string.

(** ** A concrete [gps_utils] and math library, to run the model

    The theorems below hold for every [MathLib] and [GpsUtils]; the ones of
    this module give the examples something to compute with. *)

Module Sample.

Local Open Scope float_scope.

Definition is_infinite (a : float) : bool := abs a =? infinity.

(** Stand-ins for the math library: [radians] is the product with pi/180,
    a square is a product, and the time message is the number of seconds
    itself.  The sine and cosine are the first terms of their series.
    The exceptions are Python's and rclpy's: [math.sin] and [math.cos]
    raise a [ValueError] at an infinity (not at a NaN); a power of a finite
    number that overflows raises an [OverflowError]; [rclpy.time.Time]
    raises a [ValueError] at negative seconds and an [OverflowError] when
    the nanoseconds reach 2^63. *)
Definition series_sin (a : float) : float :=
  a - a * a * a / 6 + a * a * a * a * a / 120.

Definition series_cos (a : float) : float :=
  1 - a * a / 2 + a * a * a * a / 24.

Definition sample_sin (a : float) : exn + float :=
  if is_infinite a then inl (ValueError "math domain error")
  else inr (series_sin a).

Definition sample_cos (a : float) : exn + float :=
  if is_infinite a then inl (ValueError "math domain error")
  else inr (series_cos a).

Definition sample_pow (a b : float) : exn + float :=
  if is_infinite (a * a) && negb (is_infinite a)
  then inl (OtherException "OverflowError: (34, 'Numerical result out of range')")
  else inr (a * a).

Definition sample_Time_to_msg (s : float) : exn + float :=
  if s <? 0 then inl (ValueError "Seconds value must not be negative")
  else if 9223372036854775808 <=? s * 1000000000
       then inl (OtherException "OverflowError: Total nanoseconds value is too large to store in C time point.")
       else inr s.

#[export] Instance math : MathLib := {|
  sin := sample_sin;
  cos := sample_cos;
  radians := fun a => a * 0.017453292519943295;
  pow := sample_pow;
  time_msg := float;
  Time_to_msg := sample_Time_to_msg
|}.

Definition digit (c : ascii) : option float :=
  if Ascii.eqb c "0" then Some 0 else if Ascii.eqb c "1" then Some 1
  else if Ascii.eqb c "2" then Some 2 else if Ascii.eqb c "3" then Some 3
  else if Ascii.eqb c "4" then Some 4 else if Ascii.eqb c "5" then Some 5
  else if Ascii.eqb c "6" then Some 6 else if Ascii.eqb c "7" then Some 7
  else if Ascii.eqb c "8" then Some 8 else if Ascii.eqb c "9" then Some 9
  else None.

(** The digits of [s] after the mantissa [m], scaled by [scale]: [m] and
    the powers of ten are exact floats as long as the number has at most
    fifteen digits, and the one division rounds once, as [float(s)] does. *)
Fixpoint decimal_from (seen_point : bool) (m scale : float) (s : string)
    : option float :=
  match s with
  | EmptyString => Some (m / scale)
  | String c s' =>
      if Ascii.eqb c "." then
        if seen_point then None else decimal_from true m scale s'
      else
        match digit c with
        | Some d => decimal_from seen_point (m * 10 + d)
                      (if seen_point then scale * 10 else scale) s'
        | None => None
        end
  end.

(** [float(s)] on the plain decimals ([545.4]); a [ValueError] on the empty
    string and on anything else. *)
Definition decode_float (s : string) : exn + float :=
  match s with
  | EmptyString => inl (ValueError "could not convert string to float")
  | _ => match decimal_from false 0 1 s with
         | Some v => inr v
         | None => inl (ValueError "could not convert string to float")
         end
  end.

(** [int(s)] on the one-digit fix qualities. *)
Definition decode_quality (s : string) : exn + Z :=
  if String.eqb s "0" then inr 0%Z else if String.eqb s "1" then inr 1%Z
  else if String.eqb s "2" then inr 2%Z else if String.eqb s "3" then inr 3%Z
  else if String.eqb s "4" then inr 4%Z else if String.eqb s "5" then inr 5%Z
  else if String.eqb s "6" then inr 6%Z else if String.eqb s "7" then inr 7%Z
  else if String.eqb s "8" then inr 8%Z else if String.eqb s "9" then inr 9%Z
  else inl (ValueError "invalid literal for int()").

Definition bind {A B : Type} (x : exn + A) (k : A -> exn + B) : exn + B :=
  match x with
  | inl e => inl e
  | inr a => k a
  end.

Local Notation "'do' x <- c ; k" := (bind c (fun x => k))
  (at level 10, x name, c at level 100, k at level 200).

(** [s[:n]]. *)
Fixpoint slice_to (n : nat) (s : string) : string :=
  match n, s with
  | S n', String c s' => String c (slice_to n' s')
  | _, _ => EmptyString
  end.

(** Degrees and decimal minutes ([4807.038], [01131.000]) to decimal
    degrees; [deg_digits] is 2 for a latitude and 3 for a longitude. *)
Definition decode_degrees (deg_digits : nat) (s : string) : exn + float :=
  do d <- decode_float (slice_to deg_digits s);
  do m <- decode_float (slice_from deg_digits s);
  inr (d + m / 60).

(** [hhmmss] to the seconds since midnight; NaN when blank. *)
Definition decode_time (s : string) : exn + float :=
  match s with
  | EmptyString => inr nan
  | _ =>
      do h <- decode_float (slice_to 2 s);
      do m <- decode_float (slice_to 2 (slice_from 2 s));
      do sec <- decode_float (slice_from 4 s);
      inr (h * 3600 + m * 60 + sec)
  end.

(** A float, NaN when blank. *)
Definition decode_float_or_nan (s : string) : exn + float :=
  match s with
  | EmptyString => inr nan
  | _ => decode_float s
  end.

(** A float, [None] when blank. *)
Definition decode_float_or_none (s : string) : exn + option float :=
  match s with
  | EmptyString => inr None
  | _ => do v <- decode_float s; inr (Some v)
  end.

(** [fields[i]], or an [IndexError]. *)
Definition field (fields : list string) (i : nat) : exn + string :=
  match nth_error fields i with
  | Some f => inr f
  | None => inl (OtherException "IndexError: list index out of range")
  end.

Definition knots_to_mps (v : float) : float := v * 0.514444444444.

Definition parse_GGA (fields : list string) : exn + ParsedSentence :=
  do f6 <- field fields 6; do fix_type <- decode_quality f6;
  do f2 <- field fields 2; do latitude <- decode_degrees 2 f2;
  do latitude_direction <- field fields 3;
  do f4 <- field fields 4; do longitude <- decode_degrees 3 f4;
  do longitude_direction <- field fields 5;
  do f9 <- field fields 9; do altitude <- decode_float f9;
  do f11 <- field fields 11; do mean_sea_level <- decode_float f11;
  do f8 <- field fields 8; do hdop <- decode_float f8;
  do f1 <- field fields 1; do utc_time <- decode_time f1;
  inr (of_GGA {| GGA.fix_type := fix_type;
                 GGA.latitude := latitude;
                 GGA.latitude_direction := latitude_direction;
                 GGA.longitude := longitude;
                 GGA.longitude_direction := longitude_direction;
                 GGA.altitude := altitude;
                 GGA.mean_sea_level := mean_sea_level;
                 GGA.hdop := hdop;
                 GGA.utc_time := utc_time |}).

Definition parse_VTG (fields : list string) : exn + ParsedSentence :=
  do f1 <- field fields 1; do course <- decode_float f1;
  do f5 <- field fields 5; do knots <- decode_float f5;
  inr (of_VTG {| VTG.speed := knots_to_mps knots;
                 VTG.true_course := radians course |}).

Definition parse_RMC (fields : list string) : exn + ParsedSentence :=
  do f1 <- field fields 1; do utc_time <- decode_time f1;
  do f2 <- field fields 2;
  do f3 <- field fields 3; do latitude <- decode_degrees 2 f3;
  do latitude_direction <- field fields 4;
  do f5 <- field fields 5; do longitude <- decode_degrees 3 f5;
  do longitude_direction <- field fields 6;
  do f7 <- field fields 7; do knots <- decode_float f7;
  do f8 <- field fields 8; do course <- decode_float f8;
  inr (of_RMC {| RMC.fix_valid := String.eqb f2 "A";
                 RMC.latitude := latitude;
                 RMC.latitude_direction := latitude_direction;
                 RMC.longitude := longitude;
                 RMC.longitude_direction := longitude_direction;
                 RMC.utc_time := utc_time;
                 RMC.speed := knots_to_mps knots;
                 RMC.true_course := radians course |}).

Definition parse_GST (fields : list string) : exn + ParsedSentence :=
  do f6 <- field fields 6; do lat_std_dev <- decode_float_or_nan f6;
  do f7 <- field fields 7; do lon_std_dev <- decode_float_or_nan f7;
  do f8 <- field fields 8; do alt_std_dev <- decode_float_or_nan f8;
  inr (of_GST {| GST.lon_std_dev := lon_std_dev;
                 GST.lat_std_dev := lat_std_dev;
                 GST.alt_std_dev := alt_std_dev |}).

Definition parse_HDT (fields : list string) : exn + ParsedSentence :=
  do f1 <- field fields 1; do heading <- decode_float_or_none f1;
  inr (of_HDT {| HDT.heading := heading |}).

(** The XOR of the characters of [s]. *)
Fixpoint xor_chars (acc : N) (s : string) : N :=
  match s with
  | EmptyString => acc
  | String c s' => xor_chars (N.lxor acc (N_of_ascii c)) s'
  end.

(** The value of a hexadecimal digit of either case. *)
Definition hex_value (c : ascii) : option N :=
  let n := N_of_ascii c in
  if in_range "0" "9" c then Some (n - 48)%N
  else if in_range "A" "F" c then Some (n - 55)%N
  else if in_range "a" "f" c then Some (n - 87)%N
  else None.

(** Modelled from the spec: [gps_utils.check_nmea_checksum], which the
    sources do not include.  Section 4.1: the XOR of all bytes between [$]
    and [*] (exclusive), compared against the two hexadecimal digits after
    [*], in either case. *)
Definition sample_checksum (nmea_sentence : string) : bool :=
  match split "*" nmea_sentence with
  | [data; String h (String l EmptyString)] =>
      match hex_value h, hex_value l with
      | Some hv, Some lv =>
          N.eqb (xor_chars 0%N (slice_from 1 data)) (16 * hv + lv)%N
      | _, _ => false
      end
  | _ => false
  end.

(** Modelled from the spec: [gps_utils.parse_maps] and [euler2quat], which
    the sources do not include.  The five sentence types of section 3 with
    the decoders section 4.2 lists, at the field positions of the examples
    of section 8; the yaw, pitch, roll quaternion as (x, y, z, w). *)
#[export] Instance gps_utils : GpsUtils := {|
  check_nmea_checksum := sample_checksum;
  parse_maps := fun sentence_type =>
    if String.eqb sentence_type "GGA" then Some parse_GGA
    else if String.eqb sentence_type "VTG" then Some parse_VTG
    else if String.eqb sentence_type "RMC" then Some parse_RMC
    else if String.eqb sentence_type "GST" then Some parse_GST
    else if String.eqb sentence_type "HDT" then Some parse_HDT
    else None;
  euler2quat := fun roll pitch yaw =>
    let cr := series_cos (roll / 2) in let sr := series_sin (roll / 2) in
    let cp := series_cos (pitch / 2) in let sp := series_sin (pitch / 2) in
    let cy := series_cos (yaw / 2) in let sy := series_sin (yaw / 2) in
    (sr * cp * cy - cr * sp * sy,
     cr * sp * cy + sr * cp * sy,
     cr * cp * sy - sr * sp * cy,
     cr * cp * cy + sr * sp * sy)
|}.

End Sample.

(** ** Lines and nodes of the examples *)

Module Examples.
Import Sample.

Local Open Scope string_scope.

(** The GGA sentence of example 1 (fix type 1), and the same sentence with
    the fix types 0 and 2. *)
Definition gga_line : string :=
  "$GPGGA,123519,4807.038,N,01131.000,E,1,08,0.9,545.4,M,46.9,M,,*47".
Definition gga_no_fix_line : string :=
  "$GPGGA,123519,4807.038,N,01131.000,E,0,08,0.9,545.4,M,46.9,M,,*46".
Definition gga_dgps_line : string :=
  "$GPGGA,123519,4807.038,N,01131.000,E,2,08,0.9,545.4,M,46.9,M,,*44".

(** The RMC sentence of example 3. *)
Definition rmc_line : string :=
  "$GPRMC,123519,A,4807.038,N,01131.000,E,022.4,084.4,230394,003.1,W*6A".

Definition vtg_line : string := "$GPVTG,054.7,T,034.4,M,005.5,N,010.2,K*48".

(** A GST sentence.  The checksum stays in the last field of the split
    line, so the line ends with an empty field and the altitude error is
    a field of its own. *)
Definition gst_line : string :=
  "$GPGST,172814.0,0.006,0.023,0.020,273.6,0.023,0.020,0.031,*46".

(** The HDT sentence of example 5, and the one of a heading due north. *)
Definition hdt_line : string := "$GPHDT,045.0,T*34".
Definition hdt_north_line : string := "$GPHDT,0.0,T*35".


(** Lines that the pattern of line 134 matches and the structural grammar
    does not: no sentence type; an asterisk in a field. *)
Definition talker_only_line : string := "$GP*17".
Definition asterisk_field_line : string := "$GPHDT,45.0,T,*,*2E".

(** The node of [__init__] with the parameter [useRMC] set. *)
Definition init_RMC : GPSNode := with_use_RMC init true.

(** The node after a GGA sentence with a differential fix: [valid_fix] is
    true. *)
Definition with_fix : GPSNode :=
  node_after (add_sentence init gga_dgps_line "gps" None 0).

(** The lines after the GGA sentence without a fix, each with the clock at
    its call. *)
Definition after_no_fix : list (string * Z) :=
  [(vtg_line, 1); (rmc_line, 2); (vtg_line, 3)].

(** The lines between the GST and the GGA sentence. *)
Definition after_gst : list (string * Z) := [(vtg_line, 1); (hdt_line, 2)].

(** The node after the GST line and the lines that follow it. *)
Definition after_gst_node : GPSNode :=
  (connect_serial init "gps" ((gst_line, 0) :: after_gst)).1.

(** The fields of the three GGA lines, by fix type, and of the GST line. *)
Definition gga_fields (fix_type : Z) : GGA.t :=
  {| GGA.fix_type := fix_type;
     GGA.latitude := 48.1173%float;
     GGA.latitude_direction := "N";
     GGA.longitude := 11.516666666666667%float;
     GGA.longitude_direction := "E";
     GGA.altitude := 545.4%float;
     GGA.mean_sea_level := 46.9%float;
     GGA.hdop := 0.9%float;
     GGA.utc_time := 45319%float |}.


(** A GGA sentence of the southern and western hemisphere, and an RMC
    sentence with a valid fix. *)
Definition gga_south_west : GGA.t :=
  {| GGA.fix_type := 1;
     GGA.latitude := 33.5%float;
     GGA.latitude_direction := "S";
     GGA.longitude := 70.25%float;
     GGA.longitude_direction := "W";
     GGA.altitude := 520%float;
     GGA.mean_sea_level := 30%float;
     GGA.hdop := 1.5%float;
     GGA.utc_time := 45319%float |}.


(** An RMC sentence of the southern and western hemisphere. *)
Definition rmc_south_west : RMC.t :=
  {| RMC.fix_valid := true;
     RMC.latitude := 33.5%float;
     RMC.latitude_direction := "S";
     RMC.longitude := 70.25%float;
     RMC.longitude_direction := "W";
     RMC.utc_time := 45319%float;
     RMC.speed := 11.5%float;
     RMC.true_course := 1.5%float |}.


(** A GGA sentence without a fix that carries a time. *)
Definition gga_no_fix : GGA.t :=
  {| GGA.fix_type := 0;
     GGA.latitude := 48.1173%float;
     GGA.latitude_direction := "N";
     GGA.longitude := 11.5%float;
     GGA.longitude_direction := "E";
     GGA.altitude := 545.5%float;
     GGA.mean_sea_level := 47%float;
     GGA.hdop := 0.5%float;
     GGA.utc_time := 45319%float |}.

End Examples.

(** ** The rest of [gps_node.py] and [imu_node.py] *)

(** [get_frame_id] (lines 313-318).  The values of the parameters
    [frame_id] and [tf_prefix] are its arguments: [better_get_parameter_or]
    is not among the sources. *)
Definition get_frame_id (frame_id prefix : string) : string :=
  if (0 <? String.length prefix)%nat
  then (prefix ++ "/" ++ frame_id)%string
  else frame_id.

(** [imu_node.py], [IMUNode.handle_imu] (lines 90-149). *)
Module Imu.

Record Quaternion := { qx : float; qy : float; qz : float; qw : float }.
Record Vector3 := { vx : float; vy : float; vz : float }.

(** [sensor_msgs/msg/Imu]; the three covariances are never assigned. *)
Record t := {
  header : Header;
  orientation : Quaternion;
  angular_velocity : Vector3;
  linear_acceleration : Vector3
}.

(** The keys of the dictionary of [getIMUData] that [handle_imu] reads.
    [fusionQPose] is (scalar, x, y, z). *)
Record IMUData := {
  fusionPose : float * float * float;
  fusionQPose : float * float * float * float;
  gyro : float * float * float;
  accel : float * float * float
}.

(** What [self.pressure.pressureRead()] gives. *)
Record PressureData := {
  pressureValid : bool;
  pressure : float;
  temperatureValid : bool;
  temperature : float
}.

Section HandleImu.
(** [ros2_berrygps.imu_utils], which the sources do not include: a
    constant, and a function whose result is only logged; an exception of it
    is the one thing of it that [handle_imu] can show. *)
Variable G_TO_MPSS : float.
Variable compute_height : float -> exn + float.

Local Open Scope float_scope.

(** [IMURead] and [getIMUData] are what the two calls of [self.imu] give,
    [pressureRead] what [self.pressure.pressureRead()] gives, [now] the
    clock at the call.  The result is the list of messages published, or
    the exception that ends the call. *)
Definition handle_imu (frame_id : string) (IMURead : bool)
    (getIMUData : option IMUData) (pressureRead : PressureData) (now : Z)
    : exn + list t :=
  if IMURead then
    match getIMUData with
    | Some data =>
        (* TODO : publish this info too for GPS fusion *)
        match (if pressureValid pressureRead
               then compute_height (pressure pressureRead)
               else inr 0) with
        | inl e => inl e
        | inr _ =>
            (* build msg and publish *)
            let '(qfp0, qfp1, qfp2, qfp3) := fusionQPose data in
            let '(a0, a1, a2) := accel data in
            let '(g0, g1, g2) := gyro data in
            let ori := {| qx := qfp1; qy := qfp2; qz := qfp3; qw := qfp0 |} in
            let av := {| vx := g0; vy := g1; vz := g2 |} in
            let la := {| vx := a1 * G_TO_MPSS; vy := a1 * G_TO_MPSS;
                         vz := a2 * G_TO_MPSS |} in
            inr [ {| header := {| stamp := now; frame_id := frame_id |};
                     orientation := ori;
                     angular_velocity := av;
                     linear_acceleration := la |} ]
        end
    | None => inr []
    end
  else inr [].

End HandleImu.

(** The data with another acceleration along x. *)
Definition with_accel_x (data : IMUData) (ax : float) : IMUData :=
  {| fusionPose := fusionPose data;
     fusionQPose := fusionQPose data;
     gyro := gyro data;
     accel := (ax, (accel data).1.2, (accel data).2) |}.

End Imu.

(** ** More notions of the properties *)

(** The header of a published message, and its topic. *)
Definition msg_header `{MathLib} (m : Published) : Header :=
  match m with
  | fix_pub m => NavSatFix.header m
  | vel_pub m => TwistStamped.header m
  | heading_pub m => QuaternionStamped.header m
  | time_ref_pub m => TimeReference.header m
  end.

Inductive Topic := on_fix | on_vel | on_heading | on_time_reference.

Definition topic_of `{MathLib} (m : Published) : Topic :=
  match m with
  | fix_pub _ => on_fix
  | vel_pub _ => on_vel
  | heading_pub _ => on_heading
  | time_ref_pub _ => on_time_reference
  end.

(** The attributes that [__init__] reads from the parameters. *)
Definition same_configuration `{MathLib} (a b : GPSNode) : Prop :=
  time_ref_source a = time_ref_source b /\
  use_RMC a = use_RMC b /\
  default_epe_quality0 a = default_epe_quality0 b /\
  default_epe_quality1 a = default_epe_quality1 b /\
  default_epe_quality2 a = default_epe_quality2 b /\
  default_epe_quality4 a = default_epe_quality4 b /\
  default_epe_quality5 a = default_epe_quality5 b /\
  default_epe_quality9 a = default_epe_quality9 b.

(** The shapes of what a call that raises has published. *)
Definition published_before_raise `{MathLib} (published : list Published)
    : Prop :=
  published = [] \/
  (exists m, published = [fix_pub m]) \/
  (exists m time_ref, published = [fix_pub m; time_ref_pub time_ref]).

(** The call of [add_sentence] for the line, on this node, ends the loop
    of [connect_serial]: it raises an exception that is not a [ValueError],
    from a decoder or from the dispatch. *)
Definition ends_loop `{MathLib} `{GpsUtils} (self : GPSNode)
    (frame_id line : string) (now : Z) : Prop :=
  exists msg,
    outcome (add_sentence self line frame_id None now)
    = Raise (OtherException msg).

(** No call of the loop over the lines ends it: each line is handled on
    the node that the lines before it leave. *)
Fixpoint goes_on `{MathLib} `{GpsUtils} (self : GPSNode) (frame_id : string)
    (input : list (string * Z)) : Prop :=
  match input with
  | [] => True
  | (line, now) :: rest =>
      ~ ends_loop self frame_id line now /\
      goes_on (node_after (add_sentence self line frame_id None now))
        frame_id rest
  end.



(** [sep.join(fields)] for a separator of one character. *)
Fixpoint join (sep : ascii) (fields : list string) : string :=
  match fields with
  | [] => EmptyString
  | [field] => field
  | field :: fields => (field ++ String sep (join sep fields))%string
  end.

(** The characters before the first [c]. *)
Fixpoint before (c : ascii) (s : list ascii) : list ascii :=
  match s with
  | [] => []
  | a :: s' => if Ascii.eqb a c then [] else a :: before c s'
  end.

(** ** More lines and nodes *)

Module Inputs.
Import Sample.

Local Open Scope string_scope.

(** A heading that is no number, a GGA sentence cut short, the GGA sentence
    of example 1 from a Galileo receiver and from a combined one, a GST
    sentence with blank error estimates, GGA sentences with the fix types
    4 and 6. *)
Definition hdt_bad_line : string := "$GPHDT,abc,T*7B".
Definition gga_short_line : string := "$GPGGA,123519*77".
Definition gga_galileo_line : string :=
  "$GAGGA,123519,4807.038,N,01131.000,E,1,08,0.9,545.4,M,46.9,M,,*56".
Definition gga_gn_line : string :=
  "$GNGGA,123519,4807.038,N,01131.000,E,1,08,0.9,545.4,M,46.9,M,,*59".
Definition gst_blank_line : string :=
  "$GPGST,172814.0,0.006,0.023,0.020,273.6,,,,*69".
Definition gga_rtk_line : string :=
  "$GPGGA,123519,4807.038,N,01131.000,E,4,08,0.9,545.4,M,46.9,M,,*42".
Definition gga_estimated_line : string :=
  "$GPGGA,123519,4807.038,N,01131.000,E,6,08,0.9,545.4,M,46.9,M,,*40".

(** A GGA sentence with a differential fix whose time field has more
    seconds than the nanoseconds of a ROS time can count. *)
Definition gga_late_line : string :=
  "$GPGGA,12359999999999999,4807.038,N,01131.000,E,2,08,0.9,545.4,M,46.9,M,,*75".

(** The GST sentence with blank error estimates. *)
Definition gst_blank : GST.t :=
  {| GST.lon_std_dev := nan; GST.lat_std_dev := nan; GST.alt_std_dev := nan |}.

(** A run of the loop: a fix, a bad heading, a velocity. *)
Definition run : list (string * Z) :=
  [(Examples.gga_dgps_line, 0); (hdt_bad_line, 1); (Examples.vtg_line, 2)].

(** A GGA sentence with a differential fix whose dilution of precision
    makes the covariance overflow. *)
Definition gga_huge_hdop : GGA.t :=
  {| GGA.fix_type := 2;
     GGA.latitude := 48.1173%float;
     GGA.latitude_direction := "N";
     GGA.longitude := 11.5%float;
     GGA.longitude_direction := "E";
     GGA.altitude := 545.5%float;
     GGA.mean_sea_level := 47%float;
     GGA.hdop := 1e200%float;
     GGA.utc_time := 45319%float |}.

(** A reading of the IMU at rest, and of the pressure sensor. *)
Definition imu_data : Imu.IMUData :=
  {| Imu.fusionPose := (0, 0, 0.5)%float;
     Imu.fusionQPose := (0.96875, 0, 0, 0.25)%float;
     Imu.gyro := (0.125, 0.25, 0.5)%float;
     Imu.accel := (0.5, 0.25, 1)%float |}.

Definition pressure_data : Imu.PressureData :=
  {| Imu.pressureValid := true;
     Imu.pressure := 1013.25%float;
     Imu.temperatureValid := true;
     Imu.temperature := 21.5%float |}.

(** Stand-ins for [imu_utils]: the standard gravity, and a height that is
    defined for a positive pressure. *)
Definition G_TO_MPSS : float := 9.80665%float.
Definition compute_height (pressure : float) : exn + float :=
  if (0 <? pressure)%float then inr (44330.8 - pressure * 43.75)%float
  else inl (ValueError "math domain error").

End Inputs.

(** * Properties *)

(** ** The quality table *)

Section QualityTable.
Context `{ML : MathLib}.

Lemma gps_qual_table (self : GPSNode) (fix_type : Z) :
  gps_qual self fix_type = table_entry self fix_type.
Proof.
  unfold table_entry.
  destruct (decide (fix_type = 1)) as [->|N1]; [reflexivity|].
  destruct (decide (fix_type = 2)) as [->|N2]; [reflexivity|].
  destruct (decide (fix_type = 4)) as [->|N4]; [reflexivity|].
  destruct (decide (fix_type = 5)) as [->|N5]; [reflexivity|].
  destruct (decide (fix_type = 9)) as [->|N9]; [reflexivity|].
  destruct (decide (fix_type = 0)) as [->|N0]; [reflexivity|].
  destruct (decide (fix_type = -1)) as [->|Nm]; [reflexivity|].
  unfold gps_qual.
  assert (Hnone : gps_qualities self !! fix_type = None).
  { unfold gps_qualities. cbn [list_to_map foldr uncurry fst snd].
    repeat (rewrite lookup_insert_ne by congruence). apply lookup_empty. }
  rewrite Hnone. rewrite decide_False by (intros [? ?]; discriminate).
  reflexivity.
Qed.

Lemma gps_qual_status (self : GPSNode) (fix_type : Z) :
  (gps_qual self fix_type).1.2 = quality_status fix_type.
Proof.
  rewrite gps_qual_table. unfold table_entry, quality_status.
  repeat case_decide; reflexivity.
Qed.

(** The table has four statuses, and the plain fix is the one at 0. *)
Lemma quality_status_range (fix_type : Z) :
  -1 <= quality_status fix_type <= 2.
Proof.
  unfold quality_status. repeat case_decide; cbv; split; congruence.
Qed.

End QualityTable.

(** ** The handling of a parsed sentence *)

(** Reduction of the attribute reads and writes, and nothing else. *)
Ltac node_simpl :=
  cbn [set_valid_fix set_using_receiver_epe set_lon_std_dev set_lat_std_dev
       set_alt_std_dev set_last_valid_fix_time with_use_RMC
       time_ref_source use_RMC valid_fix default_epe_quality0
       default_epe_quality1 default_epe_quality2 default_epe_quality4
       default_epe_quality5 default_epe_quality9 using_receiver_epe
       lon_std_dev lat_std_dev alt_std_dev last_valid_fix_time
       node_after published outcome fst snd negb orb andb app].

(** The tests of the standard deviations, decided one by one. *)
Ltac std_dev_cases self :=
  let Hu := fresh "Hu" in
  let Hlon := fresh "Hlon" in
  let Hlat := fresh "Hlat" in
  let Halt := fresh "Halt" in
  destruct (using_receiver_epe self) eqn:Hu;
  destruct (is_nan (lon_std_dev self)) eqn:Hlon;
  destruct (is_nan (lat_std_dev self)) eqn:Hlat;
  destruct (is_nan (alt_std_dev self)) eqn:Halt;
  repeat (node_simpl; rewrite ?Hu, ?Hlon, ?Hlat, ?Halt).

Section FixEngine.
Context `{ML : MathLib} `{GU : GpsUtils}.

Local Open Scope float_scope.

(** Which branch a one-key dictionary takes. *)
Lemma add_parsed_GGA self data frame_id timestamp now :
  add_parsed_sentence self (of_GGA data) frame_id timestamp now =
  if use_RMC self then (self, [], ReturnFalse)
  else on_GGA self (header_of frame_id timestamp now)
         (time_source_of self frame_id) data.
Proof. unfold add_parsed_sentence. destruct (use_RMC self); reflexivity. Qed.

Lemma add_parsed_VTG self data frame_id timestamp now :
  add_parsed_sentence self (of_VTG data) frame_id timestamp now =
  if use_RMC self then (self, [], ReturnFalse)
  else on_VTG self (header_of frame_id timestamp now) data.
Proof. unfold add_parsed_sentence. destruct (use_RMC self); reflexivity. Qed.

Lemma add_parsed_RMC self data frame_id timestamp now :
  add_parsed_sentence self (of_RMC data) frame_id timestamp now =
  on_RMC self (header_of frame_id timestamp now)
    (time_source_of self frame_id) data.
Proof. unfold add_parsed_sentence. destruct (use_RMC self); reflexivity. Qed.

Lemma add_parsed_GST self data frame_id timestamp now :
  add_parsed_sentence self (of_GST data) frame_id timestamp now =
  on_GST self data.
Proof. unfold add_parsed_sentence. destruct (use_RMC self); reflexivity. Qed.

Lemma add_parsed_HDT self data frame_id timestamp now :
  add_parsed_sentence self (of_HDT data) frame_id timestamp now =
  on_HDT self (header_of frame_id timestamp now) data.
Proof. unfold add_parsed_sentence. destruct (use_RMC self); reflexivity. Qed.

(** The node of the GGA branch, attribute by attribute. *)
Lemma GGA_node_spec self data :
  let default_epe := (gps_qual self (GGA.fix_type data)).1.1 in
  valid_fix (GGA_node self data)
  = (quality_status (GGA.fix_type data) >? 0)%Z /\
  use_RMC (GGA_node self data) = use_RMC self /\
  using_receiver_epe (GGA_node self data) = using_receiver_epe self /\
  lon_std_dev (GGA_node self data) =
    resolve_std_dev (using_receiver_epe self) (lon_std_dev self) default_epe /\
  lat_std_dev (GGA_node self data) =
    resolve_std_dev (using_receiver_epe self) (lat_std_dev self) default_epe /\
  alt_std_dev (GGA_node self data) =
    resolve_std_dev (using_receiver_epe self) (alt_std_dev self)
      (default_epe * 2) /\
  last_valid_fix_time (GGA_node self data) = last_valid_fix_time self.
Proof.
  unfold GGA_node, resolve_std_dev.
  rewrite <- (gps_qual_status self).
  destruct (gps_qual self (GGA.fix_type data)) as [[default_epe status] cov].
  cbn [fst snd].
  destruct (status >? 0)%Z; std_dev_cases self; repeat split; reflexivity.
Qed.

(** The GGA branch in one statement: the node of lines 190-223, then the
    covariance, the fix and the time reference, each of which is reached
    only if what comes before it did not raise. *)
Lemma on_GGA_spec self hdr src data :
  on_GGA self hdr src data =
  match GGA_covariance self data with
  | inl e => (GGA_node self data, [], Raise e)
  | inr (c0, c4, c8) =>
      if is_nan (GGA.utc_time data) then
        (GGA_node self data, [fix_pub (GGA_fix self hdr data c0 c4 c8)],
         ReturnNone)
      else
        match Time_to_msg (GGA.utc_time data) with
        | inl e =>
            (GGA_node self data, [fix_pub (GGA_fix self hdr data c0 c4 c8)],
             Raise e)
        | inr t =>
            (set_last_valid_fix_time (GGA_node self data)
               (time_ref_of hdr src t),
             [fix_pub (GGA_fix self hdr data c0 c4 c8);
              time_ref_pub (time_ref_of hdr src t)], ReturnNone)
        end
  end.
Proof.
  assert (Hstep :
    on_GGA self hdr src data =
    match covariance_diagonal (GGA.hdop data)
            (lon_std_dev (GGA_node self data))
            (lat_std_dev (GGA_node self data))
            (alt_std_dev (GGA_node self data)) with
    | inl e => (GGA_node self data, [], Raise e)
    | inr (c0, c4, c8) =>
        if is_nan (GGA.utc_time data) then
          (GGA_node self data, [fix_pub (GGA_fix self hdr data c0 c4 c8)],
           ReturnNone)
        else
          match Time_to_msg (GGA.utc_time data) with
          | inl e =>
              (GGA_node self data, [fix_pub (GGA_fix self hdr data c0 c4 c8)],
               Raise e)
          | inr t =>
              (set_last_valid_fix_time (GGA_node self data)
                 (time_ref_of hdr src t),
               [fix_pub (GGA_fix self hdr data c0 c4 c8);
                time_ref_pub (time_ref_of hdr src t)], ReturnNone)
          end
    end).
  { unfold on_GGA, GGA_node, GGA_fix, covariance_diagonal, time_ref_of.
    destruct (gps_qual self (GGA.fix_type data)) as [[default_epe status] cov].
    cbv zeta. cbn [fst snd].
    repeat match goal with
           | |- context [match pow ?a ?b with _ => _ end] =>
               destruct (pow a b)
           end; try reflexivity.
    destruct (is_nan (GGA.utc_time data)); cbn [negb]; [reflexivity|].
    destruct (Time_to_msg (GGA.utc_time data)); reflexivity. }
  rewrite Hstep. unfold GGA_covariance.
  destruct (GGA_node_spec self data) as (_ & _ & _ & -> & -> & -> & _).
  reflexivity.
Qed.

(** What the GGA branch leaves in the node, also when it raises. *)
Lemma on_GGA_node self hdr src data :
  let self' := node_after (on_GGA self hdr src data) in
  let default_epe := (gps_qual self (GGA.fix_type data)).1.1 in
  valid_fix self' = (quality_status (GGA.fix_type data) >? 0)%Z /\
  use_RMC self' = use_RMC self /\
  using_receiver_epe self' = using_receiver_epe self /\
  lon_std_dev self' =
    resolve_std_dev (using_receiver_epe self) (lon_std_dev self) default_epe /\
  lat_std_dev self' =
    resolve_std_dev (using_receiver_epe self) (lat_std_dev self) default_epe /\
  alt_std_dev self' =
    resolve_std_dev (using_receiver_epe self) (alt_std_dev self)
      (default_epe * 2).
Proof.
  cbv zeta. rewrite on_GGA_spec.
  destruct (GGA_node_spec self data) as (H1 & H2 & H3 & H4 & H5 & H6 & _).
  destruct (GGA_covariance self data) as [e|[[c0 c4] c8]];
    [|destruct (is_nan (GGA.utc_time data));
      [|destruct (Time_to_msg (GGA.utc_time data))]];
    repeat split; assumption.
Qed.

(** The fix of the GGA branch is published exactly when the three powers
    return. *)
Lemma on_GGA_fix self hdr src data m :
  In (fix_pub m) (published (on_GGA self hdr src data)) <->
  exists c0 c4 c8,
    GGA_covariance self data = inr (c0, c4, c8) /\
    m = GGA_fix self hdr data c0 c4 c8.
Proof.
  rewrite on_GGA_spec.
  destruct (GGA_covariance self data) as [e|[[c0 c4] c8]].
  - split; [intros []|intros (? & ? & ? & ? & _); discriminate].
  - assert (Hin : In (fix_pub m) [fix_pub (GGA_fix self hdr data c0 c4 c8)] <->
                  exists c0' c4' c8',
                    @inr exn _ (c0, c4, c8) = inr (c0', c4', c8') /\
                    m = GGA_fix self hdr data c0' c4' c8').
    { split.
      - intros [Heq|[]]. injection Heq as <-. eauto.
      - intros (? & ? & ? & [= <- <- <-] & ->). left. reflexivity. }
    destruct (is_nan (GGA.utc_time data)); [exact Hin|].
    destruct (Time_to_msg (GGA.utc_time data)); [exact Hin|].
    rewrite <- Hin. unfold published. cbn [fst snd In].
    split; [intros [?|[?|[]]]; [auto|discriminate]|intros [?|[]]; auto].
Qed.

(** Its time reference is published exactly when, after them, the time is
    not NaN and its conversion returns. *)
Lemma on_GGA_time_ref self hdr src data m :
  In (time_ref_pub m) (published (on_GGA self hdr src data)) <->
  exists c t,
    GGA_covariance self data = inr c /\
    is_nan (GGA.utc_time data) = false /\
    Time_to_msg (GGA.utc_time data) = inr t /\
    m = time_ref_of hdr src t.
Proof.
  rewrite on_GGA_spec.
  destruct (GGA_covariance self data) as [e|[[c0 c4] c8]].
  - split; [intros []|intros (? & ? & ? & _); discriminate].
  - destruct (is_nan (GGA.utc_time data)).
    { split; [intros [?|[]]; discriminate
             |intros (? & ? & _ & ? & _); discriminate]. }
    destruct (Time_to_msg (GGA.utc_time data)) as [e|t].
    { split; [intros [?|[]]; discriminate
             |intros (? & ? & _ & _ & ? & _); discriminate]. }
    unfold published. cbn [fst snd In]. split.
    + intros [?|[Heq|[]]]; [discriminate|]. injection Heq as <-.
      exists (c0, c4, c8), t. auto.
    + intros (? & t' & _ & _ & [= <-] & ->). auto.
Qed.

Lemma add_parsed_GGA_published self data frame_id timestamp now m :
  In (fix_pub m)
     (published (add_parsed_sentence self (of_GGA data) frame_id timestamp now)) ->
  use_RMC self = false /\
  exists c0 c4 c8,
    GGA_covariance self data = inr (c0, c4, c8) /\
    m = GGA_fix self (header_of frame_id timestamp now) data c0 c4 c8.
Proof.
  rewrite add_parsed_GGA. destruct (use_RMC self); [intros []|].
  intros Hin. split; [reflexivity|]. apply on_GGA_fix in Hin. exact Hin.
Qed.

(** The RMC branch in one statement: the fix (lines 253-275), the time
    reference (lines 277-279), then the velocity. *)
Lemma on_RMC_spec self hdr src data :
  on_RMC self hdr src data =
  if use_RMC self then
    if is_nan (RMC.utc_time data) then
      RMC_velocity self hdr data [fix_pub (RMC_fix hdr data)]
    else
      match Time_to_msg (RMC.utc_time data) with
      | inl e => (self, [fix_pub (RMC_fix hdr data)], Raise e)
      | inr t =>
          RMC_velocity self hdr data
            [fix_pub (RMC_fix hdr data); time_ref_pub (time_ref_of hdr src t)]
      end
  else RMC_velocity self hdr data [].
Proof.
  unfold on_RMC, RMC_velocity, RMC_fix, time_ref_of.
  destruct (use_RMC self); [|reflexivity].
  destruct (is_nan (RMC.utc_time data)); cbn [negb]; [reflexivity|].
  destruct (Time_to_msg (RMC.utc_time data)); reflexivity.
Qed.

Lemma RMC_velocity_node self hdr data pub :
  node_after (RMC_velocity self hdr data pub) = self.
Proof.
  unfold RMC_velocity. destruct (RMC.fix_valid data); [|reflexivity].
  destruct (current_vel _ _ _); reflexivity.
Qed.

(** What [current_vel] gives. *)
Lemma current_vel_inr hdr speed course vel :
  current_vel hdr speed course = inr vel <->
  exists s c,
    sin course = inr s /\ cos course = inr c /\
    vel = {| TwistStamped.header := hdr;
             TwistStamped.linear_x := speed * s;
             TwistStamped.linear_y := speed * c |}.
Proof.
  unfold current_vel. destruct (sin course) as [e|s].
  { split; [discriminate|intros (? & ? & ? & _); discriminate]. }
  destruct (cos course) as [e|c].
  { split; [discriminate|intros (? & ? & _ & ? & _); discriminate]. }
  split.
  - intros [= <-]. eauto.
  - intros (? & ? & [= <-] & [= <-] & ->). reflexivity.
Qed.

(** The messages of [RMC_velocity]: the ones of the fix, then at most the
    velocity. *)
Lemma RMC_velocity_published self hdr data pub :
  published (RMC_velocity self hdr data pub) =
  pub ++ (if RMC.fix_valid data then
            match current_vel hdr (RMC.speed data) (RMC.true_course data) with
            | inl _ => []
            | inr vel => [vel_pub vel]
            end
          else []).
Proof.
  unfold RMC_velocity. destruct (RMC.fix_valid data);
    [destruct (current_vel _ _ _)|]; cbn [published fst snd];
    rewrite ?app_nil_r; reflexivity.
Qed.

Lemma on_RMC_node self hdr src data :
  node_after (on_RMC self hdr src data) = self.
Proof.
  rewrite on_RMC_spec.
  destruct (use_RMC self); [|apply RMC_velocity_node].
  destruct (is_nan (RMC.utc_time data)); [apply RMC_velocity_node|].
  destruct (Time_to_msg (RMC.utc_time data));
    [reflexivity|apply RMC_velocity_node].
Qed.

(** The fix of the RMC branch is published exactly under [use_RMC]. *)
Lemma on_RMC_fix self hdr src data m :
  In (fix_pub m) (published (on_RMC self hdr src data)) <->
  use_RMC self = true /\ m = RMC_fix hdr data.
Proof.
  rewrite on_RMC_spec.
  assert (Hvel : forall pub,
            In (fix_pub m) (published (RMC_velocity self hdr data pub)) <->
            In (fix_pub m) pub).
  { intros pub. rewrite RMC_velocity_published, in_app_iff.
    split; [|auto]. intros [?|Hin]; [assumption|].
    destruct (RMC.fix_valid data); [|destruct Hin].
    destruct (current_vel _ _ _); [destruct Hin|].
    destruct Hin as [?|[]]; discriminate. }
  destruct (use_RMC self).
  - assert (Hone : In (fix_pub m) [fix_pub (RMC_fix hdr data)] <->
                   true = true /\ m = RMC_fix hdr data).
    { split; [intros [Heq|[]]; injection Heq as <-; auto
             |intros [_ ->]; left; reflexivity]. }
    destruct (is_nan (RMC.utc_time data)); [rewrite Hvel; exact Hone|].
    destruct (Time_to_msg (RMC.utc_time data)); [exact Hone|].
    rewrite Hvel, <- Hone. cbn [In].
    split; [intros [?|[?|[]]]; [auto|discriminate]|intros [?|[]]; auto].
  - rewrite Hvel. split; [intros []|intros [? _]; discriminate].
Qed.


Lemma on_VTG_node self hdr data : node_after (on_VTG self hdr data) = self.
Proof.
  unfold on_VTG. destruct (valid_fix self); [|reflexivity].
  destruct (current_vel _ _ _); reflexivity.
Qed.

Lemma on_HDT_node self hdr data : node_after (on_HDT self hdr data) = self.
Proof.
  unfold on_HDT. destruct (HDT.heading data) as [h|]; [|reflexivity].
  destruct (float_truth h); [|reflexivity].
  destruct (euler2quat 0 0 (radians h)) as [[[q0 q1] q2] q3]. reflexivity.
Qed.


(** A heading that Python takes for true is published as the quaternion
    [euler2quat(0, 0, radians(heading))]. *)
Lemma hdt_heading_published self h frame_id timestamp now :
  float_truth h = true ->
  published (add_parsed_sentence self (of_HDT {| HDT.heading := Some h |})
               frame_id timestamp now) =
  let '(q0, q1, q2, q3) := euler2quat 0 0 (radians h) in
  [heading_pub {| QuaternionStamped.header := header_of frame_id timestamp now;
                  QuaternionStamped.x := q0;
                  QuaternionStamped.y := q1;
                  QuaternionStamped.z := q2;
                  QuaternionStamped.w := q3 |}].
Proof.
  intros Htrue. rewrite add_parsed_HDT. unfold on_HDT. cbn [HDT.heading].
  rewrite Htrue.
  destruct (euler2quat 0 0 (radians h)) as [[[q0 q1] q2] q3]. reflexivity.
Qed.

(** A sentence type that [parse_maps] knows and no branch handles:
    [add_sentence] returns [False] and does nothing else. *)
Lemma unhandled_type_ignored self frame_id timestamp now :
  add_parsed_sentence self no_entry frame_id timestamp now =
  (self, [], ReturnFalse).
Proof. unfold add_parsed_sentence. destruct (use_RMC self); reflexivity. Qed.

Lemma hdt_heading_absent self frame_id timestamp now :
  add_parsed_sentence self (of_HDT {| HDT.heading := None |})
    frame_id timestamp now = (self, [], ReturnNone).
Proof. rewrite add_parsed_HDT. reflexivity. Qed.

(** C4.  The heading 0.0 is present and nothing is published for it: the
    test [if data['heading']] of line 299 is false at zero. *)
Theorem hdt_heading_zero_publishes_nothing self frame_id timestamp now :
  add_parsed_sentence self (of_HDT {| HDT.heading := Some 0 |})
    frame_id timestamp now = (self, [], ReturnNone).
Proof. rewrite add_parsed_HDT. reflexivity. Qed.

(** C6.  The fix message of a GGA sentence has the covariance diagonal
    [(hdop * lon_std_dev)^2], [(hdop * lat_std_dev)^2],
    [(2 * hdop * alt_std_dev)^2] of the standard deviations the node holds
    after the sentence, which are the ones the policy resolves; the other
    six terms are zero; the covariance type is the table entry's. *)
Theorem gga_covariance self data frame_id timestamp now m :
  In (fix_pub m)
     (published (add_parsed_sentence self (of_GGA data) frame_id timestamp now)) ->
  let self' :=
    node_after (add_parsed_sentence self (of_GGA data) frame_id timestamp now) in
  let entry := gps_qual self (GGA.fix_type data) in
  let hdop := GGA.hdop data in
  (exists c0 c4 c8,
     pow (hdop * lon_std_dev self') 2 = inr c0 /\
     pow (hdop * lat_std_dev self') 2 = inr c4 /\
     pow (2 * hdop * alt_std_dev self') 2 = inr c8 /\
     NavSatFix.position_covariance m =
       [c0; 0; 0;
        0; c4; 0;
        0; 0; c8]) /\
  NavSatFix.position_covariance_type m = entry.2 /\
  lon_std_dev self' =
    resolve_std_dev (using_receiver_epe self) (lon_std_dev self) entry.1.1 /\
  lat_std_dev self' =
    resolve_std_dev (using_receiver_epe self) (lat_std_dev self) entry.1.1 /\
  alt_std_dev self' =
    resolve_std_dev (using_receiver_epe self) (alt_std_dev self)
      (entry.1.1 * 2).
Proof.
  intros Hin.
  apply add_parsed_GGA_published in Hin as (Hrmc & c0 & c4 & c8 & Hcov & ->).
  cbv zeta. rewrite add_parsed_GGA, Hrmc.
  destruct (on_GGA_node self (header_of frame_id timestamp now)
              (time_source_of self frame_id) data)
    as (_ & _ & _ & Hlon & Hlat & Halt).
  rewrite Hlon, Hlat, Halt.
  split; [|repeat split; reflexivity].
  exists c0, c4, c8. revert Hcov. unfold GGA_covariance, covariance_diagonal.
  destruct (pow _ _) as [e|c0']; [discriminate|].
  destruct (pow _ _) as [e|c4']; [discriminate|].
  destruct (pow _ _) as [e|c8']; [discriminate|].
  intros [= <- <- <-]. repeat split; reflexivity.
Qed.

(** C8.  In every fix message of a GGA or an RMC sentence the latitude is
    negated for the direction S and kept for N, the longitude negated for W
    and kept for E; for every magnitude, in particular the non-negative
    ones.  Such a fix is published: by a GGA sentence with GGA as the source
    of the fix once the three powers of its covariance return, by an RMC
    sentence with RMC as the source of the fix always. *)
Theorem hemisphere_sign self frame_id timestamp now :
  (forall data m,
     In (fix_pub m)
        (published
           (add_parsed_sentence self (of_GGA data) frame_id timestamp now)) ->
     (GGA.latitude_direction data = "S" ->
      NavSatFix.latitude m = - GGA.latitude data) /\
     (GGA.latitude_direction data = "N" ->
      NavSatFix.latitude m = GGA.latitude data) /\
     (GGA.longitude_direction data = "W" ->
      NavSatFix.longitude m = - GGA.longitude data) /\
     (GGA.longitude_direction data = "E" ->
      NavSatFix.longitude m = GGA.longitude data)) /\
  (forall data c,
     use_RMC self = false -> GGA_covariance self data = inr c ->
     exists m,
       In (fix_pub m)
          (published
             (add_parsed_sentence self (of_GGA data) frame_id timestamp now))) /\
  (forall data m,
     In (fix_pub m)
        (published
           (add_parsed_sentence self (of_RMC data) frame_id timestamp now)) ->
     (RMC.latitude_direction data = "S" ->
      NavSatFix.latitude m = - RMC.latitude data) /\
     (RMC.latitude_direction data = "N" ->
      NavSatFix.latitude m = RMC.latitude data) /\
     (RMC.longitude_direction data = "W" ->
      NavSatFix.longitude m = - RMC.longitude data) /\
     (RMC.longitude_direction data = "E" ->
      NavSatFix.longitude m = RMC.longitude data)) /\
  (forall data,
     use_RMC self = true ->
     exists m,
       In (fix_pub m)
          (published
             (add_parsed_sentence self (of_RMC data) frame_id timestamp now))).
Proof.
  split; [|split; [|split]].
  - intros data m Hin.
    apply add_parsed_GGA_published in Hin as (_ & c0 & c4 & c8 & _ & ->).
    unfold GGA_fix. cbn [NavSatFix.latitude NavSatFix.longitude].
    repeat split; intros ->; reflexivity.
  - intros data [[c0 c4] c8] Hrmc Hcov. eexists.
    rewrite add_parsed_GGA, Hrmc. apply on_GGA_fix. eauto.
  - intros data m Hin. rewrite add_parsed_RMC in Hin.
    apply on_RMC_fix in Hin as [_ ->].
    unfold RMC_fix. cbn [NavSatFix.latitude NavSatFix.longitude].
    repeat split; intros ->; reflexivity.
  - intros data Hrmc. eexists. rewrite add_parsed_RMC.
    apply on_RMC_fix. eauto.
Qed.

(** C10, as the code has it.  With GGA and VTG as the source of the fix
    ([use_RMC] false), a GGA sentence whose time is not NaN publishes its
    time reference and leaves it in [last_valid_fix_time], whatever its
    fix type (a sentence without a fix does so too), provided the three
    powers of the covariance and the conversion of the time return: the
    time reference comes after them. *)
Theorem gga_time_ref_despite_no_fix self data frame_id timestamp now c t :
  use_RMC self = false ->
  is_nan (GGA.utc_time data) = false ->
  GGA_covariance self data = inr c ->
  Time_to_msg (GGA.utc_time data) = inr t ->
  let r := add_parsed_sentence self (of_GGA data) frame_id timestamp now in
  let time_ref := time_ref_of (header_of frame_id timestamp now)
                    (time_source_of self frame_id) t in
  In (time_ref_pub time_ref) (published r) /\
  last_valid_fix_time (node_after r) = Some time_ref /\
  valid_fix (node_after r) = (quality_status (GGA.fix_type data) >? 0)%Z.
Proof.
  intros Hrmc Hutc Hcov Ht. cbv zeta. rewrite add_parsed_GGA, Hrmc.
  split; [apply on_GGA_time_ref; exists c, t; auto|].
  split; [|apply on_GGA_node].
  rewrite on_GGA_spec, Hcov, Hutc, Ht. destruct c as [[c0 c4] c8]. reflexivity.
Qed.

(** C1.  A GGA sentence of the fix type 1, handled with GGA and VTG as the
    source of the fix, has the status [STATUS_FIX] of the table, which is
    above [STATUS_NO_FIX], and leaves [valid_fix] false: line 197 compares
    the status with 0, the value of [STATUS_FIX], not with
    [STATUS_NO_FIX].  Its fix message, which is published once the three
    powers of the covariance return, has that status. *)
Theorem gga_fix_type_1_not_valid self data frame_id timestamp now :
  GGA.fix_type data = 1%Z ->
  use_RMC self = false ->
  let r := add_parsed_sentence self (of_GGA data) frame_id timestamp now in
  let status := (gps_qual self (GGA.fix_type data)).1.2 in
  (forall c0 c4 c8,
     GGA_covariance self data = inr (c0, c4, c8) ->
     In (fix_pub (GGA_fix self (header_of frame_id timestamp now) data
                    c0 c4 c8))
        (published r)) /\
  (forall m, In (fix_pub m) (published r) -> NavSatFix.status m = status) /\
  status = NavSatStatus.STATUS_FIX /\
  (status >? NavSatStatus.STATUS_NO_FIX)%Z = true /\
  valid_fix (node_after r) = false.
Proof.
  intros Hone Hrmc. cbv zeta. rewrite add_parsed_GGA, Hrmc.
  split; [intros c0 c4 c8 Hcov; apply on_GGA_fix; eauto|].
  split.
  { intros m Hin. apply on_GGA_fix in Hin as (c0 & c4 & c8 & _ & ->).
    reflexivity. }
  destruct (on_GGA_node self (header_of frame_id timestamp now)
              (time_source_of self frame_id) data) as (Hvalid & _).
  rewrite Hvalid, gps_qual_status, Hone. repeat split; reflexivity.
Qed.

End FixEngine.

(** ** Lines, and the loop over them *)

Section Lines.
Context `{ML : MathLib} `{GU : GpsUtils}.

Local Open Scope float_scope.

(** [add_sentence] on a line is [add_parsed_sentence] on its dictionary;
    a line without one changes nothing and publishes nothing. *)
Lemma add_sentence_parsed self line p frame_id timestamp now :
  sentence_of line = Some p ->
  add_sentence self line frame_id timestamp now =
  add_parsed_sentence self p frame_id timestamp now.
Proof.
  unfold sentence_of, add_sentence.
  destruct (check_nmea_checksum line); [|discriminate]. cbn [negb].
  destruct (parse_nmea_sentence line); try discriminate.
  intros [= ->]. reflexivity.
Qed.

Lemma add_sentence_dropped self line frame_id timestamp now :
  sentence_of line = None ->
  node_after (add_sentence self line frame_id timestamp now) = self /\
  published (add_sentence self line frame_id timestamp now) = [].
Proof.
  unfold sentence_of, add_sentence.
  destruct (check_nmea_checksum line); [|split; reflexivity]. cbn [negb].
  destruct (parse_nmea_sentence line); try discriminate; split; reflexivity.
Qed.

Lemma parse_nmea_sentence_cases line :
  parse_nmea_sentence line =
  if negb (re_match nmea_pattern line) then RegexMismatch
  else match parse_maps (sentence_type_of line) with
       | None => NotInParseMaps (sentence_type_of line)
       | Some parse_map =>
           match parse_map (map (strip ",") (split "," line)) with
           | inl e => ParseRaise e
           | inr parsed_sentence => Parsed parsed_sentence
           end
       end.
Proof. reflexivity. Qed.

(** The branch a dictionary takes, whatever its keys. *)
Lemma add_parsed_cases self p frame_id timestamp now :
  let r := add_parsed_sentence self p frame_id timestamp now in
  let hdr := header_of frame_id timestamp now in
  let src := time_source_of self frame_id in
  (exists data, use_RMC self = false /\ sGGA p = Some data /\
                r = on_GGA self hdr src data) \/
  (exists data, use_RMC self = false /\ sGGA p = None /\
                sVTG p = Some data /\ r = on_VTG self hdr data) \/
  (exists data, sRMC p = Some data /\ r = on_RMC self hdr src data) \/
  (exists data, sGST p = Some data /\ r = on_GST self data) \/
  (exists data, r = on_HDT self hdr data) \/
  r = (self, [], ReturnFalse).
Proof.
  cbv zeta. unfold add_parsed_sentence.
  fold (header_of frame_id timestamp now). fold (time_source_of self frame_id).
  destruct (use_RMC self) eqn:Hrmc.
  - destruct (sRMC p) as [d|]; [right; right; left; eauto|].
    destruct (sGST p) as [d|]; [right; right; right; left; eauto|].
    destruct (sHDT p) as [d|]; [right; right; right; right; left; eauto|].
    repeat right. reflexivity.
  - destruct (sGGA p) as [d|]; [left; eauto|].
    destruct (sVTG p) as [d|]; [right; left; eauto|].
    destruct (sRMC p) as [d|]; [right; right; left; eauto|].
    destruct (sGST p) as [d|]; [right; right; right; left; eauto|].
    destruct (sHDT p) as [d|]; [right; right; right; right; left; eauto|].
    repeat right. reflexivity.
Qed.

(** [use_RMC] is never assigned. *)
Lemma add_parsed_use_RMC self p frame_id timestamp now :
  use_RMC (node_after (add_parsed_sentence self p frame_id timestamp now)) =
  use_RMC self.
Proof.
  destruct (add_parsed_cases self p frame_id timestamp now)
    as [(d & _ & _ & ->)|[(d & _ & _ & _ & ->)|[(d & _ & ->)|[(d & _ & ->)
        |[(d & ->)| ->]]]]].
  - apply on_GGA_node.
  - rewrite on_VTG_node. reflexivity.
  - rewrite on_RMC_node. reflexivity.
  - reflexivity.
  - rewrite on_HDT_node. reflexivity.
  - reflexivity.
Qed.

(** [valid_fix] is assigned by the GGA branch alone. *)
Lemma add_parsed_valid_fix self p frame_id timestamp now :
  valid_fix (node_after (add_parsed_sentence self p frame_id timestamp now)) =
  match (if use_RMC self then None else sGGA p) with
  | Some data => (quality_status (GGA.fix_type data) >? 0)%Z
  | None => valid_fix self
  end.
Proof.
  destruct (add_parsed_cases self p frame_id timestamp now)
    as [(d & Hr & Hg & ->)|[(d & Hr & Hg & _ & ->)|[(d & Hd & Heq)|[(d & Hd & Heq)
        |[(d & Heq)| Heq]]]]].
  - rewrite Hr, Hg. apply on_GGA_node.
  - rewrite Hr, Hg, on_VTG_node. reflexivity.
  - revert Heq. unfold add_parsed_sentence.
    destruct (use_RMC self); [intros ->; rewrite on_RMC_node; reflexivity|].
    destruct (sGGA p) as [g|]; [|intros ->; rewrite on_RMC_node; reflexivity].
    intros _. apply on_GGA_node.
  - revert Heq. unfold add_parsed_sentence.
    destruct (use_RMC self); [intros ->; reflexivity|].
    destruct (sGGA p) as [g|]; [|intros ->; reflexivity].
    intros _. apply on_GGA_node.
  - revert Heq. unfold add_parsed_sentence.
    destruct (use_RMC self); [intros ->; rewrite on_HDT_node; reflexivity|].
    destruct (sGGA p) as [g|]; [|intros ->; rewrite on_HDT_node; reflexivity].
    intros _. apply on_GGA_node.
  - revert Heq. unfold add_parsed_sentence.
    destruct (use_RMC self); [intros ->; reflexivity|].
    destruct (sGGA p) as [g|]; [|intros ->; reflexivity].
    intros _. apply on_GGA_node.
Qed.

(** What a VTG sentence publishes. *)
Lemma add_parsed_VTG_published self data frame_id timestamp now :
  published (add_parsed_sentence self (of_VTG data) frame_id timestamp now) =
  if negb (use_RMC self) && valid_fix self
  then match current_vel (header_of frame_id timestamp now)
               (VTG.speed data) (VTG.true_course data) with
       | inl _ => []
       | inr vel => [vel_pub vel]
       end
  else [].
Proof.
  rewrite add_parsed_VTG. unfold on_VTG.
  destruct (use_RMC self), (valid_fix self); try reflexivity.
  cbn [negb andb]. destruct (current_vel _ _ _); reflexivity.
Qed.

(** The loop keeps what every line keeps, and each entry of its trace is
    what [add_sentence] published for a line of the input, from a node for
    which that holds. *)
Lemma connect_serial_keeps (P : GPSNode -> Prop) frame_id input :
  (forall self line now,
     In (line, now) input -> P self ->
     P (node_after (add_sentence self line frame_id None now))) ->
  forall self,
    P self ->
    P (connect_serial self frame_id input).1 /\
    forall line out,
      In (line, out) (connect_serial self frame_id input).2 ->
      exists self0 now,
        P self0 /\ In (line, now) input /\
        out = published (add_sentence self0 line frame_id None now).
Proof.
  induction input as [|[data now] rest IH]; intros Hstep self HP.
  - split; [exact HP|]. intros line out [].
  - cbn [connect_serial].
    assert (HP' : P (node_after (add_sentence self data frame_id None now)))
      by (apply Hstep; [left; reflexivity|exact HP]).
    assert (Hhere : forall line out,
              (line, out) = (data, published (add_sentence self data frame_id None now)) ->
              exists self0 now0,
                P self0 /\ In (line, now0) ((data, now) :: rest) /\
                out = published (add_sentence self0 line frame_id None now0)).
    { intros line out [= -> ->]. exists self, now.
      split; [exact HP|]. split; [left; reflexivity|reflexivity]. }
    destruct (add_sentence self data frame_id None now) as [[self' pub] res]
      eqn:Hadd.
    unfold node_after, published in HP', Hhere. cbn [fst snd] in HP', Hhere.
    assert (Hrest :
      let '(self'', trace) := connect_serial self' frame_id rest in
      P self'' /\
      forall line out,
        In (line, out) ((data, pub) :: trace) ->
        exists self0 now0,
          P self0 /\ In (line, now0) ((data, now) :: rest) /\
          out = published (add_sentence self0 line frame_id None now0)).
    { destruct (IH (fun s l n Hin => Hstep s l n (or_intror Hin)) self' HP')
        as [HP'' Htr].
      destruct (connect_serial self' frame_id rest) as [self'' trace].
      split; [exact HP''|].
      intros line out [Heq|Hin]; [apply Hhere; symmetry; exact Heq|].
      destruct (Htr line out Hin) as (s0 & n0 & Hs0 & Hin0 & Hout).
      exists s0, n0. split; [exact Hs0|]. split; [right; exact Hin0|exact Hout]. }
    destruct res as [| |[msg|msg]];
      try (destruct (connect_serial self' frame_id rest) as [self'' trace];
           exact Hrest).
    cbn [fst snd]. split; [exact HP'|].
    intros line out [Heq|[]]. apply Hhere. symmetry. exact Heq.
Qed.

(** *** The error estimates of the receiver *)

Lemma resolve_std_dev_kept std_dev default :
  is_nan std_dev = false -> resolve_std_dev true std_dev default = std_dev.
Proof. unfold resolve_std_dev. intros ->. reflexivity. Qed.

Lemma add_parsed_keeps_receiver_epe lon lat alt self p frame_id timestamp now :
  is_nan lon = false -> is_nan lat = false -> is_nan alt = false ->
  sGST p = None ->
  holds_receiver_epe lon lat alt self ->
  holds_receiver_epe lon lat alt
    (node_after (add_parsed_sentence self p frame_id timestamp now)).
Proof.
  intros Hlon Hlat Halt Hgst (Hu & H1 & H2 & H3).
  destruct (add_parsed_cases self p frame_id timestamp now)
    as [(d & _ & _ & ->)|[(d & _ & _ & _ & ->)|[(d & _ & ->)|[(d & Hd & _)
        |[(d & ->)| ->]]]]].
  - destruct (on_GGA_node self (header_of frame_id timestamp now)
                (time_source_of self frame_id) d)
      as (_ & _ & Hu' & H1' & H2' & H3').
    unfold holds_receiver_epe.
    rewrite Hu', H1', H2', H3', Hu, H1, H2, H3.
    rewrite !resolve_std_dev_kept by assumption. repeat split; reflexivity.
  - rewrite on_VTG_node. repeat split; assumption.
  - rewrite on_RMC_node. repeat split; assumption.
  - congruence.
  - rewrite on_HDT_node. repeat split; assumption.
  - repeat split; assumption.
Qed.

Lemma add_sentence_keeps_receiver_epe lon lat alt self line frame_id timestamp now :
  is_nan lon = false -> is_nan lat = false -> is_nan alt = false ->
  (forall p, sentence_of line = Some p -> sGST p = None) ->
  holds_receiver_epe lon lat alt self ->
  holds_receiver_epe lon lat alt
    (node_after (add_sentence self line frame_id timestamp now)).
Proof.
  intros Hlon Hlat Halt Hgst Hself.
  destruct (sentence_of line) as [p|] eqn:Hp.
  - rewrite (add_sentence_parsed _ _ p) by exact Hp.
    apply add_parsed_keeps_receiver_epe; auto.
  - destruct (add_sentence_dropped self line frame_id timestamp now Hp) as [-> _].
    exact Hself.
Qed.


(** *** VTG and the validity of the fix *)

Lemma add_sentence_keeps_vtg_silent self line frame_id timestamp now :
  restores_no_fix line ->
  vtg_silent self ->
  vtg_silent (node_after (add_sentence self line frame_id timestamp now)).
Proof.
  intros Hline Hself. unfold vtg_silent.
  destruct (sentence_of line) as [p|] eqn:Hp.
  - rewrite (add_sentence_parsed _ _ p) by exact Hp.
    rewrite add_parsed_use_RMC, add_parsed_valid_fix.
    destruct (use_RMC self) eqn:Hrmc; [left; reflexivity|].
    right. destruct (sGGA p) as [data|] eqn:Hdata.
    + exact (Hline p data Hp Hdata).
    + destruct Hself as [Hself|Hself]; [congruence|exact Hself].
  - destruct (add_sentence_dropped self line frame_id timestamp now Hp) as [-> _].
    exact Hself.
Qed.

Lemma vtg_silent_published self line data frame_id timestamp now :
  sentence_of line = Some (of_VTG data) ->
  vtg_silent self ->
  published (add_sentence self line frame_id timestamp now) = [].
Proof.
  intros Hline Hself.
  rewrite (add_sentence_parsed _ _ _ _ _ _ Hline), add_parsed_VTG_published.
  destruct Hself as [-> | ->]; [reflexivity|].
  rewrite andb_false_r. reflexivity.
Qed.

(** C7.  A VTG sentence publishes a velocity only when [valid_fix] is true
    (and GGA and VTG are the source of the fix).  After a GGA sentence with
    the fix type 0, no VTG sentence publishes a velocity as long as no
    line restores a valid fix. *)
Theorem vtg_velocity_needs_valid_fix :
  (forall self line data frame_id timestamp now m,
     sentence_of line = Some (of_VTG data) ->
     In (vel_pub m) (published (add_sentence self line frame_id timestamp now)) ->
     valid_fix self = true /\ use_RMC self = false) /\
  (forall self frame_id gga_line t0 gga rest,
     sentence_of gga_line = Some (of_GGA gga) ->
     GGA.fix_type gga = 0%Z ->
     (forall line t, In (line, t) rest -> restores_no_fix line) ->
     forall line out data m,
       In (line, out)
          (connect_serial self frame_id ((gga_line, t0) :: rest)).2 ->
       sentence_of line = Some (of_VTG data) ->
       ~ In (vel_pub m) out).
Proof.
  split.
  - intros self line data frame_id timestamp now m Hline.
    rewrite (add_sentence_parsed _ _ _ _ _ _ Hline), add_parsed_VTG_published.
    destruct (use_RMC self), (valid_fix self); cbn [negb andb];
      intros Hin; try (destruct Hin; fail). split; reflexivity.
  - intros self frame_id gga_line t0 gga rest Hgga Hzero Hrest line out data m
      Hin Hline Hvel.
    cbn [connect_serial] in Hin.
    pose proof (add_sentence_parsed self gga_line _ frame_id None t0 Hgga) as Hadd.
    assert (Hsilent :
      vtg_silent (node_after (add_sentence self gga_line frame_id None t0))).
    { rewrite Hadd. unfold vtg_silent.
      rewrite add_parsed_use_RMC, add_parsed_valid_fix.
      destruct (use_RMC self); [left; reflexivity|].
      right. cbn [of_GGA sGGA]. rewrite Hzero. reflexivity. }
    destruct (add_sentence self gga_line frame_id None t0) as [[self1 pub] res].
    unfold node_after in Hsilent. cbn [fst snd] in Hsilent.
    assert (Hfirst : (line, out) <> (gga_line, pub)).
    { intros [= -> _]. rewrite Hgga in Hline. discriminate. }
    destruct (connect_serial_keeps vtg_silent frame_id rest) with (self := self1)
      as [_ Htrace].
    + intros s l n Hl Hs. apply add_sentence_keeps_vtg_silent; eauto.
    + exact Hsilent.
    + destruct (connect_serial self1 frame_id rest) as [self2 trace].
      assert (Hin' : In (line, out) trace).
      { destruct res as [| |[msg|msg]]; cbn [snd] in Hin;
          destruct Hin as [Heq|Hin]; try (symmetry in Heq; contradiction);
          try exact Hin. destruct Hin. }
      destruct (Htrace line out Hin') as (s0 & n0 & Hs0 & _ & ->).
      rewrite (vtg_silent_published _ _ _ _ _ _ Hline Hs0) in Hvel.
      destruct Hvel.
Qed.

End Lines.

(** ** The pattern of [parse_nmea_sentence] *)

Section Regex.

(** *** The derivative matcher decides [Matches] *)

Lemma nullable_Matches r : nullable r = true <-> Matches r [].
Proof.
  split.
  - induction r as [| |p|r1 IH1 r2 IH2|r1 IH1 r2 IH2|r IH]; cbn [nullable];
      intros Hn; try discriminate.
    + constructor.
    + apply andb_true_iff in Hn as [H1 H2].
      change (@nil ascii) with (@nil ascii ++ []).
      constructor; auto.
    + apply orb_true_iff in Hn as [H1|H2];
        [apply MAltL|apply MAltR]; auto.
    + constructor.
  - intros Hm. remember [] as s eqn:Hs.
    induction Hm as [|p c Hp|r1 r2 s1 s2 H1 IH1 H2 IH2|r1 r2 s H IH
                     |r1 r2 s H IH|r|r s1 s2 H1 IH1 H2 IH2];
      cbn [nullable]; try reflexivity; try discriminate.
    + apply app_eq_nil in Hs as [-> ->].
      rewrite IH1, IH2; reflexivity.
    + rewrite IH; auto.
    + rewrite IH; auto. apply orb_true_r.
Qed.

Lemma deriv_sound c r : forall s, Matches (deriv c r) s -> Matches r (c :: s).
Proof.
  induction r as [| |p|r1 IH1 r2 IH2|r1 IH1 r2 IH2|r IH]; cbn [deriv];
    intros s Hm.
  - inversion Hm.
  - inversion Hm.
  - destruct (p c) eqn:Hp; inversion Hm; subst. constructor. exact Hp.
  - destruct (nullable r1) eqn:Hn.
    + inversion Hm as [| | | ? ? ? Hcat | ? ? ? Hr2 | |]; subst.
      * inversion Hcat as [| |? ? s1 s2 H1 H2| | | |]; subst.
        change (c :: s1 ++ s2) with ((c :: s1) ++ s2).
        constructor; auto.
      * change (c :: s) with ([] ++ c :: s).
        constructor; [apply nullable_Matches; exact Hn|auto].
    + inversion Hm as [| |? ? s1 s2 H1 H2| | | |]; subst.
      change (c :: s1 ++ s2) with ((c :: s1) ++ s2).
      constructor; auto.
  - inversion Hm; subst; [apply MAltL|apply MAltR]; auto.
  - inversion Hm as [| |? ? s1 s2 H1 H2| | | |]; subst.
    change (c :: s1 ++ s2) with ((c :: s1) ++ s2).
    constructor; auto.
Qed.

Lemma deriv_complete c r s : Matches r (c :: s) -> Matches (deriv c r) s.
Proof.
  intros Hm. remember (c :: s) as cs eqn:Hcs. revert s Hcs.
  induction Hm as [|p c' Hp|r1 r2 s1 s2 H1 IH1 H2 IH2|r1 r2 s' H IH
                   |r1 r2 s' H IH|r|r s1 s2 H1 IH1 H2 IH2];
    intros s Hcs; cbn [deriv].
  - discriminate.
  - injection Hcs as -> <-. rewrite Hp. constructor.
  - destruct s1 as [|a s1'].
    + cbn [app] in Hcs. subst s2.
      apply nullable_Matches in H1. rewrite H1.
      apply MAltR. apply IH2. reflexivity.
    + cbn [app] in Hcs. injection Hcs as -> <-.
      assert (Hcat : Matches (Cat (deriv c r1) r2) (s1' ++ s2))
        by (constructor; [apply IH1; reflexivity|exact H2]).
      destruct (nullable r1); [apply MAltL|]; exact Hcat.
  - apply MAltL. auto.
  - apply MAltR. auto.
  - discriminate.
  - destruct s1 as [|a s1'].
    + cbn [app] in Hcs. apply (IH2 s Hcs).
    + cbn [app] in Hcs. injection Hcs as -> <-.
      constructor; [apply IH1; reflexivity|exact H2].
Qed.

Lemma accepts_Matches r s : accepts r s = true <-> Matches r s.
Proof.
  revert r. induction s as [|c s IH]; intros r; cbn [accepts].
  - apply nullable_Matches.
  - rewrite IH. split; [apply deriv_sound|apply deriv_complete].
Qed.

(** *** Inversions *)

Lemma Matches_Cat r1 r2 s :
  Matches (Cat r1 r2) s <->
  exists s1 s2, s = s1 ++ s2 /\ Matches r1 s1 /\ Matches r2 s2.
Proof.
  split.
  - intros Hm. inversion Hm; subst. eauto.
  - intros (s1 & s2 & -> & H1 & H2). constructor; assumption.
Qed.

Lemma Matches_Alt r1 r2 s :
  Matches (Alt r1 r2) s <-> Matches r1 s \/ Matches r2 s.
Proof.
  split.
  - intros Hm. inversion Hm; subst; auto.
  - intros [H|H]; [apply MAltL|apply MAltR]; exact H.
Qed.

Lemma Matches_Sym p s :
  Matches (Sym p) s <-> exists c, s = [c] /\ p c = true.
Proof.
  split.
  - intros Hm. inversion Hm; subst. eauto.
  - intros (c & -> & Hp). constructor. exact Hp.
Qed.

Lemma Matches_Eps s : Matches Eps s <-> s = [].
Proof.
  split.
  - intros Hm. inversion Hm. reflexivity.
  - intros ->. constructor.
Qed.

Lemma Matches_chr c s : Matches (chr c) s <-> s = [c].
Proof.
  unfold chr. rewrite Matches_Sym. split.
  - intros (c' & -> & Heq). apply Ascii.eqb_eq in Heq. subst. reflexivity.
  - intros ->. exists c. split; [reflexivity|apply Ascii.eqb_refl].
Qed.

Lemma Matches_lit str s :
  Matches (lit str) s <-> s = list_ascii_of_string str.
Proof.
  revert s. induction str as [|c str IH]; intros s;
    cbn [lit list_ascii_of_string].
  - apply Matches_Eps.
  - rewrite Matches_Cat. split.
    + intros (s1 & s2 & -> & H1 & H2). apply Matches_chr in H1.
      apply IH in H2. subst. reflexivity.
    + intros ->. exists [c], (list_ascii_of_string str).
      split; [reflexivity|]. split; [apply Matches_chr|apply IH]; reflexivity.
Qed.

Lemma Matches_dollar s : Matches dollar s <-> s = [] \/ s = [newline].
Proof.
  unfold dollar. rewrite Matches_Alt, Matches_Eps, Matches_chr. reflexivity.
Qed.

(** A repeated class matches the strings made of its characters. *)
Lemma Matches_Star_Sym p s :
  Matches (Star (Sym p)) s <-> Forall (fun c => p c = true) s.
Proof.
  split.
  - intros Hm. remember (Star (Sym p)) as r eqn:Hr.
    induction Hm as [|p' c Hp|r1 r2 s1 s2 H1 IH1 H2 IH2|r1 r2 s' H IH
                     |r1 r2 s' H IH|r'|r' s1 s2 H1 IH1 H2 IH2];
      try discriminate.
    + constructor.
    + injection Hr as ->. apply Matches_Sym in H1 as (c & -> & Hp).
      constructor; [exact Hp|]. apply IH2. reflexivity.
  - induction 1 as [|c s Hc Hs IH].
    + constructor.
    + change (c :: s) with ([c] ++ s).
      constructor; [constructor; exact Hc|exact IH].
Qed.

(** *** What the two patterns match *)

(** The lines the pattern of line 134 matches: [$], a talker, anything
    without a newline, [*], two hexadecimal digits, and at most a newline
    after them. *)
Lemma nmea_pattern_shape s :
  Matches nmea_pattern s <->
  exists talker mid h1 h2 tail,
    s = "$"%char :: talker ++ mid ++ "*"%char :: h1 :: h2 :: tail /\
    In talker talkers /\ no_newline mid /\
    is_hex h1 = true /\ is_hex h2 = true /\
    (tail = [] \/ tail = [newline]).
Proof.
  unfold nmea_pattern. split.
  - intros Hm.
    apply Matches_Cat in Hm as (pre & s1 & -> & Hpre & Hm).
    apply Matches_Cat in Hm as (mid & s2 & -> & Hmid & Hm).
    apply Matches_Cat in Hm as (star & s3 & -> & Hstar & Hm).
    apply Matches_Cat in Hm as (d1 & s4 & -> & Hd1 & Hm).
    apply Matches_Cat in Hm as (d2 & tail & -> & Hd2 & Htail).
    apply Matches_chr in Hstar as ->.
    apply Matches_Sym in Hd1 as (h1 & -> & Hh1).
    apply Matches_Sym in Hd2 as (h2 & -> & Hh2).
    apply Matches_Star_Sym in Hmid. apply Matches_dollar in Htail.
    assert (Htalker : exists talker, pre = "$"%char :: talker /\ In talker talkers).
    { unfold talkers. cbn [map list_ascii_of_string].
      repeat (apply Matches_Alt in Hpre as [Hpre|Hpre]);
        apply Matches_lit in Hpre; subst pre; cbn [list_ascii_of_string];
        eexists; (split; [reflexivity|]); cbn [In]; auto 6. }
    destruct Htalker as (talker & -> & Htalker).
    exists talker, mid, h1, h2, tail. repeat split; auto.
  - intros (talker & mid & h1 & h2 & tail & -> & Htalker & Hmid & Hh1 & Hh2 & Htail).
    change ("$"%char :: talker ++ mid ++ "*"%char :: h1 :: h2 :: tail)
      with (("$"%char :: talker) ++ mid ++ ["*"%char] ++ [h1] ++ [h2] ++ tail).
    repeat (apply MCat).
    + unfold talkers in Htalker. cbn [map list_ascii_of_string In] in Htalker.
      destruct Htalker as [<-|[<-|[<-|[<-|[]]]]].
      * apply MAltL. apply Matches_lit. reflexivity.
      * apply MAltR, MAltL. apply Matches_lit. reflexivity.
      * apply MAltR, MAltR, MAltL. apply Matches_lit. reflexivity.
      * apply MAltR, MAltR, MAltR. apply Matches_lit. reflexivity.
    + apply Matches_Star_Sym. exact Hmid.
    + apply Matches_chr. reflexivity.
    + constructor. exact Hh1.
    + constructor. exact Hh2.
    + apply Matches_dollar. exact Htail.
Qed.

(** The fields of the structural grammar are part of a line. *)
Lemma structural_grammar_shape s :
  Matches structural_grammar s ->
  exists talker mid h1 h2 tail,
    s = "$"%char :: talker ++ mid ++ "*"%char :: h1 :: h2 :: tail /\
    In talker talkers /\
    is_hex h1 = true /\ is_hex h2 = true /\
    (tail = [] \/ tail = [newline]).
Proof.
  unfold structural_grammar. intros Hm.
  apply Matches_Cat in Hm as (dol & s0 & -> & Hdol & Hm).
  apply Matches_Cat in Hm as (talker & s1 & -> & Htalker & Hm).
  apply Matches_Cat in Hm as (word & s2 & -> & _ & Hm).
  apply Matches_Cat in Hm as (fields & s3 & -> & _ & Hm).
  apply Matches_Cat in Hm as (star & s4 & -> & Hstar & Hm).
  apply Matches_Cat in Hm as (d1 & s5 & -> & Hd1 & Hm).
  apply Matches_Cat in Hm as (d2 & tail & -> & Hd2 & Htail).
  apply Matches_chr in Hdol as ->. apply Matches_chr in Hstar as ->.
  apply Matches_Sym in Hd1 as (h1 & -> & Hh1).
  apply Matches_Sym in Hd2 as (h2 & -> & Hh2).
  apply Matches_dollar in Htail.
  exists talker, (word ++ fields), h1, h2, tail.
  split; [cbn [app]; rewrite <- !app_assoc; reflexivity|].
  split; [|auto].
  unfold talkers. cbn [map list_ascii_of_string].
  repeat (apply Matches_Alt in Htalker as [Htalker|Htalker]);
    apply Matches_lit in Htalker; subst talker; cbn [list_ascii_of_string In];
    auto 6.
Qed.

(** A line without a newline that the structural grammar matches is matched
    by the pattern of line 134. *)
Lemma structural_grammar_in_nmea_pattern s :
  no_newline s -> Matches structural_grammar s -> Matches nmea_pattern s.
Proof.
  intros Hnl Hm.
  apply structural_grammar_shape in Hm
    as (talker & mid & h1 & h2 & tail & -> & Htalker & Hh1 & Hh2 & Htail).
  apply nmea_pattern_shape. exists talker, mid, h1, h2, tail.
  repeat split; auto.
  unfold no_newline in *. apply Forall_cons_iff in Hnl as [_ Hnl].
  apply Forall_app in Hnl as [_ Hnl]. apply Forall_app in Hnl as [Hnl _].
  exact Hnl.
Qed.

End Regex.

Section ParserPattern.
Context `{ML : MathLib} `{GU : GpsUtils}.

(** C5, as the code has it.  [parse_nmea_sentence] gives its first [False]
    exactly for the lines that the pattern of line 134 does not match, a
    pattern looser than the structural grammar: every line without a
    newline that matches the structural grammar matches it, and goes on to
    the splitting of the fields. *)
Theorem regex_mismatch_iff_nmea_pattern line :
  (parse_nmea_sentence line = RegexMismatch <->
   re_match nmea_pattern line = false) /\
  (no_newline (list_ascii_of_string line) ->
   re_match structural_grammar line = true ->
   re_match nmea_pattern line = true /\
   parse_nmea_sentence line <> RegexMismatch).
Proof.
  assert (Hiff : parse_nmea_sentence line = RegexMismatch <->
                 re_match nmea_pattern line = false).
  { rewrite parse_nmea_sentence_cases.
    destruct (re_match nmea_pattern line); cbn [negb].
    - split; [|discriminate].
      destruct (parse_maps (sentence_type_of line)) as [parse_map|];
        [|discriminate].
      destruct (parse_map _); discriminate.
    - split; reflexivity. }
  split; [exact Hiff|].
  intros Hnl Hgrammar.
  assert (Hre : re_match nmea_pattern line = true).
  { unfold re_match in *. apply accepts_Matches.
    apply structural_grammar_in_nmea_pattern; [exact Hnl|].
    apply accepts_Matches. exact Hgrammar. }
  split; [exact Hre|].
  intros Hmis. apply Hiff in Hmis. congruence.
Qed.

End ParserPattern.

(** ** The fields of a line *)

Section Fields.

Lemma split_not_nil sep s : split sep s <> [].
Proof.
  destruct s as [|c s]; cbn [split]; [discriminate|].
  destruct (Ascii.eqb c sep); [discriminate|].
  destruct (split sep s); discriminate.
Qed.

(** No field holds the separator. *)
Lemma split_fields sep s :
  Forall (fun field => ~ In sep (list_ascii_of_string field)) (split sep s).
Proof.
  induction s as [|c s IH]; cbn [split].
  - constructor; [intros []|constructor].
  - destruct (Ascii.eqb c sep) eqn:Hc.
    + constructor; [intros []|exact IH].
    + destruct (split sep s) as [|field fields]; [constructor; [|constructor]|].
      * cbn. intros [->|[]]. rewrite Ascii.eqb_refl in Hc. discriminate.
      * apply Forall_cons_iff in IH as [Hfield Hfields].
        constructor; [|exact Hfields].
        cbn. intros [->|Hin]; [|auto].
        rewrite Ascii.eqb_refl in Hc. discriminate.
Qed.

Lemma lstrip_without c s :
  ~ In c (list_ascii_of_string s) -> lstrip c s = s.
Proof.
  destruct s as [|a s]; [reflexivity|]. cbn. intros Hin.
  destruct (Ascii.eqb a c) eqn:Ha; [|reflexivity].
  apply Ascii.eqb_eq in Ha. subst. exfalso. auto.
Qed.

Lemma strip_without c s :
  ~ In c (list_ascii_of_string s) -> strip c s = s.
Proof.
  intros Hin. unfold strip, rstrip. rewrite (lstrip_without c s Hin).
  rewrite lstrip_without.
  - rewrite list_ascii_of_string_of_list_ascii, rev_involutive.
    apply string_of_list_ascii_of_string.
  - rewrite list_ascii_of_string_of_list_ascii. intros H.
    apply Hin. apply in_rev. exact H.
Qed.

Lemma strip_split sep s : map (strip sep) (split sep s) = split sep s.
Proof.
  pose proof (split_fields sep s) as H.
  induction H as [|field fields Hfield _ IH]; [reflexivity|].
  cbn [map]. rewrite IH, strip_without by exact Hfield. reflexivity.
Qed.

(** X15.  The [strip(',')] of line 138 changes no field: the fields that
    [parse_nmea_sentence] decodes are the ones of the split, none of which
    holds a comma. *)
Theorem strip_changes_no_field (s : string) :
  map (strip ",") (split "," s) = split "," s /\
  Forall (fun field => ~ In ","%char (list_ascii_of_string field))
    (split "," s).
Proof. split; [apply strip_split|apply split_fields]. Qed.

Lemma join_cons sep field fields :
  fields <> [] ->
  join sep (field :: fields) = (field ++ String sep (join sep fields))%string.
Proof. destruct fields; [congruence|reflexivity]. Qed.

(** X16.  The split loses nothing: the fields, joined with commas, are the
    line, and there is one field more than the line has commas. *)
Theorem join_split (s : string) :
  join "," (split "," s) = s /\
  length (split "," s)
  = S (count_occ ascii_dec (list_ascii_of_string s) ","%char).
Proof.
  induction s as [|c s [IHj IHl]]; [split; reflexivity|].
  cbn [split list_ascii_of_string count_occ].
  destruct (Ascii.eqb c ",") eqn:Hc.
  - apply Ascii.eqb_eq in Hc. subst c.
    rewrite join_cons by apply split_not_nil.
    rewrite IHj. cbn [length]. rewrite IHl.
    destruct (ascii_dec "," ","); [split; reflexivity|congruence].
  - destruct (ascii_dec c ",") as [->|_];
      [rewrite Ascii.eqb_refl in Hc; discriminate|].
    pose proof (split_not_nil "," s) as Hnil.
    destruct (split "," s) as [|field fields]; [congruence|].
    cbn [length] in *. split; [|exact IHl].
    rewrite <- IHj. destruct fields; reflexivity.
Qed.


Lemma nth_0_split sep s :
  list_ascii_of_string (nth 0 (split sep s) EmptyString)
  = before sep (list_ascii_of_string s).
Proof.
  induction s as [|c s IH]; [reflexivity|].
  cbn [split list_ascii_of_string before].
  destruct (Ascii.eqb c sep); [reflexivity|].
  pose proof (split_not_nil sep s) as Hnil.
  destruct (split sep s) as [|field fields]; [congruence|].
  cbn [nth list_ascii_of_string] in *. rewrite IH. reflexivity.
Qed.

Lemma slice_from_drop n s :
  list_ascii_of_string (slice_from n s) = drop n (list_ascii_of_string s).
Proof.
  revert s. induction n as [|n IH]; intros s; [reflexivity|].
  destruct s as [|c s]; [reflexivity|]. cbn [slice_from]. apply IH.
Qed.

Lemma sentence_type_of_before line :
  list_ascii_of_string (sentence_type_of line)
  = drop 3 (before "," (list_ascii_of_string line)).
Proof.
  unfold sentence_type_of.
  rewrite strip_split, slice_from_drop, nth_0_split.
  reflexivity.
Qed.

End Fields.

(** ** The sentence type, and the talkers *)

Section SentenceType.
Context `{ML : MathLib} `{GU : GpsUtils}.

Lemma re_match_shape line :
  re_match nmea_pattern line = true <->
  exists talker mid h1 h2 tail,
    list_ascii_of_string line
    = "$"%char :: talker ++ mid ++ "*"%char :: h1 :: h2 :: tail /\
    In talker talkers /\ no_newline mid /\
    is_hex h1 = true /\ is_hex h2 = true /\
    (tail = [] \/ tail = [newline]).
Proof.
  unfold re_match. rewrite accepts_Matches. apply nmea_pattern_shape.
Qed.

(** X17.  For a line that the pattern of line 134 matches, the sentence
    type that is looked up in [parse_maps] is what stands between the
    two-letter talker and the first comma, and all that follows the talker
    when the line has no comma; the talker is no part of it. *)
Theorem sentence_type_of_matched_line line :
  re_match nmea_pattern line = true ->
  exists talker rest,
    In talker talkers /\
    list_ascii_of_string line = "$"%char :: talker ++ rest /\
    list_ascii_of_string (sentence_type_of line) = before "," rest.
Proof.
  intros Hre. apply re_match_shape in Hre
    as (talker & mid & h1 & h2 & tail & Hline & Htalker & _).
  exists talker, (mid ++ "*"%char :: h1 :: h2 :: tail).
  split; [exact Htalker|]. split; [exact Hline|].
  rewrite sentence_type_of_before, Hline.
  unfold talkers in Htalker. cbn [map list_ascii_of_string In] in Htalker.
  destruct Htalker as [<-|[<-|[<-|[<-|[]]]]]; reflexivity.
Qed.

(** X18.  A line of any other talker than GP, GN, GL and IN (a Galileo or
    a BeiDou sentence, say) is dropped: [add_sentence] returns [False],
    publishes nothing and assigns nothing, whatever the rest of the line
    is. *)
Theorem other_talkers_are_dropped self line frame_id timestamp now :
  (forall talker rest,
     In talker talkers ->
     list_ascii_of_string line <> "$"%char :: talker ++ rest) ->
  add_sentence self line frame_id timestamp now = (self, [], ReturnFalse).
Proof.
  intros Hother. unfold add_sentence.
  destruct (check_nmea_checksum line); [|reflexivity]. cbn [negb].
  rewrite parse_nmea_sentence_cases.
  destruct (re_match nmea_pattern line) eqn:Hre; [|reflexivity].
  apply re_match_shape in Hre
    as (talker & mid & h1 & h2 & tail & Hline & Htalker & _).
  destruct (Hother talker _ Htalker Hline).
Qed.

End SentenceType.

(** ** Dropped lines *)

Section Dropped.
Context `{ML : MathLib} `{GU : GpsUtils}.









End Dropped.

(** ** The examples, run *)

Section Run.
Import Sample Examples.

Local Open Scope float_scope.

(** Example 1 of the specification's section 8. *)
Example example_1 :
  exists m t,
    published (add_sentence init gga_line "gps" None 0) =
      [fix_pub m; time_ref_pub t] /\
    NavSatFix.status m = NavSatStatus.STATUS_FIX /\
    NavSatFix.latitude m = 48.1173 /\
    NavSatFix.longitude m = 11.516666666666667 /\
    NavSatFix.altitude m = 592.29999999999995.
Proof. do 2 eexists. vm_compute. repeat split; reflexivity. Qed.

(** Example 3: with RMC as the source of the fix, one fix message (status
    FIX, altitude NaN, covariance unknown) and one velocity. *)
Example example_3 :
  exists m t v,
    published (add_sentence init_RMC rmc_line "gps" None 0) =
      [fix_pub m; time_ref_pub t; vel_pub v] /\
    NavSatFix.status m = NavSatStatus.STATUS_FIX /\
    is_nan (NavSatFix.altitude m) = true /\
    NavSatFix.position_covariance_type m = NavSatFix.COVARIANCE_TYPE_UNKNOWN.
Proof. do 3 eexists. vm_compute. repeat split; reflexivity. Qed.

(** Example 5: a heading of 45 degrees is published. *)
Example example_5 :
  exists q, published (add_sentence init hdt_line "gps" None 0) = [heading_pub q].
Proof. eexists. vm_compute. reflexivity. Qed.

(** The GGA line of example 1 leaves [valid_fix] false, though its fix
    message has the status [STATUS_FIX]. *)
Example gga_line_leaves_valid_fix_false :
  exists m t,
    sentence_of gga_line = Some (of_GGA (gga_fields 1)) /\
    published (add_sentence init gga_line "gps" None 0) =
      [fix_pub m; time_ref_pub t] /\
    NavSatFix.status m = NavSatStatus.STATUS_FIX /\
    valid_fix (node_after (add_sentence init gga_line "gps" None 0)) = false.
Proof. do 2 eexists. vm_compute. repeat split; reflexivity. Qed.

(** Example 2: the fix type 0 gives the status [STATUS_NO_FIX] and leaves
    [valid_fix] false, also on a node that had a valid fix. *)
Example example_2 :
  exists m t,
    published (add_sentence with_fix gga_no_fix_line "gps" None 0) =
      [fix_pub m; time_ref_pub t] /\
    NavSatFix.status m = NavSatStatus.STATUS_NO_FIX /\
    valid_fix (node_after (add_sentence with_fix gga_no_fix_line "gps" None 0))
    = false.
Proof. do 2 eexists. vm_compute. repeat split; reflexivity. Qed.

(** With a differential fix (fix type 2) the same sentence does leave
    [valid_fix] true. *)
Example gga_quality_2_sets_valid_fix :
  valid_fix (node_after (add_sentence init gga_dgps_line "gps" None 0)) = true.
Proof. vm_compute. reflexivity. Qed.

(** The line of a heading due north publishes nothing. *)
Example hdt_north_publishes_nothing :
  sentence_of hdt_north_line = Some (of_HDT {| HDT.heading := Some 0 |}) /\
  add_sentence init hdt_north_line "gps" None 0 = (init, [], ReturnNone).
Proof. vm_compute. split; reflexivity. Qed.

(** Counterexample to C5 as stated: two lines that the structural grammar
    does not match and for which [parse_nmea_sentence] does not give its
    regex mismatch.  The first passes the checksum and goes on to the
    lookup of its sentence type, which fails; the second, given to the
    parser, is parsed as a heading. *)
Lemma structural_grammar_is_not_the_parser_test :
  (check_nmea_checksum talker_only_line = true /\
   re_match structural_grammar talker_only_line = false /\
   re_match nmea_pattern talker_only_line = true /\
   parse_nmea_sentence talker_only_line = NotInParseMaps "*17") /\
  (re_match structural_grammar asterisk_field_line = false /\
   re_match nmea_pattern asterisk_field_line = true /\
   parse_nmea_sentence asterisk_field_line =
     Parsed (of_HDT {| HDT.heading := Some 45 |})).
Proof. vm_compute. repeat split; reflexivity. Qed.

(** Counterexample to C10 as stated: with RMC as the source of the fix, the
    GGA sentence of example 1, whose time is not NaN, publishes nothing and
    leaves no time in [last_valid_fix_time]. *)
Lemma gga_time_ref_not_with_use_RMC :
  exists data,
    sentence_of gga_line = Some (of_GGA data) /\
    is_nan (GGA.utc_time data) = false /\
    published (add_sentence init_RMC gga_line "gps" None 0) = [] /\
    last_valid_fix_time
      (node_after (add_sentence init_RMC gga_line "gps" None 0)) = None.
Proof. eexists. vm_compute. repeat split; reflexivity. Qed.


(** *** The sample [gps_utils] *)



(** *** The theorems at concrete inputs *)

(** With a valid fix the VTG sentence publishes its velocity. *)
Example vtg_with_fix_publishes :
  valid_fix with_fix = true /\
  exists v, published (add_sentence with_fix vtg_line "gps" None 1) = [vel_pub v].
Proof. split; [vm_compute; reflexivity|]. eexists. vm_compute. reflexivity. Qed.

Lemma gga_fix_type_1_not_valid_witness :
  GGA.fix_type (gga_fields 1) = 1%Z /\
  use_RMC init = false /\
  (exists c0 c4 c8,
     GGA_covariance init (gga_fields 1) = inr (c0, c4, c8) /\
     In (fix_pub (GGA_fix init (header_of "gps" None 0) (gga_fields 1)
                    c0 c4 c8))
        (published
           (add_parsed_sentence init (of_GGA (gga_fields 1)) "gps" None 0)) /\
     NavSatFix.status (GGA_fix init (header_of "gps" None 0) (gga_fields 1)
                         c0 c4 c8)
     = NavSatStatus.STATUS_FIX) /\
  valid_fix
    (node_after (add_parsed_sentence init (of_GGA (gga_fields 1)) "gps" None 0))
  = false.
Proof.
  pose proof (@gga_fix_type_1_not_valid math gps_utils init (gga_fields 1)
                "gps" None 0%Z eq_refl eq_refl) as (Hin & _ & _ & _ & Hvalid).
  split; [reflexivity|]. split; [reflexivity|].
  split; [|exact Hvalid].
  do 3 eexists. split; [vm_compute; reflexivity|].
  split; [apply Hin; vm_compute; reflexivity|reflexivity].
Defined.



Lemma gga_covariance_witness :
  exists m,
    In (fix_pub m)
       (published
          (add_parsed_sentence init (of_GGA gga_south_west) "gps" None 0)) /\
    (exists c0 c4 c8,
       pow (1.5 * 4) 2 = inr c0 /\
       pow (1.5 * 4) 2 = inr c4 /\
       pow (2 * 1.5 * 8) 2 = inr c8 /\
       NavSatFix.position_covariance m =
         [c0; 0; 0;
          0; c4; 0;
          0; 0; c8]) /\
    NavSatFix.position_covariance_type m =
      NavSatFix.COVARIANCE_TYPE_APPROXIMATED.
Proof.
  assert (Hin : exists m,
            In (fix_pub m)
               (published
                  (add_parsed_sentence init (of_GGA gga_south_west)
                     "gps" None 0)))
    by (eexists; vm_compute; left; reflexivity).
  destruct Hin as [m Hin].
  pose proof (@gga_covariance math gps_utils init gga_south_west "gps" None
                0%Z m Hin) as (Hcov & Htype & _).
  exists m. split; [exact Hin|]. split; [exact Hcov|exact Htype].
Defined.

Lemma vtg_velocity_needs_valid_fix_witness :
  valid_fix with_fix = true /\
  sentence_of gga_no_fix_line = Some (of_GGA (gga_fields 0)) /\
  (forall line t, In (line, t) after_no_fix -> restores_no_fix line) /\
  In (vtg_line, [])
     (connect_serial with_fix "gps" ((gga_no_fix_line, 0%Z) :: after_no_fix)).2 /\
  forall out m,
    In (vtg_line, out)
       (connect_serial with_fix "gps"
          ((gga_no_fix_line, 0%Z) :: after_no_fix)).2 ->
    ~ In (vel_pub m) out.
Proof.
  assert (Hrest : forall line t,
            In (line, t) after_no_fix -> restores_no_fix line).
  { intros line t [Heq|[Heq|[Heq|[]]]] p data Hp Hdata;
      injection Heq as <- <-; vm_compute in Hp; injection Hp as <-;
      discriminate Hdata. }
  assert (Hgga : sentence_of gga_no_fix_line = Some (of_GGA (gga_fields 0)))
    by (vm_compute; reflexivity).
  assert (Hvtg : sentence_of vtg_line =
                 Some (of_VTG {| VTG.speed := knots_to_mps 5.5;
                                 VTG.true_course := radians 54.7 |}))
    by (vm_compute; reflexivity).
  split; [vm_compute; reflexivity|].
  split; [exact Hgga|]. split; [exact Hrest|].
  split; [vm_compute; right; left; reflexivity|].
  intros out m Hin.
  exact (proj2 (@vtg_velocity_needs_valid_fix math gps_utils)
           with_fix "gps" gga_no_fix_line 0%Z (gga_fields 0) after_no_fix
           Hgga eq_refl Hrest vtg_line out _ m Hin Hvtg).
Defined.

Lemma hemisphere_sign_witness :
  (GGA.latitude_direction gga_south_west = "S"%string /\
   GGA.longitude_direction gga_south_west = "W"%string /\
   exists m,
     In (fix_pub m)
        (published
           (add_parsed_sentence init (of_GGA gga_south_west) "gps" None 0)) /\
     NavSatFix.latitude m = - 33.5 /\
     NavSatFix.longitude m = - 70.25) /\
  (RMC.latitude_direction rmc_south_west = "S"%string /\
   RMC.longitude_direction rmc_south_west = "W"%string /\
   exists m,
     In (fix_pub m)
        (published
           (add_parsed_sentence init_RMC (of_RMC rmc_south_west)
              "gps" None 0)) /\
     NavSatFix.latitude m = - 33.5 /\
     NavSatFix.longitude m = - 70.25).
Proof.
  destruct (@hemisphere_sign math gps_utils init "gps" None 0%Z)
    as (Hgga & Hgga_fix & _ & _).
  destruct (@hemisphere_sign math gps_utils init_RMC "gps" None 0%Z)
    as (_ & _ & Hrmc & Hrmc_fix).
  assert (Hcov : exists c, GGA_covariance init gga_south_west = inr c)
    by (eexists; vm_compute; reflexivity).
  destruct Hcov as [c Hcov].
  split.
  - split; [reflexivity|]. split; [reflexivity|].
    destruct (Hgga_fix gga_south_west c eq_refl Hcov) as [m Hin].
    destruct (Hgga gga_south_west m Hin) as (Hs & _ & Hw & _).
    exists m. split; [exact Hin|].
    split; [exact (Hs eq_refl)|exact (Hw eq_refl)].
  - split; [reflexivity|]. split; [reflexivity|].
    destruct (Hrmc_fix rmc_south_west eq_refl) as [m Hin].
    destruct (Hrmc rmc_south_west m Hin) as (Hs & _ & Hw & _).
    exists m. split; [exact Hin|].
    split; [exact (Hs eq_refl)|exact (Hw eq_refl)].
Defined.


Lemma gga_time_ref_despite_no_fix_witness :
  use_RMC init = false /\
  is_nan (GGA.utc_time gga_no_fix) = false /\
  exists c t,
    GGA_covariance init gga_no_fix = inr c /\
    Time_to_msg (GGA.utc_time gga_no_fix) = inr t /\
    In (time_ref_pub (time_ref_of (header_of "gps" None 0)
                        (time_source_of init "gps") t))
       (published (add_parsed_sentence init (of_GGA gga_no_fix) "gps" None 0)) /\
    valid_fix
      (node_after (add_parsed_sentence init (of_GGA gga_no_fix) "gps" None 0))
    = false.
Proof.
  split; [reflexivity|]. split; [reflexivity|].
  assert (Hc : exists c, GGA_covariance init gga_no_fix = inr c)
    by (eexists; vm_compute; reflexivity).
  assert (Ht : exists t, Time_to_msg (GGA.utc_time gga_no_fix) = inr t)
    by (eexists; vm_compute; reflexivity).
  destruct Hc as [c Hc], Ht as [t Ht].
  pose proof (@gga_time_ref_despite_no_fix math gps_utils init gga_no_fix
                "gps" None 0%Z c t eq_refl eq_refl Hc Ht) as (Hin & _ & Hvalid).
  exists c, t. split; [exact Hc|]. split; [exact Ht|].
  split; [exact Hin|]. rewrite Hvalid. reflexivity.
Defined.

Lemma regex_mismatch_iff_nmea_pattern_witness :
  no_newline (list_ascii_of_string gga_line) /\
  re_match structural_grammar gga_line = true /\
  re_match nmea_pattern gga_line = true /\
  parse_nmea_sentence gga_line <> RegexMismatch.
Proof.
  assert (Hnl : no_newline (list_ascii_of_string gga_line))
    by (repeat constructor).
  assert (Hre : re_match structural_grammar gga_line = true)
    by (vm_compute; reflexivity).
  split; [exact Hnl|]. split; [exact Hre|].
  exact (proj2 (@regex_mismatch_iff_nmea_pattern gps_utils gga_line) Hnl Hre).
Defined.

End Run.

(** * More properties of the code *)

(** ** The fix types of the table *)

Section FixTypes.
Context `{ML : MathLib} `{GU : GpsUtils}.

Local Open Scope float_scope.

Lemma quality_status_positive (fix_type : Z) :
  (quality_status fix_type >? 0)%Z = true <-> In fix_type [2; 4; 5; 9]%Z.
Proof.
  unfold quality_status. cbn [In].
  destruct (decide (fix_type = 1%Z)) as [->|N1]; [split; [discriminate|lia]|].
  destruct (decide (fix_type = 2%Z)) as [->|N2]; [split; [auto|reflexivity]|].
  destruct (decide (fix_type = 4%Z)) as [->|N4]; [split; [auto|reflexivity]|].
  destruct (decide (fix_type = 5%Z)) as [->|N5]; [split; [auto|reflexivity]|].
  destruct (decide (fix_type = 9%Z)) as [->|N9]; [split; [auto 6|reflexivity]|].
  split; [discriminate|lia].
Qed.

(** X1.  With GGA and VTG as the source of the fix, a GGA sentence leaves
    [valid_fix] true exactly when its fix type is 2, 4, 5 or 9: the
    differential, the two RTK and the WAAS entries of the table. *)
Theorem gga_valid_fix_iff self data frame_id timestamp now :
  use_RMC self = false ->
  valid_fix (node_after
               (add_parsed_sentence self (of_GGA data) frame_id timestamp now))
  = true <->
  In (GGA.fix_type data) [2; 4; 5; 9]%Z.
Proof.
  intros Hrmc. rewrite add_parsed_valid_fix, Hrmc. cbn [of_GGA sGGA].
  apply quality_status_positive.
Qed.

(** X2.  Every fix type other than 1, 2, 4, 5 and 9 is handled as no fix,
    the ones that are no key of the table (3, 6, 7, 8 of NMEA, or anything
    else) through the entry [-1]: [valid_fix] becomes false; the fix
    message, which is published once the three powers of the covariance
    return, has the status [STATUS_NO_FIX] and the covariance type unknown
    and, without estimates of the receiver, the covariance of
    [epe_quality0]. *)
Theorem gga_unlisted_fix_type self data frame_id timestamp now :
  ~ In (GGA.fix_type data) [1; 2; 4; 5; 9]%Z ->
  use_RMC self = false ->
  let r := add_parsed_sentence self (of_GGA data) frame_id timestamp now in
  let epe := default_epe_quality0 self in
  (forall c0 c4 c8,
     GGA_covariance self data = inr (c0, c4, c8) ->
     In (fix_pub (GGA_fix self (header_of frame_id timestamp now) data
                    c0 c4 c8))
        (published r)) /\
  (forall m,
     In (fix_pub m) (published r) ->
     NavSatFix.status m = NavSatStatus.STATUS_NO_FIX /\
     NavSatFix.position_covariance_type m = NavSatFix.COVARIANCE_TYPE_UNKNOWN /\
     (using_receiver_epe self = false ->
      exists c0 c4 c8,
        pow (GGA.hdop data * epe) 2 = inr c0 /\
        pow (GGA.hdop data * epe) 2 = inr c4 /\
        pow (2 * GGA.hdop data * (epe * 2)) 2 = inr c8 /\
        NavSatFix.position_covariance m =
          [c0; 0; 0;
           0; c4; 0;
           0; 0; c8])) /\
  valid_fix (node_after r) = false.
Proof.
  intros Hkey Hrmc. cbv zeta.
  assert (Hentry : gps_qual self (GGA.fix_type data) =
                   (default_epe_quality0 self, NavSatStatus.STATUS_NO_FIX,
                    NavSatFix.COVARIANCE_TYPE_UNKNOWN)).
  { rewrite gps_qual_table. unfold table_entry. cbn [In] in Hkey.
    repeat case_decide; try reflexivity; exfalso; apply Hkey; auto 8. }
  rewrite add_parsed_GGA, Hrmc.
  split; [|split].
  - intros c0 c4 c8 Hcov. apply on_GGA_fix. eauto.
  - intros m Hin. apply on_GGA_fix in Hin as (c0 & c4 & c8 & Hcov & ->).
    unfold GGA_fix.
    cbn [NavSatFix.status NavSatFix.position_covariance_type
         NavSatFix.position_covariance].
    rewrite Hentry. cbn [fst snd].
    split; [reflexivity|]. split; [reflexivity|].
    intros Hu. revert Hcov. unfold GGA_covariance, covariance_diagonal.
    rewrite Hentry, Hu. cbn [fst snd resolve_std_dev negb orb].
    destruct (pow _ _) as [e|c0']; [discriminate|].
    destruct (pow _ _) as [e|c8']; [discriminate|].
    intros [= <- <- <-]. exists c0', c0', c8'. repeat split; reflexivity.
  - destruct (on_GGA_node self (header_of frame_id timestamp now)
                (time_source_of self frame_id) data) as (Hvalid & _).
    rewrite Hvalid.
    assert (Hs : quality_status (GGA.fix_type data) = NavSatStatus.STATUS_NO_FIX).
    { rewrite <- (gps_qual_status self), Hentry. reflexivity. }
    rewrite Hs. reflexivity.
Qed.

End FixTypes.

(** ** What the loop keeps *)

Section Loop.
Context `{ML : MathLib} `{GU : GpsUtils}.

Local Open Scope float_scope.

(** The three ways a call of [add_sentence] goes. *)
Lemma add_sentence_cases self line frame_id timestamp now :
  let r := add_sentence self line frame_id timestamp now in
  (exists p, sentence_of line = Some p /\
             r = add_parsed_sentence self p frame_id timestamp now) \/
  (sentence_of line = None /\ r = (self, [], ReturnFalse)) \/
  (exists e, sentence_of line = None /\ check_nmea_checksum line = true /\
             parse_nmea_sentence line = ParseRaise e /\
             r = (self, [], Raise e)).
Proof.
  cbv zeta. unfold add_sentence, sentence_of.
  destruct (check_nmea_checksum line); cbn [negb]; [|right; left; auto].
  destruct (parse_nmea_sentence line) as [|t|p|e].
  - right; left; auto.
  - right; left; auto.
  - left. eauto.
  - right; right. exists e. auto.
Qed.

Lemma same_configuration_if (c : bool) (a b s : GPSNode) :
  same_configuration a s -> same_configuration b s ->
  same_configuration (if c then a else b) s.
Proof. destruct c; auto. Qed.

(** The GGA branch assigns none of the attributes of the configuration. *)
Lemma GGA_node_configuration self data :
  same_configuration (GGA_node self data) self.
Proof.
  unfold GGA_node.
  destruct (gps_qual self (GGA.fix_type data)) as [[default_epe status] cov].
  cbv zeta.
  repeat first
    [ apply same_configuration_if
    | match goal with
      | |- same_configuration ?a ?s =>
          lazymatch a with
          | set_alt_std_dev ?x _ => change (same_configuration x s)
          | set_lat_std_dev ?x _ => change (same_configuration x s)
          | set_lon_std_dev ?x _ => change (same_configuration x s)
          | set_valid_fix ?x _ => change (same_configuration x s)
          end
      end ];
    repeat split; reflexivity.
Qed.

Lemma on_GGA_configuration self hdr src data :
  same_configuration (node_after (on_GGA self hdr src data)) self.
Proof.
  rewrite on_GGA_spec.
  destruct (GGA_covariance self data) as [e|[[c0 c4] c8]];
    [apply GGA_node_configuration|].
  destruct (is_nan (GGA.utc_time data)); [apply GGA_node_configuration|].
  destruct (Time_to_msg (GGA.utc_time data)) as [e|time_ref];
    [apply GGA_node_configuration|].
  unfold node_after. cbn [fst].
  change (same_configuration (GGA_node self data) self).
  apply GGA_node_configuration.
Qed.

(** The GGA branch sets [last_valid_fix_time] or leaves it. *)
Lemma on_GGA_last_valid_fix_time self hdr src data :
  last_valid_fix_time (node_after (on_GGA self hdr src data))
  = last_valid_fix_time self \/
  exists time_ref,
    In (time_ref_pub time_ref) (published (on_GGA self hdr src data)) /\
    last_valid_fix_time (node_after (on_GGA self hdr src data))
    = Some time_ref.
Proof.
  pose proof (GGA_node_spec self data) as (_ & _ & _ & _ & _ & _ & Hl).
  rewrite on_GGA_spec.
  destruct (GGA_covariance self data) as [e|[[c0 c4] c8]];
    [left; exact Hl|].
  destruct (is_nan (GGA.utc_time data)); [left; exact Hl|].
  destruct (Time_to_msg (GGA.utc_time data)) as [e|time_ref];
    [left; exact Hl|].
  right. eexists. split; [right; left; reflexivity|reflexivity].
Qed.

Lemma same_configuration_refl (self : GPSNode) : same_configuration self self.
Proof. repeat split; reflexivity. Qed.

Lemma same_configuration_trans (a b c : GPSNode) :
  same_configuration a b -> same_configuration b c -> same_configuration a c.
Proof.
  unfold same_configuration. intros Hab Hbc.
  repeat match goal with H : _ /\ _ |- _ => destruct H as [? H] end.
  repeat split; congruence.
Qed.

Lemma add_parsed_configuration self p frame_id timestamp now :
  same_configuration
    (node_after (add_parsed_sentence self p frame_id timestamp now)) self.
Proof.
  destruct (add_parsed_cases self p frame_id timestamp now)
    as [(d & _ & _ & ->)|[(d & _ & _ & _ & ->)|[(d & _ & ->)|[(d & _ & ->)
        |[(d & ->)| ->]]]]].
  - apply on_GGA_configuration.
  - rewrite on_VTG_node. apply same_configuration_refl.
  - rewrite on_RMC_node. apply same_configuration_refl.
  - repeat split; reflexivity.
  - rewrite on_HDT_node. apply same_configuration_refl.
  - apply same_configuration_refl.
Qed.

Lemma add_sentence_configuration self line frame_id timestamp now :
  same_configuration
    (node_after (add_sentence self line frame_id timestamp now)) self.
Proof.
  destruct (add_sentence_cases self line frame_id timestamp now)
    as [(p & _ & ->)|[(_ & ->)|(e & _ & _ & _ & ->)]].
  - apply add_parsed_configuration.
  - apply same_configuration_refl.
  - apply same_configuration_refl.
Qed.

(** The table of a node depends on its configuration alone. *)
Lemma same_configuration_gps_qual (a b : GPSNode) fix_type :
  same_configuration a b -> gps_qual a fix_type = gps_qual b fix_type.
Proof.
  intros (_ & _ & H0 & H1 & H2 & H4 & H5 & H9).
  rewrite !gps_qual_table. unfold table_entry. rewrite H0, H1, H2, H4, H5, H9.
  reflexivity.
Qed.

Lemma connect_serial_configuration self frame_id input :
  same_configuration (connect_serial self frame_id input).1 self.
Proof.
  apply (connect_serial_keeps (fun s => same_configuration s self)).
  - intros s line now _ Hs.
    apply (same_configuration_trans _ s); [|exact Hs].
    apply add_sentence_configuration.
  - apply same_configuration_refl.
Qed.

Lemma connect_serial_use_RMC self frame_id input :
  use_RMC (connect_serial self frame_id input).1 = use_RMC self.
Proof. apply connect_serial_configuration. Qed.

(** X3.  The loop never changes the configuration of the node: the time
    source, [use_RMC] and the six default error estimates are after any
    lines what [__init__] read from the parameters, and so is every entry
    of the quality table. *)
Theorem connect_serial_keeps_configuration self frame_id input :
  same_configuration (connect_serial self frame_id input).1 self /\
  forall fix_type,
    gps_qual (connect_serial self frame_id input).1 fix_type =
    gps_qual self fix_type.
Proof.
  split; [apply connect_serial_configuration|].
  intros fix_type. apply same_configuration_gps_qual.
  apply connect_serial_configuration.
Qed.

(** *** The two attributes that are only ever set *)

Lemma add_sentence_using_receiver_epe self line frame_id timestamp now :
  using_receiver_epe self = true ->
  using_receiver_epe (node_after (add_sentence self line frame_id timestamp now))
  = true.
Proof.
  intros Hu.
  destruct (add_sentence_cases self line frame_id timestamp now)
    as [(p & _ & ->)|[(_ & ->)|(e & _ & _ & _ & ->)]]; try exact Hu.
  destruct (add_parsed_cases self p frame_id timestamp now)
    as [(d & _ & _ & ->)|[(d & _ & _ & _ & ->)|[(d & _ & ->)|[(d & _ & ->)
        |[(d & ->)| ->]]]]].
  - destruct (on_GGA_node self (header_of frame_id timestamp now)
                (time_source_of self frame_id) d)
      as (_ & _ & Hu' & _).
    rewrite Hu'. exact Hu.
  - rewrite on_VTG_node. exact Hu.
  - rewrite on_RMC_node. exact Hu.
  - reflexivity.
  - rewrite on_HDT_node. exact Hu.
  - exact Hu.
Qed.

Lemma add_sentence_last_valid_fix_time self line frame_id timestamp now :
  is_Some (last_valid_fix_time self) ->
  is_Some (last_valid_fix_time
             (node_after (add_sentence self line frame_id timestamp now))).
Proof.
  intros Hu.
  destruct (add_sentence_cases self line frame_id timestamp now)
    as [(p & _ & ->)|[(_ & ->)|(e & _ & _ & _ & ->)]]; try exact Hu.
  destruct (add_parsed_cases self p frame_id timestamp now)
    as [(d & _ & _ & ->)|[(d & _ & _ & _ & ->)|[(d & _ & ->)|[(d & _ & ->)
        |[(d & ->)| ->]]]]].
  - destruct (on_GGA_last_valid_fix_time self
                (header_of frame_id timestamp now)
                (time_source_of self frame_id) d)
      as [Hl|(time_ref & _ & Hl)]; rewrite Hl; [exact Hu|eauto].
  - rewrite on_VTG_node. exact Hu.
  - rewrite on_RMC_node. exact Hu.
  - exact Hu.
  - rewrite on_HDT_node. exact Hu.
  - exact Hu.
Qed.

(** X4.  Nothing resets [using_receiver_epe]: once a GST sentence has set
    it, it is true after any further lines, whatever they are. *)
Theorem using_receiver_epe_latches self frame_id input :
  using_receiver_epe self = true ->
  using_receiver_epe (connect_serial self frame_id input).1 = true.
Proof.
  intros Hu.
  apply (connect_serial_keeps (fun s => using_receiver_epe s = true));
    [|exact Hu].
  intros s line now _ Hs. apply add_sentence_using_receiver_epe. exact Hs.
Qed.

(** X5.  Nothing deletes [last_valid_fix_time]: once a GGA sentence has set
    it, the attribute holds a time reference after any further lines. *)
Theorem last_valid_fix_time_stays_set self frame_id input :
  is_Some (last_valid_fix_time self) ->
  is_Some (last_valid_fix_time (connect_serial self frame_id input).1).
Proof.
  intros Hu.
  apply (connect_serial_keeps (fun s => is_Some (last_valid_fix_time s)));
    [|exact Hu].
  intros s line now _ Hs. apply add_sentence_last_valid_fix_time. exact Hs.
Qed.

End Loop.

(** ** How a call ends, and where the loop ends *)

Section Exceptions.
Context `{ML : MathLib} `{GU : GpsUtils}.

Local Open Scope float_scope.

(** The branches that handle a sentence return [None] or raise. *)
Lemma add_parsed_false self p frame_id timestamp now :
  outcome (add_parsed_sentence self p frame_id timestamp now) = ReturnFalse ->
  add_parsed_sentence self p frame_id timestamp now = (self, [], ReturnFalse).
Proof.
  destruct (add_parsed_cases self p frame_id timestamp now)
    as [(d & _ & _ & ->)|[(d & _ & _ & _ & ->)|[(d & _ & ->)|[(d & _ & ->)
        |[(d & ->)| ->]]]]].
  - rewrite on_GGA_spec.
    destruct (GGA_covariance self d) as [e|[[c0 c4] c8]]; [discriminate|].
    destruct (is_nan (GGA.utc_time d)); [discriminate|].
    destruct (Time_to_msg (GGA.utc_time d)); discriminate.
  - unfold on_VTG. destruct (valid_fix self); [|discriminate].
    destruct (current_vel _ _ _); discriminate.
  - rewrite on_RMC_spec. unfold RMC_velocity.
    repeat match goal with
           | |- context [match ?x with _ => _ end] => destruct x
           end; discriminate.
  - discriminate.
  - unfold on_HDT. destruct (HDT.heading d) as [h|]; [|discriminate].
    destruct (float_truth h); [|discriminate].
    destruct (euler2quat 0 0 (radians h)) as [[[q0 q1] q2] q3]. discriminate.
  - reflexivity.
Qed.

(** What a dispatch that raises has done: it is the GGA, the VTG or the RMC
    branch; the GGA branch has assigned [valid_fix] and the standard
    deviations, the others nothing; a fix and a time reference may be
    published, no velocity. *)
Lemma add_parsed_raise self p frame_id timestamp now e :
  outcome (add_parsed_sentence self p frame_id timestamp now) = Raise e ->
  let r := add_parsed_sentence self p frame_id timestamp now in
  (node_after r = self \/
   use_RMC self = false /\
   exists data, sGGA p = Some data /\ node_after r = GGA_node self data) /\
  (is_Some (sGGA p) \/ is_Some (sVTG p) \/ is_Some (sRMC p)) /\
  published_before_raise (published r).
Proof.
  cbv zeta. unfold published_before_raise.
  destruct (add_parsed_cases self p frame_id timestamp now)
    as [(d & Hrmc & Hd & ->)|[(d & _ & _ & Hd & ->)|[(d & Hd & ->)|[(d & _ & ->)
        |[(d & ->)| ->]]]]].
  - rewrite on_GGA_spec. intros Hout.
    split; [|split; [left; rewrite Hd; eauto|]].
    + right. split; [exact Hrmc|]. exists d. split; [exact Hd|].
      destruct (GGA_covariance self d) as [e'|[[c0 c4] c8]]; [reflexivity|].
      destruct (is_nan (GGA.utc_time d)); [reflexivity|].
      destruct (Time_to_msg (GGA.utc_time d)); [reflexivity|discriminate].
    + destruct (GGA_covariance self d) as [e'|[[c0 c4] c8]];
        [left; reflexivity|].
      destruct (is_nan (GGA.utc_time d)); [discriminate|].
      destruct (Time_to_msg (GGA.utc_time d)); [|discriminate].
      right; left. eauto.
  - intros Hout. rewrite on_VTG_node.
    split; [left; reflexivity|]. split; [right; left; rewrite Hd; eauto|].
    revert Hout. unfold on_VTG. destruct (valid_fix self); [|discriminate].
    destruct (current_vel _ _ _); [|discriminate]. left. reflexivity.
  - intros Hout. rewrite on_RMC_node.
    split; [left; reflexivity|]. split; [right; right; rewrite Hd; eauto|].
    revert Hout. rewrite on_RMC_spec. unfold RMC_velocity.
    repeat match goal with
           | |- context [match ?x with _ => _ end] => destruct x
           end; try discriminate; intros _; unfold published; cbn [snd fst];
      eauto 6.
  - discriminate.
  - unfold on_HDT. destruct (HDT.heading d) as [h|]; [|discriminate].
    destruct (float_truth h); [|discriminate].
    destruct (euler2quat 0 0 (radians h)) as [[[q0 q1] q2] q3]. discriminate.
  - discriminate.
Qed.

(** X6.  A call of [add_sentence] raises after the checksum and the
    pattern have passed, from a decoder or from the GGA, the VTG or the RMC
    branch (the powers, the sine and the cosine, the conversion of the
    time).  It has then published nothing, a fix, or a fix and a time
    reference, and no velocity; it has assigned nothing but, in the GGA
    branch, [valid_fix] and the standard deviations: the configuration,
    [using_receiver_epe] and [last_valid_fix_time] are as they were.  When a
    decoder raises, nothing is published and nothing assigned. *)
Theorem raising_line_effects self line frame_id timestamp now e :
  outcome (add_sentence self line frame_id timestamp now) = Raise e ->
  let r := add_sentence self line frame_id timestamp now in
  check_nmea_checksum line = true /\
  re_match nmea_pattern line = true /\
  (parse_nmea_sentence line = ParseRaise e /\ r = (self, [], Raise e) \/
   exists p,
     parse_nmea_sentence line = Parsed p /\
     (is_Some (sGGA p) \/ is_Some (sVTG p) \/ is_Some (sRMC p)) /\
     (node_after r = self \/
      use_RMC self = false /\
      exists data, sGGA p = Some data /\ node_after r = GGA_node self data)) /\
  same_configuration (node_after r) self /\
  using_receiver_epe (node_after r) = using_receiver_epe self /\
  last_valid_fix_time (node_after r) = last_valid_fix_time self /\
  published_before_raise (published r) /\
  (forall m, ~ In (vel_pub m) (published r)).
Proof.
  intros Hout. cbv zeta.
  assert (Hsum : check_nmea_checksum line = true).
  { revert Hout. unfold add_sentence.
    destruct (check_nmea_checksum line); [reflexivity|discriminate]. }
  assert (Hre : re_match nmea_pattern line = true).
  { revert Hout. unfold add_sentence. rewrite Hsum. cbn [negb].
    rewrite parse_nmea_sentence_cases.
    destruct (re_match nmea_pattern line); [reflexivity|discriminate]. }
  split; [exact Hsum|]. split; [exact Hre|].
  assert (Hvel : forall pub : list Published,
            published_before_raise pub -> forall m, ~ In (vel_pub m) pub).
  { intros pub [->|[(m0 & ->)|(m0 & t0 & ->)]] m Hin; cbn [In] in Hin;
      intuition discriminate. }
  revert Hout. unfold add_sentence. rewrite Hsum. cbn [negb].
  destruct (parse_nmea_sentence line) as [|t|p|e'] eqn:Hparse;
    try discriminate.
  - intros Hout.
    destruct (add_parsed_raise self p frame_id timestamp now e Hout)
      as (Hnode & Hkey & Hpub).
    split; [right; exists p; auto|].
    split; [apply add_parsed_configuration|].
    assert (Hkeep :
      using_receiver_epe
        (node_after (add_parsed_sentence self p frame_id timestamp now))
      = using_receiver_epe self /\
      last_valid_fix_time
        (node_after (add_parsed_sentence self p frame_id timestamp now))
      = last_valid_fix_time self).
    { destruct Hnode as [->|(_ & d & _ & ->)]; [split; reflexivity|].
      pose proof (GGA_node_spec self d) as (_ & _ & Hu & _ & _ & _ & Hl).
      split; assumption. }
    destruct Hkeep as [Hu Hl].
    split; [exact Hu|]. split; [exact Hl|]. split; [exact Hpub|].
    apply Hvel. exact Hpub.
  - intros [= ->].
    split; [left; split; reflexivity|].
    split; [apply same_configuration_refl|].
    split; [reflexivity|]. split; [reflexivity|].
    split; [left; reflexivity|]. intros m [].
Qed.

(** X26.  When [add_sentence] returns [False] it has published nothing
    and assigned nothing: every branch that handles a sentence falls off its
    end and returns [None], also when it publishes nothing. *)
Theorem false_return_changes_nothing self line frame_id timestamp now :
  outcome (add_sentence self line frame_id timestamp now) = ReturnFalse ->
  add_sentence self line frame_id timestamp now = (self, [], ReturnFalse).
Proof.
  destruct (add_sentence_cases self line frame_id timestamp now)
    as [(p & _ & ->)|[(_ & ->)|(e & _ & _ & _ & ->)]];
    [|reflexivity|discriminate].
  apply add_parsed_false.
Qed.

(** One turn of the loop. *)
Lemma connect_serial_continues self frame_id line now rest :
  ~ ends_loop self frame_id line now ->
  connect_serial self frame_id ((line, now) :: rest) =
  let r := add_sentence self line frame_id None now in
  let r' := connect_serial (node_after r) frame_id rest in
  (r'.1, (line, published r) :: r'.2).
Proof.
  unfold ends_loop. intros Hgo. cbn [connect_serial]. cbv zeta.
  destruct (add_sentence self line frame_id None now) as [[self' pub] res].
  unfold node_after, published, outcome in *. cbn [fst snd] in *.
  destruct res as [| |[msg|msg]];
    try (destruct (connect_serial self' frame_id rest); reflexivity).
  exfalso. apply Hgo. exists msg. reflexivity.
Qed.

Lemma connect_serial_ends self frame_id line now rest :
  ends_loop self frame_id line now ->
  connect_serial self frame_id ((line, now) :: rest) =
  let r := add_sentence self line frame_id None now in
  (node_after r, [(line, published r)]).
Proof.
  unfold ends_loop. intros (msg & Hout). cbn [connect_serial]. cbv zeta.
  destruct (add_sentence self line frame_id None now) as [[self' pub] res].
  unfold node_after, published, outcome in *. cbn [fst snd] in *.
  rewrite Hout. reflexivity.
Qed.

(** A call ends the loop exactly when a decoder or the dispatch raises
    something that is no [ValueError]. *)
Lemma ends_loop_cases self frame_id line now :
  ends_loop self frame_id line now <->
  check_nmea_checksum line = true /\
  exists msg,
    parse_nmea_sentence line = ParseRaise (OtherException msg) \/
    exists p,
      parse_nmea_sentence line = Parsed p /\
      outcome (add_parsed_sentence self p frame_id None now)
      = Raise (OtherException msg).
Proof.
  unfold ends_loop, add_sentence.
  destruct (check_nmea_checksum line); cbn [negb].
  - destruct (parse_nmea_sentence line) as [|t|p|e] eqn:Hparse.
    + split; [intros (msg & H); discriminate|].
      intros (_ & msg & [H|(p & H & _)]); discriminate.
    + split; [intros (msg & H); discriminate|].
      intros (_ & msg & [H|(p & H & _)]); discriminate.
    + split.
      * intros (msg & H). split; [reflexivity|]. exists msg. right. eauto.
      * intros (_ & msg & [H|(p' & [= <-] & H)]); [discriminate|eauto].
    + split.
      * intros (msg & [= ->]). split; [reflexivity|]. exists msg. left.
        reflexivity.
      * intros (_ & msg & [[= ->]|(p' & H & _)]); [|discriminate].
        exists msg. reflexivity.
  - split; [intros (msg & H); discriminate|intros [H _]; discriminate].
Qed.

(** X7.  As long as no call raises anything but a [ValueError], from a
    decoder or from the dispatch, the loop handles every line it reads, in
    their order: a line with a bad checksum, one that is no NMEA sentence,
    one of an unknown type and one that raises a [ValueError] are each
    passed over, none ends it. *)
Theorem connect_serial_reads_every_line self frame_id input :
  goes_on self frame_id input ->
  map fst (connect_serial self frame_id input).2 = map fst input.
Proof.
  revert self. induction input as [|[line now] rest IH]; intros self Hgo.
  - reflexivity.
  - destruct Hgo as [Hline Hrest].
    rewrite connect_serial_continues by exact Hline.
    cbv zeta. cbn [snd map fst]. f_equal.
    apply IH. exact Hrest.
Qed.

Lemma connect_serial_stops_at self frame_id first line now rest :
  goes_on self frame_id first ->
  ends_loop (connect_serial self frame_id first).1 frame_id line now ->
  connect_serial self frame_id (first ++ (line, now) :: rest) =
  let r := add_sentence (connect_serial self frame_id first).1 line frame_id
             None now in
  (node_after r,
   (connect_serial self frame_id first).2 ++ [(line, published r)]).
Proof.
  revert self. induction first as [|[l n] first IH]; intros self Hgo Hend.
  - cbn [app]. cbn [connect_serial fst] in Hend.
    rewrite connect_serial_ends by exact Hend. reflexivity.
  - destruct Hgo as [Hl Hfirst]. cbn [app].
    rewrite connect_serial_continues in Hend by exact Hl.
    rewrite !connect_serial_continues by exact Hl.
    cbv zeta in *. cbn [fst snd] in *.
    rewrite (IH _ Hfirst Hend). reflexivity.
Qed.

(** X8.  The first call that raises something other than a [ValueError]
    ends the loop: the lines before it are handled as without it, the call
    itself leaves the node and the messages it had assigned and published
    when it raised (nothing, when a decoder raised), and no line after it is
    read. *)
Theorem connect_serial_stops self frame_id first line now rest :
  goes_on self frame_id first ->
  ends_loop (connect_serial self frame_id first).1 frame_id line now ->
  let before_line := connect_serial self frame_id first in
  let r := add_sentence before_line.1 line frame_id None now in
  connect_serial self frame_id (first ++ (line, now) :: rest) =
    (node_after r, before_line.2 ++ [(line, published r)]) /\
  published_before_raise (published r) /\
  same_configuration (node_after r) self /\
  ((exists msg, parse_nmea_sentence line = ParseRaise (OtherException msg)) ->
   r = (before_line.1, [], outcome r)).
Proof.
  intros Hgo Hend. cbv zeta.
  split; [apply connect_serial_stops_at; assumption|].
  destruct Hend as (msg & Hout).
  set (s := (connect_serial self frame_id first).1) in *.
  split; [|split].
  - unfold add_sentence in Hout |- *.
    destruct (check_nmea_checksum line); [|discriminate]. cbn [negb] in *.
    destruct (parse_nmea_sentence line) as [|t|p|e]; try discriminate.
    + apply (add_parsed_raise s p frame_id None now _ Hout).
    + left. reflexivity.
  - apply (same_configuration_trans _ s).
    + apply add_sentence_configuration.
    + apply connect_serial_configuration.
  - intros (msg' & Hparse). revert Hout. unfold add_sentence.
    destruct (check_nmea_checksum line); [|discriminate]. cbn [negb].
    rewrite Hparse. reflexivity.
Qed.

End Exceptions.

(** ** What a call publishes *)

Section Messages.
Context `{ML : MathLib} `{GU : GpsUtils}.

Local Open Scope float_scope.

(** Everything a call of [add_sentence] can publish, also one that raises
    on its way. *)
Lemma add_sentence_published self line frame_id timestamp now :
  let hdr := header_of frame_id timestamp now in
  let src := time_source_of self frame_id in
  let out := published (add_sentence self line frame_id timestamp now) in
  out = [] \/
  (exists d c0 c4 c8 tr,
     use_RMC self = false /\
     out = fix_pub (GGA_fix self hdr d c0 c4 c8) :: tr /\
     (tr = [] \/
      exists t,
        is_nan (GGA.utc_time d) = false /\
        Time_to_msg (GGA.utc_time d) = inr t /\
        tr = [time_ref_pub (time_ref_of hdr src t)])) \/
  (exists d v,
     use_RMC self = false /\ valid_fix self = true /\
     current_vel hdr (VTG.speed d) (VTG.true_course d) = inr v /\
     out = [vel_pub v]) \/
  (exists d fx tr vl,
     out = fx ++ tr ++ vl /\
     (fx = [] /\ tr = [] \/
      fx = [fix_pub (RMC_fix hdr d)] /\
      (tr = [] \/
       exists t,
         is_nan (RMC.utc_time d) = false /\
         Time_to_msg (RMC.utc_time d) = inr t /\
         tr = [time_ref_pub (time_ref_of hdr src t)])) /\
     (vl = [] \/
      exists v,
        current_vel hdr (RMC.speed d) (RMC.true_course d) = inr v /\
        vl = [vel_pub v])) \/
  (exists h,
     float_truth h = true /\
     out = [heading_pub
              {| QuaternionStamped.header := hdr;
                 QuaternionStamped.x := (euler2quat 0 0 (radians h)).1.1.1;
                 QuaternionStamped.y := (euler2quat 0 0 (radians h)).1.1.2;
                 QuaternionStamped.z := (euler2quat 0 0 (radians h)).1.2;
                 QuaternionStamped.w := (euler2quat 0 0 (radians h)).2 |}]).
Proof.
  cbv zeta.
  destruct (add_sentence_cases self line frame_id timestamp now)
    as [(p & _ & ->)|[(_ & ->)|(e & _ & _ & _ & ->)]];
    [|left; reflexivity|left; reflexivity].
  destruct (add_parsed_cases self p frame_id timestamp now)
    as [(d & Hrmc & _ & ->)|[(d & Hrmc & _ & _ & ->)|[(d & _ & ->)|[(d & _ & ->)
        |[(d & ->)| ->]]]]].
  - rewrite on_GGA_spec.
    destruct (GGA_covariance self d) as [e|[[c0 c4] c8]]; [left; reflexivity|].
    right; left. exists d, c0, c4, c8.
    destruct (is_nan (GGA.utc_time d)) eqn:Hnan;
      [eexists; split; [exact Hrmc|]; split; [reflexivity|left; reflexivity]|].
    destruct (Time_to_msg (GGA.utc_time d)) as [e|t] eqn:Ht;
      [eexists; split; [exact Hrmc|]; split; [reflexivity|left; reflexivity]|].
    eexists. split; [exact Hrmc|]. split; [reflexivity|]. right. eauto.
  - unfold on_VTG. destruct (valid_fix self) eqn:Hvalid; [|left; reflexivity].
    destruct (current_vel _ _ _) as [e|v] eqn:Hv; [left; reflexivity|].
    right; right; left. exists d, v. auto.
  - right; right; right; left. exists d.
    rewrite on_RMC_spec.
    assert (Hvl :
      forall pub,
        exists vl,
          published (RMC_velocity self (header_of frame_id timestamp now) d pub)
          = pub ++ vl /\
          (vl = [] \/
           exists v,
             current_vel (header_of frame_id timestamp now) (RMC.speed d)
               (RMC.true_course d) = inr v /\
             vl = [vel_pub v])).
    { intros pub. rewrite RMC_velocity_published.
      destruct (RMC.fix_valid d); [|exists []; auto].
      destruct (current_vel _ _ _) as [e|v]; [exists []; auto|].
      exists [vel_pub v]. split; [reflexivity|]. right. eauto. }
    destruct (use_RMC self).
    + destruct (is_nan (RMC.utc_time d)) eqn:Hnan.
      * destruct (Hvl [fix_pub (RMC_fix (header_of frame_id timestamp now) d)])
          as (vl & -> & Hv).
        exists [fix_pub (RMC_fix (header_of frame_id timestamp now) d)], [], vl.
        split; [reflexivity|]. split; [right; auto|exact Hv].
      * destruct (Time_to_msg (RMC.utc_time d)) as [e|t] eqn:Ht.
        -- exists [fix_pub (RMC_fix (header_of frame_id timestamp now) d)],
             [], [].
           split; [reflexivity|]. split; [right; auto|left; reflexivity].
        -- match goal with
           | |- context [RMC_velocity _ _ _ ?pub] =>
               destruct (Hvl pub) as (vl & -> & Hv)
           end.
           exists [fix_pub (RMC_fix (header_of frame_id timestamp now) d)],
             [time_ref_pub
                (time_ref_of (header_of frame_id timestamp now)
                   (time_source_of self frame_id) t)], vl.
           split; [reflexivity|]. split; [|exact Hv]. right.
           split; [reflexivity|]. right. eauto.
    + destruct (Hvl []) as (vl & -> & Hv).
      exists [], [], vl. split; [reflexivity|]. split; [left; auto|exact Hv].
  - left. reflexivity.
  - unfold on_HDT. destruct (HDT.heading d) as [h|]; [|left; reflexivity].
    destruct (float_truth h) eqn:Htrue; [|left; reflexivity].
    right; right; right; right. exists h. split; [exact Htrue|].
    destruct (euler2quat 0 0 (radians h)) as [[[q0 q1] q2] q3]. reflexivity.
  - left. reflexivity.
Qed.

Lemma current_vel_header hdr speed course v :
  current_vel hdr speed course = inr v -> TwistStamped.header v = hdr.
Proof.
  intros Hv. apply current_vel_inr in Hv as (s & c & _ & _ & ->). reflexivity.
Qed.

Lemma add_sentence_headers self line frame_id timestamp now :
  Forall (fun m => msg_header m = header_of frame_id timestamp now)
    (published (add_sentence self line frame_id timestamp now)).
Proof.
  destruct (add_sentence_published self line frame_id timestamp now)
    as [->|[(d & c0 & c4 & c8 & tr & _ & -> & Htr)
        |[(d & v & _ & _ & Hv & ->)
        |[(d & fx & tr & vl & -> & Hfx & Hvl)|(h & _ & ->)]]]].
  - constructor.
  - constructor; [reflexivity|].
    destruct Htr as [->|(t & _ & _ & ->)]; repeat constructor.
  - constructor; [|constructor]. exact (current_vel_header _ _ _ _ Hv).
  - rewrite !Forall_app. split; [|split].
    + destruct Hfx as [[-> _]|[-> _]]; repeat constructor.
    + destruct Hfx as [[_ ->]|[_ [->|(t & _ & _ & ->)]]]; repeat constructor.
    + destruct Hvl as [->|(v & Hv & ->)]; constructor; [|constructor].
      exact (current_vel_header _ _ _ _ Hv).
  - repeat constructor.
Qed.

(** X9.  Every message of one call of [add_sentence] has the same header:
    the frame id of the call, and the timestamp of the call or, without
    one, the clock read once at the call. *)
Theorem messages_of_a_call_share_the_header self line frame timestamp now :
  Forall (fun m =>
            frame_id (msg_header m) = frame /\
            stamp (msg_header m) = match timestamp with
                                   | Some t => t
                                   | None => now
                                   end)
    (published (add_sentence self line frame timestamp now)).
Proof.
  eapply Forall_impl; [apply add_sentence_headers|].
  intros m ->. split; reflexivity.
Qed.

(** X10.  A call of [add_sentence] publishes at most one message on each
    topic, in one of seven shapes: a time reference comes only right after
    a fix of the same call, and a heading only alone. *)
Theorem topics_of_a_call self line frame_id timestamp now :
  In (map topic_of (published (add_sentence self line frame_id timestamp now)))
     [ [];
       [on_fix];
       [on_fix; on_time_reference];
       [on_vel];
       [on_fix; on_vel];
       [on_fix; on_time_reference; on_vel];
       [on_heading] ].
Proof.
  destruct (add_sentence_published self line frame_id timestamp now)
    as [->|[(d & c0 & c4 & c8 & tr & _ & -> & Htr)
        |[(d & v & _ & _ & Hv & ->)
        |[(d & fx & tr & vl & -> & Hfx & Hvl)|(h & _ & ->)]]]].
  - cbn. auto.
  - destruct Htr as [->|(t & _ & _ & ->)]; cbn; auto.
  - cbn. auto.
  - destruct Hfx as [[-> ->]|[-> [->|(t & _ & _ & ->)]]];
      destruct Hvl as [->|(v & _ & ->)]; cbn; auto 8.
  - cbn. auto 8.
Qed.

(** X11.  A time reference that is published was made from a time that is
    not NaN, by a conversion that returned, and names as its source the
    parameter [time_ref_source] or, when that is empty, the frame id of the
    call. *)
Theorem time_reference_published self line frame_id timestamp now m :
  In (time_ref_pub m)
     (published (add_sentence self line frame_id timestamp now)) ->
  exists utc_time t,
    is_nan utc_time = false /\
    Time_to_msg utc_time = inr t /\
    m = {| TimeReference.header := header_of frame_id timestamp now;
           TimeReference.time_ref := t;
           TimeReference.source :=
             if str_truth (time_ref_source self)
             then time_ref_source self else frame_id |}.
Proof.
  destruct (add_sentence_published self line frame_id timestamp now)
    as [->|[(d & c0 & c4 & c8 & tr & _ & -> & Htr)
        |[(d & v & _ & _ & Hv & ->)
        |[(d & fx & tr & vl & -> & Hfx & Hvl)|(h & _ & ->)]]]].
  - intros [].
  - intros [Heq|Hin]; [discriminate|].
    destruct Htr as [->|(t & Hnan & Ht & ->)]; [destruct Hin|].
    destruct Hin as [Heq|[]]. injection Heq as <-.
    exists (GGA.utc_time d), t. auto.
  - intros [Heq|[]]. discriminate.
  - intros Hin. apply in_app_or in Hin as [Hin|Hin].
    + destruct Hfx as [[-> _]|[-> _]]; [destruct Hin|].
      destruct Hin as [Heq|[]]. discriminate.
    + apply in_app_or in Hin as [Hin|Hin].
      * destruct Hfx as [[_ ->]|[_ [->|(t & Hnan & Ht & ->)]]];
          try (destruct Hin; fail).
        destruct Hin as [Heq|[]]. injection Heq as <-.
        exists (RMC.utc_time d), t. auto.
      * destruct Hvl as [->|(v & _ & ->)]; [destruct Hin|].
        destruct Hin as [Heq|[]]. discriminate.
  - intros [Heq|[]]. discriminate.
Qed.

End Messages.

(** ** RMC as the source of the fix *)

Section RmcMode.
Context `{ML : MathLib} `{GU : GpsUtils}.

Local Open Scope float_scope.

(** With [use_RMC] the two first branches are never taken. *)
Lemma add_parsed_with_use_RMC self p frame_id timestamp now :
  use_RMC self = true ->
  add_parsed_sentence self p frame_id timestamp now =
  match sRMC p with
  | Some data => on_RMC self (header_of frame_id timestamp now)
                   (time_source_of self frame_id) data
  | None =>
      match sGST p with
      | Some data => on_GST self data
      | None =>
          match sHDT p with
          | Some data => on_HDT self (header_of frame_id timestamp now) data
          | None => (self, [], ReturnFalse)
          end
      end
  end.
Proof. intros Hrmc. unfold add_parsed_sentence. rewrite Hrmc. reflexivity. Qed.

Lemma add_sentence_with_use_RMC self line frame_id timestamp now :
  use_RMC self = true ->
  let r := add_sentence self line frame_id timestamp now in
  use_RMC (node_after r) = true /\
  valid_fix (node_after r) = valid_fix self /\
  last_valid_fix_time (node_after r) = last_valid_fix_time self /\
  (published r <> [] ->
   exists p, sentence_of line = Some p /\
             (is_Some (sRMC p) \/ is_Some (sHDT p))).
Proof.
  intros Hrmc. cbv zeta.
  destruct (add_sentence_cases self line frame_id timestamp now)
    as [(p & Hp & ->)|[(_ & ->)|(e & _ & _ & _ & ->)]];
    [|repeat split; auto; intros H; destruct H; reflexivity ..].
  rewrite add_parsed_with_use_RMC by exact Hrmc.
  destruct (sRMC p) as [d|] eqn:Hd.
  { rewrite on_RMC_node. repeat split; auto. intros _. exists p. eauto. }
  destruct (sGST p) as [g|].
  { repeat split; auto. intros H. destruct H. reflexivity. }
  destruct (sHDT p) as [h|] eqn:Hh.
  { rewrite on_HDT_node. repeat split; auto. intros _. exists p. eauto. }
  repeat split; auto. intros H. destruct H. reflexivity.
Qed.

(** X12.  With RMC as the source of the fix, no line ever assigns
    [valid_fix] or [last_valid_fix_time], and the only lines that publish
    anything are RMC and HDT sentences: GGA and VTG sentences are passed
    over. *)
Theorem use_RMC_passes_over_GGA_and_VTG self frame_id input :
  use_RMC self = true ->
  valid_fix (connect_serial self frame_id input).1 = valid_fix self /\
  last_valid_fix_time (connect_serial self frame_id input).1
  = last_valid_fix_time self /\
  forall line out,
    In (line, out) (connect_serial self frame_id input).2 -> out <> [] ->
    exists p, sentence_of line = Some p /\
              (is_Some (sRMC p) \/ is_Some (sHDT p)).
Proof.
  intros Hrmc.
  destruct (connect_serial_keeps
              (fun s => use_RMC s = true /\ valid_fix s = valid_fix self /\
                        last_valid_fix_time s = last_valid_fix_time self)
              frame_id input) with (self := self) as [(_ & Hv & Hl) Htrace].
  - intros s line now _ (Hs & Hv & Hl).
    destruct (add_sentence_with_use_RMC s line frame_id None now Hs)
      as (H1 & H2 & H3 & _).
    rewrite H2, H3. auto.
  - auto.
  - split; [exact Hv|]. split; [exact Hl|].
    intros line out Hin Hout.
    destruct (Htrace line out Hin) as (s & now & (Hs & _) & _ & ->).
    apply (add_sentence_with_use_RMC s line frame_id None now Hs). exact Hout.
Qed.

(** X13.  An RMC sentence publishes a fix exactly when [use_RMC] is set.
    That fix has no altitude (NaN) and no covariance (nine zeros, of
    unknown type); its status is [STATUS_FIX] or [STATUS_NO_FIX] by the
    validity flag, so a sentence flagged invalid publishes a fix too.  The
    sentence leaves the node as it was. *)
Theorem rmc_fix_message self data frame_id timestamp now m :
  let r := add_parsed_sentence self (of_RMC data) frame_id timestamp now in
  (In (fix_pub m) (published r) <->
   use_RMC self = true /\
   m = {| NavSatFix.header := header_of frame_id timestamp now;
          NavSatFix.status := if RMC.fix_valid data
                              then NavSatStatus.STATUS_FIX
                              else NavSatStatus.STATUS_NO_FIX;
          NavSatFix.service := NavSatStatus.SERVICE_GPS;
          NavSatFix.latitude :=
            if String.eqb (RMC.latitude_direction data) "S"
            then - RMC.latitude data else RMC.latitude data;
          NavSatFix.longitude :=
            if String.eqb (RMC.longitude_direction data) "W"
            then - RMC.longitude data else RMC.longitude data;
          NavSatFix.altitude := nan;
          NavSatFix.position_covariance := [0; 0; 0; 0; 0; 0; 0; 0; 0];
          NavSatFix.position_covariance_type :=
            NavSatFix.COVARIANCE_TYPE_UNKNOWN |}) /\
  node_after r = self.
Proof.
  cbv zeta. rewrite add_parsed_RMC, on_RMC_node.
  split; [|reflexivity]. apply on_RMC_fix.
Qed.

End RmcMode.

(** ** Error estimates that are NaN *)

Section BlankEstimates.
Context `{ML : MathLib} `{GU : GpsUtils}.

Local Open Scope float_scope.

(** X14.  After a GST sentence whose three standard deviations are NaN
    (blank fields), the next GGA sentence fills them with the default of its
    own fix type, and from then on they stay: the node holds them after any
    lines that are no GST sentence, and every later GGA sentence, whatever
    its fix type, has in its fix message the covariance of the default of
    the first one; the fix is published once its powers return. *)
Theorem blank_gst_freezes_the_default
    self frame_id gst_line t0 gst gga_line1 t1 gga1 between gga_line2 t2 gga2 :
  use_RMC self = false ->
  sentence_of gst_line = Some (of_GST gst) ->
  is_nan (GST.lon_std_dev gst) = true ->
  is_nan (GST.lat_std_dev gst) = true ->
  is_nan (GST.alt_std_dev gst) = true ->
  sentence_of gga_line1 = Some (of_GGA gga1) ->
  let epe := (gps_qual self (GGA.fix_type gga1)).1.1 in
  is_nan epe = false -> is_nan (epe * 2) = false ->
  (forall line t p,
     In (line, t) between -> sentence_of line = Some p -> sGST p = None) ->
  sentence_of gga_line2 = Some (of_GGA gga2) ->
  let self' :=
    (connect_serial self frame_id
       ((gst_line, t0) :: (gga_line1, t1) :: between)).1 in
  let r := add_sentence self' gga_line2 frame_id None t2 in
  let hdop := GGA.hdop gga2 in
  (lon_std_dev self' = epe /\ lat_std_dev self' = epe /\
   alt_std_dev self' = epe * 2) /\
  (forall m,
     In (fix_pub m) (published r) ->
     exists c0 c8,
       pow (hdop * epe) 2 = inr c0 /\
       pow (2 * hdop * (epe * 2)) 2 = inr c8 /\
       NavSatFix.position_covariance m =
         [c0; 0; 0;
          0; c0; 0;
          0; 0; c8]) /\
  (forall c0 c8,
     pow (hdop * epe) 2 = inr c0 ->
     pow (2 * hdop * (epe * 2)) 2 = inr c8 ->
     exists m rest, published r = fix_pub m :: rest).
Proof.
  intros Hrmc Hgst Hlon Hlat Halt Hgga1 epe Hepe Hepe2 Hbetween Hgga2.
  cbv zeta.
  set (P := holds_receiver_epe epe epe (epe * 2)).
  assert (Hloop :
    P (connect_serial self frame_id
         ((gst_line, t0) :: (gga_line1, t1) :: between)).1 /\
    use_RMC (connect_serial self frame_id
               ((gst_line, t0) :: (gga_line1, t1) :: between)).1 = false).
  { split; [|rewrite connect_serial_use_RMC; exact Hrmc].
    cbn [connect_serial].
    rewrite (add_sentence_parsed _ _ _ _ _ _ Hgst), add_parsed_GST.
    unfold on_GST.
    set (s1 := set_alt_std_dev _ _).
    rewrite (add_sentence_parsed _ _ _ _ _ _ Hgga1), add_parsed_GGA.
    change (use_RMC s1) with (use_RMC self). rewrite Hrmc.
    destruct (on_GGA_node s1 (header_of frame_id None t1)
                (time_source_of s1 frame_id) gga1)
      as (_ & _ & Hu & H1 & H2 & H3).
    destruct (on_GGA s1 (header_of frame_id None t1)
                (time_source_of s1 frame_id) gga1) as [[s2 pub] res].
    unfold node_after in *. cbn [fst snd] in *.
    assert (Hs2 : P s2).
    { unfold P, holds_receiver_epe. rewrite Hu, H1, H2, H3.
      change (gps_qual s1 (GGA.fix_type gga1))
        with (gps_qual self (GGA.fix_type gga1)).
      fold epe. unfold s1, resolve_std_dev. node_simpl.
      rewrite Hlon, Hlat, Halt. repeat split; reflexivity. }
    destruct (connect_serial_keeps P frame_id between) with (self := s2)
      as [Hend _].
    + intros s line now Hin Hs.
      apply add_sentence_keeps_receiver_epe; auto.
      intros p Hp. exact (Hbetween line now p Hin Hp).
    + exact Hs2.
    + destruct (connect_serial s2 frame_id between) as [self'' trace].
      destruct res as [| |[msg|msg]]; cbn [fst]; assumption. }
  destruct Hloop as [(Hu & H1 & H2 & H3) Hrmc'].
  split; [auto|].
  rewrite (add_sentence_parsed _ _ _ _ _ _ Hgga2), add_parsed_GGA, Hrmc'.
  assert (Hcov :
    GGA_covariance
      (connect_serial self frame_id
         ((gst_line, t0) :: (gga_line1, t1) :: between)).1 gga2
    = covariance_diagonal (GGA.hdop gga2) epe epe (epe * 2)).
  { unfold GGA_covariance.
    rewrite Hu, H1, H2, H3, !resolve_std_dev_kept by assumption.
    reflexivity. }
  split.
  - intros m Hin. apply on_GGA_fix in Hin as (c0 & c4 & c8 & Hc & ->).
    rewrite Hcov in Hc. unfold covariance_diagonal in Hc.
    destruct (pow (GGA.hdop gga2 * epe) 2) as [e|c0']; [discriminate|].
    destruct (pow (2 * GGA.hdop gga2 * (epe * 2)) 2) as [e|c8'];
      [discriminate|].
    injection Hc as <- <- <-. exists c0', c8'. repeat split; reflexivity.
  - intros c0 c8 H0 H8. rewrite on_GGA_spec, Hcov.
    unfold covariance_diagonal. rewrite H0, H8.
    destruct (is_nan (GGA.utc_time gga2)); [eauto|].
    destruct (Time_to_msg (GGA.utc_time gga2)); eauto.
Qed.

End BlankEstimates.

(** ** The frame of the messages *)

Section Frame.
Context `{ML : MathLib} `{GU : GpsUtils}.

Lemma append_length (a b : string) :
  String.length (a ++ b) = (String.length a + String.length b)%nat.
Proof.
  induction a as [|c a IH]; [reflexivity|exact (f_equal S IH)].
Qed.

Lemma append_cancel (a b c : string) : (a ++ b = a ++ c)%string -> b = c.
Proof.
  induction a as [|x a IH]; intros Heq; [exact Heq|].
  apply IH. injection Heq as Heq. exact Heq.
Qed.

(** X19.  [get_frame_id] gives the parameter [frame_id] itself exactly when
    the parameter [tf_prefix] is empty, and otherwise the prefix, a slash
    and the frame id; under one prefix, two frame ids give the same frame
    only when they are the same. *)
Theorem get_frame_id_prefixed (frame prefix : string) :
  (get_frame_id frame prefix = frame <-> prefix = EmptyString) /\
  (prefix <> EmptyString ->
   get_frame_id frame prefix = (prefix ++ "/" ++ frame)%string) /\
  (forall frame',
     get_frame_id frame prefix = get_frame_id frame' prefix -> frame = frame').
Proof.
  unfold get_frame_id. destruct prefix as [|c prefix].
  - split; [split; reflexivity|]. split; [congruence|auto].
  - cbn [String.length Nat.ltb Nat.leb].
    split; [|split].
    + split; [|discriminate]. intros Heq.
      apply (f_equal String.length) in Heq.
      rewrite !append_length in Heq. cbn in Heq. lia.
    + reflexivity.
    + intros frame' Heq. apply append_cancel in Heq.
      injection Heq as Heq. exact Heq.
Qed.

(** X20.  Every message that the loop publishes carries the frame id of
    [get_frame_id] and the clock of the call of [add_sentence] for its
    line. *)
Theorem loop_messages_header self frame prefix input line out m :
  In (line, out)
     (connect_serial self (get_frame_id frame prefix) input).2 ->
  In m out ->
  frame_id (msg_header m) = get_frame_id frame prefix /\
  exists now, In (line, now) input /\ stamp (msg_header m) = now.
Proof.
  intros Hin Hm.
  destruct (connect_serial_keeps (fun _ => True) (get_frame_id frame prefix)
              input) with (self := self) as [_ Htrace]; [auto|exact I|].
  destruct (Htrace line out Hin) as (s & now & _ & Hnow & ->).
  pose proof (add_sentence_headers s line (get_frame_id frame prefix) None now)
    as Hall.
  rewrite List.Forall_forall in Hall. rewrite (Hall m Hm).
  split; [reflexivity|]. exists now. split; [exact Hnow|reflexivity].
Qed.

End Frame.

(** ** The heading, and Python's truth of a float *)

Section Heading.
Context `{ML : MathLib} `{GU : GpsUtils}.

Local Open Scope float_scope.

(** [bool(x)] is false at the two zeros and nowhere else. *)
Lemma float_truth_false (x : float) :
  float_truth x = false <-> x = 0 \/ x = -0.
Proof.
  unfold float_truth. rewrite negb_false_iff, FloatAxioms.eqb_spec.
  change (FloatOps.Prim2SF 0) with (SpecFloat.S754_zero false).
  split.
  - intros Heq. rewrite <- (FloatAxioms.SF2Prim_Prim2SF x).
    destruct (FloatOps.Prim2SF x) as [[|]| [|]| |[|] m e];
      try discriminate; [right|left]; reflexivity.
  - intros [-> | ->]; reflexivity.
Qed.

(** X21.  An HDT sentence is published for every heading but [0.0] and
    [-0.0]: the test of line 299 lets a NaN (a truth in Python) and the
    infinities through, and the quaternion of
    [euler2quat(0, 0, radians(heading))] is published for them as for any
    other heading. *)
Theorem hdt_published_but_for_zero self h frame_id timestamp now :
  let r := add_parsed_sentence self (of_HDT {| HDT.heading := Some h |})
             frame_id timestamp now in
  let q := euler2quat 0 0 (radians h) in
  (h = 0 \/ h = -0 -> published r = []) /\
  (h <> 0 -> h <> -0 ->
   published r =
     [heading_pub {| QuaternionStamped.header := header_of frame_id timestamp now;
                     QuaternionStamped.x := q.1.1.1;
                     QuaternionStamped.y := q.1.1.2;
                     QuaternionStamped.z := q.1.2;
                     QuaternionStamped.w := q.2 |}]) /\
  (is_nan h = true -> h <> 0 /\ h <> -0).
Proof.
  cbv zeta. rewrite add_parsed_HDT. unfold on_HDT. cbn [HDT.heading].
  split; [|split].
  - intros Hzero. apply float_truth_false in Hzero. rewrite Hzero. reflexivity.
  - intros H0 H1. destruct (float_truth h) eqn:Htrue.
    + destruct (euler2quat 0 0 (radians h)) as [[[q0 q1] q2] q3]. reflexivity.
    + apply float_truth_false in Htrue as [?|?]; congruence.
  - intros Hnan. split; intros ->; discriminate.
Qed.

End Heading.

(** ** The IMU *)

Section ImuNode.
Variable G_TO_MPSS : float.
Variable compute_height : float -> exn + float.

Local Open Scope float_scope.

(** X22.  [handle_imu] never reads the acceleration along x: with any
    other value of it the call gives the same, and the message that is
    published has the acceleration along y, times [G_TO_MPSS], in both the
    x and the y of [linear_acceleration]. *)
Theorem handle_imu_never_reads_accel_x
    frame IMURead data pressureRead now ax :
  Imu.handle_imu G_TO_MPSS compute_height frame IMURead
    (Some (Imu.with_accel_x data ax)) pressureRead now
  = Imu.handle_imu G_TO_MPSS compute_height frame IMURead
      (Some data) pressureRead now /\
  match Imu.handle_imu G_TO_MPSS compute_height frame IMURead
          (Some data) pressureRead now with
  | inr msgs =>
      Forall (fun m =>
                Imu.vx (Imu.linear_acceleration m)
                = (Imu.accel data).1.2 * G_TO_MPSS /\
                Imu.vy (Imu.linear_acceleration m)
                = (Imu.accel data).1.2 * G_TO_MPSS /\
                Imu.vz (Imu.linear_acceleration m)
                = (Imu.accel data).2 * G_TO_MPSS) msgs
  | inl _ => True
  end.
Proof.
  unfold Imu.handle_imu, Imu.with_accel_x.
  cbn [Imu.fusionQPose Imu.accel Imu.gyro].
  destruct IMURead; [|split; [reflexivity|constructor]].
  destruct (if Imu.pressureValid pressureRead
            then compute_height (Imu.pressure pressureRead) else inr 0)
    as [e|v]; [split; [reflexivity|exact I]|].
  destruct (Imu.fusionQPose data) as [[[q0 q1] q2] q3].
  destruct (Imu.accel data) as [[a0 a1] a2].
  destruct (Imu.gyro data) as [[g0 g1] g2].
  split; [reflexivity|]. repeat constructor.
Qed.

(** X23.  [handle_imu] publishes one message or none.  It publishes one
    exactly when [IMURead] is true, the data are there and, with a valid
    pressure, [compute_height] returns for it; the message has the clock
    and the frame id in its header, the scalar of the fusion quaternion
    (the first of the four) as [w], and the three rates of the gyroscope in
    their order. *)
Theorem handle_imu_publishes
    frame IMURead getIMUData pressureRead now :
  let r := Imu.handle_imu G_TO_MPSS compute_height frame IMURead getIMUData
             pressureRead now in
  ((exists m, r = inr [m]) <->
   IMURead = true /\ is_Some getIMUData /\
   (Imu.pressureValid pressureRead = true ->
    exists height, compute_height (Imu.pressure pressureRead) = inr height)) /\
  (forall msgs, r = inr msgs ->
     msgs = [] \/
     exists data m,
       getIMUData = Some data /\ msgs = [m] /\
       Imu.header m = {| stamp := now; frame_id := frame |} /\
       Imu.orientation m =
         {| Imu.qx := (Imu.fusionQPose data).1.1.2;
            Imu.qy := (Imu.fusionQPose data).1.2;
            Imu.qz := (Imu.fusionQPose data).2;
            Imu.qw := (Imu.fusionQPose data).1.1.1 |} /\
       Imu.angular_velocity m =
         {| Imu.vx := (Imu.gyro data).1.1;
            Imu.vy := (Imu.gyro data).1.2;
            Imu.vz := (Imu.gyro data).2 |}).
Proof.
  cbv zeta. unfold Imu.handle_imu.
  destruct IMURead.
  2:{ split.
      - split; [intros (m & Hm); discriminate|intros (H & _); discriminate].
      - intros msgs [= <-]. left. reflexivity. }
  destruct getIMUData as [data|].
  2:{ split.
      - split; [intros (m & Hm); discriminate|].
        intros (_ & [x Hx] & _). discriminate.
      - intros msgs [= <-]. left. reflexivity. }
  destruct (Imu.fusionQPose data) as [[[q0 q1] q2] q3] eqn:Hq.
  destruct (Imu.accel data) as [[a0 a1] a2] eqn:Ha.
  destruct (Imu.gyro data) as [[g0 g1] g2] eqn:Hg.
  destruct (Imu.pressureValid pressureRead).
  - destruct (compute_height (Imu.pressure pressureRead)) as [e|v] eqn:Hh.
    + split.
      * split; [intros (m & Hm); discriminate|].
        intros (_ & _ & Hv). destruct (Hv eq_refl) as [x Hx]. discriminate.
      * intros msgs Hm. discriminate.
    + split.
      * split; [intros _; repeat split; eauto|eauto].
      * intros msgs [= <-]. right. exists data. eexists.
        rewrite Hq, Hg. repeat split; reflexivity.
  - split.
    + split; [intros _; repeat split; eauto; discriminate|eauto].
    + intros msgs [= <-]. right. exists data. eexists.
      rewrite Hq, Hg. repeat split; reflexivity.
Qed.

End ImuNode.

(** ** The loop, batch by batch *)

Section Batches.
Context `{ML : MathLib} `{GU : GpsUtils}.

Local Open Scope float_scope.

Lemma connect_serial_app_go self frame_id first rest :
  goes_on self frame_id first ->
  connect_serial self frame_id (first ++ rest) =
  let r := connect_serial self frame_id first in
  let r' := connect_serial r.1 frame_id rest in
  (r'.1, r.2 ++ r'.2).
Proof.
  revert self. induction first as [|[l n] first IH]; intros self Hgo.
  - cbn [app connect_serial fst snd]. cbv zeta.
    destruct (connect_serial self frame_id rest); reflexivity.
  - destruct Hgo as [Hl Hfirst]. cbn [app].
    rewrite !connect_serial_continues by exact Hl.
    cbv zeta. rewrite IH by exact Hfirst.
    reflexivity.
Qed.

(** X24.  The loop over two batches of lines is the loop over the first
    and then, from the node that it leaves, the loop over the second, as
    long as no call for a line of the first batch ends the loop. *)
Theorem connect_serial_app self frame_id first rest :
  goes_on self frame_id first ->
  (connect_serial self frame_id (first ++ rest)).1 =
    (connect_serial (connect_serial self frame_id first).1 frame_id rest).1 /\
  (connect_serial self frame_id (first ++ rest)).2 =
    (connect_serial self frame_id first).2 ++
    (connect_serial (connect_serial self frame_id first).1 frame_id rest).2.
Proof.
  intros Hgo. rewrite connect_serial_app_go by exact Hgo. split; reflexivity.
Qed.

(** X25.  With GGA and VTG as the source of the fix, [valid_fix] is after
    the loop what the last GGA sentence that was handled makes it: true
    for the fix types 2, 4, 5 and 9, false for the others, whatever lines
    other than GGA sentences follow, and also when the call for the GGA
    sentence raises after line 200 and so, perhaps, ends the loop. *)
Theorem valid_fix_is_of_the_last_GGA
    self frame_id first gga_line now p gga rest :
  use_RMC self = false ->
  goes_on self frame_id first ->
  sentence_of gga_line = Some p -> sGGA p = Some gga ->
  (forall line t q,
     In (line, t) rest -> sentence_of line = Some q -> sGGA q = None) ->
  valid_fix
    (connect_serial self frame_id (first ++ (gga_line, now) :: rest)).1
  = (quality_status (GGA.fix_type gga) >? 0)%Z.
Proof.
  intros Hrmc Hgo Hp Hgga Hrest.
  rewrite connect_serial_app_go by exact Hgo. cbv zeta. cbn [fst].
  set (s := (connect_serial self frame_id first).1).
  assert (Hs : use_RMC s = false).
  { unfold s. rewrite connect_serial_use_RMC. exact Hrmc. }
  assert (Hvalid :
    valid_fix (node_after (add_sentence s gga_line frame_id None now))
    = (quality_status (GGA.fix_type gga) >? 0)%Z).
  { rewrite (add_sentence_parsed _ _ _ _ _ _ Hp), add_parsed_valid_fix, Hs, Hgga.
    reflexivity. }
  assert (Hkeep :
    valid_fix
      (connect_serial (node_after (add_sentence s gga_line frame_id None now))
         frame_id rest).1
    = (quality_status (GGA.fix_type gga) >? 0)%Z).
  { apply (connect_serial_keeps
             (fun s' =>
                valid_fix s' = (quality_status (GGA.fix_type gga) >? 0)%Z));
      [|exact Hvalid].
    intros s' line t Hin Hs'.
    destruct (add_sentence_cases s' line frame_id None t)
      as [(q & Hq & ->)|[(_ & ->)|(e & _ & _ & _ & ->)]]; try exact Hs'.
    rewrite add_parsed_valid_fix, (Hrest line t q Hin Hq).
    destruct (use_RMC s'); exact Hs'. }
  cbn [connect_serial].
  destruct (add_sentence s gga_line frame_id None now) as [[s1 pub] res].
  unfold node_after in *. cbn [fst] in *.
  destruct (connect_serial s1 frame_id rest) as [s2 trace]. cbn [fst] in *.
  destruct res as [| |[msg|msg]]; assumption.
Qed.

End Batches.

(** ** The properties above at concrete inputs *)

Section MoreRuns.
Import Sample Examples Inputs.

Local Open Scope float_scope.

(** The loop over a fix, a heading that is no number and a velocity: the
    bad heading is passed over. *)
Example run_passes_over_the_bad_heading :
  exists m t v,
    (connect_serial init "gps" run).2 =
    [(gga_dgps_line, [fix_pub m; time_ref_pub t]); (hdt_bad_line, []);
     (vtg_line, [vel_pub v])].
Proof. do 3 eexists. vm_compute. reflexivity. Qed.

(** A dilution of precision of 1e200: the first power of line 226
    overflows; [valid_fix] is assigned, nothing is published, and the
    exception is no [ValueError], so it ends the loop. *)
Example huge_hdop_overflows :
  exists msg,
    outcome (add_parsed_sentence init (of_GGA gga_huge_hdop) "gps" None 0)
    = Raise (OtherException msg) /\
    published (add_parsed_sentence init (of_GGA gga_huge_hdop) "gps" None 0)
    = [] /\
    valid_fix
      (node_after
         (add_parsed_sentence init (of_GGA gga_huge_hdop) "gps" None 0))
    = true.
Proof. eexists. vm_compute. repeat split; reflexivity. Qed.

(** A reading of the IMU: one message, with the acceleration along y in
    x and y. *)
Example handle_imu_run :
  exists m,
    Imu.handle_imu G_TO_MPSS compute_height "imu" true (Some imu_data)
      pressure_data 5 = inr [m] /\
    Imu.header m = {| stamp := 5; frame_id := "imu" |} /\
    Imu.orientation m =
      {| Imu.qx := 0; Imu.qy := 0; Imu.qz := 0.25; Imu.qw := 0.96875 |} /\
    Imu.linear_acceleration m =
      {| Imu.vx := 2.4516625; Imu.vy := 2.4516625; Imu.vz := 9.80665 |}.
Proof. eexists. vm_compute. repeat split; reflexivity. Qed.

Lemma gga_valid_fix_iff_witness :
  use_RMC init = false /\
  (valid_fix
     (node_after (add_parsed_sentence init (of_GGA (gga_fields 4)) "gps" None 0))
   = true <->
   In 4%Z [2; 4; 5; 9]%Z).
Proof.
  split; [reflexivity|].
  apply (@gga_valid_fix_iff math gps_utils init (gga_fields 4) "gps" None 0%Z).
  reflexivity.
Defined.

Lemma gga_unlisted_fix_type_witness :
  sentence_of gga_estimated_line = Some (of_GGA (gga_fields 6)) /\
  ~ In (GGA.fix_type (gga_fields 6)) [1; 2; 4; 5; 9]%Z /\
  use_RMC init = false /\
  valid_fix
    (node_after (add_parsed_sentence init (of_GGA (gga_fields 6)) "gps" None 0))
  = false /\
  exists m,
    In (fix_pub m)
       (published
          (add_parsed_sentence init (of_GGA (gga_fields 6)) "gps" None 0)) /\
    NavSatFix.status m = NavSatStatus.STATUS_NO_FIX /\
    exists c0 c4 c8,
      pow (0.9 * 1000000) 2 = inr c0 /\
      pow (0.9 * 1000000) 2 = inr c4 /\
      pow (2 * 0.9 * (1000000 * 2)) 2 = inr c8 /\
      NavSatFix.position_covariance m =
        [c0; 0; 0;
         0; c4; 0;
         0; 0; c8].
Proof.
  assert (Hkey : ~ In (GGA.fix_type (gga_fields 6)) [1; 2; 4; 5; 9]%Z)
    by (cbn; lia).
  assert (Hc : exists c0 c4 c8,
            GGA_covariance init (gga_fields 6) = inr (c0, c4, c8))
    by (do 3 eexists; vm_compute; reflexivity).
  destruct Hc as (c0 & c4 & c8 & Hc).
  pose proof (@gga_unlisted_fix_type math gps_utils init (gga_fields 6) "gps"
                None 0%Z Hkey eq_refl) as (Hpub & Hfix & Hvalid).
  split; [vm_compute; reflexivity|].
  split; [exact Hkey|]. split; [reflexivity|]. split; [exact Hvalid|].
  eexists. split; [exact (Hpub c0 c4 c8 Hc)|].
  destruct (Hfix _ (Hpub c0 c4 c8 Hc)) as (Hstatus & _ & Hcov).
  split; [exact Hstatus|exact (Hcov eq_refl)].
Defined.

Lemma using_receiver_epe_latches_witness :
  using_receiver_epe after_gst_node = true /\
  using_receiver_epe (connect_serial after_gst_node "gps" run).1 = true.
Proof.
  assert (Hu : using_receiver_epe after_gst_node = true)
    by (vm_compute; reflexivity).
  split; [exact Hu|].
  exact (@using_receiver_epe_latches math gps_utils after_gst_node "gps" run Hu).
Defined.

Lemma last_valid_fix_time_stays_set_witness :
  is_Some (last_valid_fix_time with_fix) /\
  is_Some (last_valid_fix_time (connect_serial with_fix "gps" run).1).
Proof.
  assert (Hs : is_Some (last_valid_fix_time with_fix))
    by (eexists; vm_compute; reflexivity).
  split; [exact Hs|].
  exact (@last_valid_fix_time_stays_set math gps_utils with_fix "gps" run Hs).
Defined.

Lemma raising_line_effects_witness :
  (outcome (add_sentence with_fix hdt_bad_line "gps" None 0)
   = Raise (ValueError "could not convert string to float") /\
   add_sentence with_fix hdt_bad_line "gps" None 0
   = (with_fix, [], Raise (ValueError "could not convert string to float"))) /\
  (exists e m,
     outcome (add_sentence init gga_late_line "gps" None 0) = Raise e /\
     published (add_sentence init gga_late_line "gps" None 0) = [fix_pub m] /\
     valid_fix (node_after (add_sentence init gga_late_line "gps" None 0))
     = true /\
     last_valid_fix_time
       (node_after (add_sentence init gga_late_line "gps" None 0)) = None /\
     forall v,
       ~ In (vel_pub v)
           (published (add_sentence init gga_late_line "gps" None 0))).
Proof.
  split.
  - assert (Hout : outcome (add_sentence with_fix hdt_bad_line "gps" None 0)
                   = Raise (ValueError "could not convert string to float"))
      by (vm_compute; reflexivity).
    split; [exact Hout|].
    destruct (@raising_line_effects math gps_utils with_fix hdt_bad_line
                "gps" None 0%Z _ Hout)
      as (_ & _ & [[_ Hr]|(p & Hp & _)] & _); [exact Hr|].
    vm_compute in Hp. discriminate Hp.
  - assert (Hout : exists e,
              outcome (add_sentence init gga_late_line "gps" None 0) = Raise e)
      by (eexists; vm_compute; reflexivity).
    destruct Hout as [e Hout].
    destruct (@raising_line_effects math gps_utils init gga_late_line
                "gps" None 0%Z e Hout)
      as (_ & _ & _ & _ & _ & Hlast & _ & Hvel).
    exists e. eexists. split; [exact Hout|].
    split; [vm_compute; reflexivity|]. split; [vm_compute; reflexivity|].
    split; [exact Hlast|exact Hvel].
Defined.

Lemma false_return_changes_nothing_witness :
  outcome (add_sentence init_RMC gga_line "gps" None 0) = ReturnFalse /\
  add_sentence init_RMC gga_line "gps" None 0 = (init_RMC, [], ReturnFalse).
Proof.
  assert (Hout : outcome (add_sentence init_RMC gga_line "gps" None 0)
                 = ReturnFalse) by (vm_compute; reflexivity).
  split; [exact Hout|].
  exact (@false_return_changes_nothing math gps_utils init_RMC gga_line "gps"
           None 0%Z Hout).
Defined.

Lemma run_goes_on : goes_on init "gps" run.
Proof.
  cbn [goes_on run].
  repeat split; intros (msg & Hout); vm_compute in Hout; discriminate Hout.
Defined.

Lemma connect_serial_reads_every_line_witness :
  goes_on init "gps" run /\
  map fst (connect_serial init "gps" run).2 = map fst run.
Proof.
  split; [exact run_goes_on|].
  exact (@connect_serial_reads_every_line math gps_utils init "gps" run
           run_goes_on).
Defined.

Lemma connect_serial_stops_witness :
  ends_loop (connect_serial init "gps" run).1 "gps" gga_late_line 3 /\
  (exists m,
     published
       (add_sentence (connect_serial init "gps" run).1 gga_late_line "gps"
          None 3) = [fix_pub m]) /\
  connect_serial init "gps" (run ++ (gga_late_line, 3%Z) :: [(gga_line, 4%Z)])
  = (node_after
       (add_sentence (connect_serial init "gps" run).1 gga_late_line "gps"
          None 3),
     (connect_serial init "gps" run).2 ++
     [(gga_late_line,
       published
         (add_sentence (connect_serial init "gps" run).1 gga_late_line "gps"
            None 3))]).
Proof.
  assert (Hend : ends_loop (connect_serial init "gps" run).1 "gps"
                   gga_late_line 3)
    by (eexists; vm_compute; reflexivity).
  split; [exact Hend|].
  split; [eexists; vm_compute; reflexivity|].
  exact (proj1 (@connect_serial_stops math gps_utils init "gps" run
                  gga_late_line 3%Z [(gga_line, 4%Z)] run_goes_on Hend)).
Defined.

Lemma time_reference_published_witness :
  In (time_ref_pub (time_ref_of (header_of "gps" None 0) "gps" 45319))
     (published (add_sentence init gga_line "gps" None 0)) /\
  exists utc_time t,
    is_nan utc_time = false /\
    Time_to_msg utc_time = inr t /\
    time_ref_of (header_of "gps" None 0) "gps" 45319 =
    {| TimeReference.header := header_of "gps" None 0;
       TimeReference.time_ref := t;
       TimeReference.source := "gps" |}.
Proof.
  assert (Hin : In (time_ref_pub (time_ref_of (header_of "gps" None 0) "gps" 45319))
                  (published (add_sentence init gga_line "gps" None 0)))
    by (vm_compute; right; left; reflexivity).
  split; [exact Hin|].
  exact (@time_reference_published math gps_utils init gga_line "gps" None 0%Z
           _ Hin).
Defined.

Lemma use_RMC_passes_over_GGA_and_VTG_witness :
  use_RMC init_RMC = true /\
  valid_fix
    (connect_serial init_RMC "gps"
       [(gga_dgps_line, 0%Z); (vtg_line, 1%Z); (rmc_line, 2%Z)]).1 = false /\
  (connect_serial init_RMC "gps"
     [(gga_dgps_line, 0%Z); (vtg_line, 1%Z); (rmc_line, 2%Z)]).2
  = [(gga_dgps_line, []); (vtg_line, []);
     (rmc_line, published (add_sentence init_RMC rmc_line "gps" None 2))].
Proof.
  split; [reflexivity|].
  split; [|vm_compute; reflexivity].
  exact (proj1 (@use_RMC_passes_over_GGA_and_VTG math gps_utils init_RMC "gps"
                  [(gga_dgps_line, 0%Z); (vtg_line, 1%Z); (rmc_line, 2%Z)]
                  eq_refl)).
Defined.

Lemma blank_gst_freezes_the_default_witness :
  sentence_of gst_blank_line = Some (of_GST gst_blank) /\
  sentence_of gga_line = Some (of_GGA (gga_fields 1)) /\
  sentence_of gga_rtk_line = Some (of_GGA (gga_fields 4)) /\
  lon_std_dev
    (connect_serial init "gps"
       ((gst_blank_line, 0%Z) :: (gga_line, 1%Z) :: [(vtg_line, 2%Z)])).1 = 4 /\
  exists m rest c0 c8,
    published
      (add_sentence
         (connect_serial init "gps"
            ((gst_blank_line, 0%Z) :: (gga_line, 1%Z) :: [(vtg_line, 2%Z)])).1
         gga_rtk_line "gps" None 3) = fix_pub m :: rest /\
    pow (0.9 * 4) 2 = inr c0 /\
    pow (2 * 0.9 * (4 * 2)) 2 = inr c8 /\
    NavSatFix.position_covariance m =
      [c0; 0; 0;
       0; c0; 0;
       0; 0; c8].
Proof.
  assert (Hgst : sentence_of gst_blank_line = Some (of_GST gst_blank))
    by (vm_compute; reflexivity).
  assert (Hgga1 : sentence_of gga_line = Some (of_GGA (gga_fields 1)))
    by (vm_compute; reflexivity).
  assert (Hgga2 : sentence_of gga_rtk_line = Some (of_GGA (gga_fields 4)))
    by (vm_compute; reflexivity).
  assert (Hbetween : forall line t p,
            In (line, t) [(vtg_line, 2%Z)] -> sentence_of line = Some p ->
            sGST p = None).
  { intros line t p [Heq|[]] Hp; injection Heq as <- <-;
      vm_compute in Hp; injection Hp as <-; reflexivity. }
  assert (H0 : exists c0, pow (0.9 * 4) 2 = inr c0)
    by (eexists; vm_compute; reflexivity).
  assert (H8 : exists c8, pow (2 * 0.9 * (4 * 2)) 2 = inr c8)
    by (eexists; vm_compute; reflexivity).
  destruct H0 as [c0 H0], H8 as [c8 H8].
  split; [exact Hgst|]. split; [exact Hgga1|]. split; [exact Hgga2|].
  destruct (@blank_gst_freezes_the_default math gps_utils init "gps"
              gst_blank_line 0%Z gst_blank gga_line 1%Z (gga_fields 1)
              [(vtg_line, 2%Z)] gga_rtk_line 3%Z (gga_fields 4)
              eq_refl Hgst eq_refl eq_refl eq_refl Hgga1 eq_refl eq_refl
              Hbetween Hgga2) as ((Hlon & _) & Hcov & Hpub).
  split; [exact Hlon|].
  destruct (Hpub c0 c8 H0 H8) as (m & rest & Heq).
  exists m, rest.
  destruct (Hcov m) as (c0' & c8' & H0' & H8' & Hm);
    [rewrite Heq; left; reflexivity|].
  exists c0', c8'. split; [exact Heq|]. split; [exact H0'|].
  split; [exact H8'|exact Hm].
Defined.

Lemma sentence_type_of_matched_line_witness :
  re_match nmea_pattern gga_gn_line = true /\
  sentence_type_of gga_gn_line = "GGA"%string /\
  exists talker rest,
    In talker talkers /\
    list_ascii_of_string gga_gn_line = "$"%char :: talker ++ rest /\
    list_ascii_of_string (sentence_type_of gga_gn_line) = before "," rest.
Proof.
  assert (Hre : re_match nmea_pattern gga_gn_line = true)
    by (vm_compute; reflexivity).
  split; [exact Hre|]. split; [vm_compute; reflexivity|].
  exact (@sentence_type_of_matched_line gga_gn_line Hre).
Defined.

Lemma other_talkers_are_dropped_witness :
  check_nmea_checksum gga_galileo_line = true /\
  add_sentence with_fix gga_galileo_line "gps" None 0
  = (with_fix, [], ReturnFalse).
Proof.
  split; [vm_compute; reflexivity|].
  apply (@other_talkers_are_dropped math gps_utils with_fix gga_galileo_line
           "gps" None 0%Z).
  intros talker rest Hin Heq. unfold talkers in Hin.
  cbn [map list_ascii_of_string In] in Hin.
  destruct Hin as [<-|[<-|[<-|[<-|[]]]]]; vm_compute in Heq; discriminate.
Defined.

Lemma get_frame_id_prefixed_witness :
  "robot"%string <> EmptyString /\
  get_frame_id "gps" "robot" = "robot/gps"%string /\
  get_frame_id "gps" "" = "gps"%string.
Proof.
  assert (Hne : "robot"%string <> EmptyString) by discriminate.
  split; [exact Hne|].
  split.
  - exact (proj1 (proj2 (get_frame_id_prefixed "gps" "robot")) Hne).
  - exact (proj2 (proj1 (get_frame_id_prefixed "gps" "")) eq_refl).
Defined.

Lemma loop_messages_header_witness :
  In (gga_line, published (add_sentence init gga_line "robot/gps" None 7))
     (connect_serial init (get_frame_id "gps" "robot") [(gga_line, 7%Z)]).2 /\
  exists m,
    In (fix_pub m)
       (published (add_sentence init gga_line "robot/gps" None 7)) /\
    frame_id (msg_header (fix_pub m)) = "robot/gps"%string /\
    exists now,
      In (gga_line, now) [(gga_line, 7%Z)] /\
      stamp (msg_header (fix_pub m)) = now.
Proof.
  assert (Hin : In (gga_line,
                    published (add_sentence init gga_line "robot/gps" None 7))
                  (connect_serial init (get_frame_id "gps" "robot")
                     [(gga_line, 7%Z)]).2)
    by (vm_compute; left; reflexivity).
  assert (Hm : exists m,
            In (fix_pub m)
               (published (add_sentence init gga_line "robot/gps" None 7)))
    by (eexists; vm_compute; left; reflexivity).
  destruct Hm as [m Hm].
  split; [exact Hin|]. exists m. split; [exact Hm|].
  exact (@loop_messages_header math gps_utils init "gps" "robot"
           [(gga_line, 7%Z)] gga_line _ _ Hin Hm).
Defined.

Lemma hdt_published_but_for_zero_witness :
  is_nan nan = true /\
  exists q,
    published (add_parsed_sentence init (of_HDT {| HDT.heading := Some nan |})
                 "gps" None 0) = [heading_pub q] /\
    is_nan (QuaternionStamped.z q) = true.
Proof.
  split; [reflexivity|].
  destruct (@hdt_published_but_for_zero math gps_utils init nan "gps" None 0%Z)
    as (_ & Hpub & Hnan).
  destruct (Hnan eq_refl) as [H0 H1].
  eexists. split; [exact (Hpub H0 H1)|]. vm_compute. reflexivity.
Defined.

Lemma connect_serial_app_witness :
  goes_on init "gps" run /\
  (connect_serial init "gps" (run ++ [(gga_no_fix_line, 3%Z)])).2 =
    (connect_serial init "gps" run).2 ++
    (connect_serial (connect_serial init "gps" run).1 "gps"
       [(gga_no_fix_line, 3%Z)]).2.
Proof.
  split; [exact run_goes_on|].
  exact (proj2 (@connect_serial_app math gps_utils init "gps" run
                  [(gga_no_fix_line, 3%Z)] run_goes_on)).
Defined.

Lemma valid_fix_is_of_the_last_GGA_witness :
  sentence_of gga_dgps_line = Some (of_GGA (gga_fields 2)) /\
  valid_fix
    (connect_serial init "gps"
       ([(gga_line, 0%Z)] ++ (gga_dgps_line, 1%Z)
        :: [(vtg_line, 2%Z); (rmc_line, 3%Z)])).1 = true /\
  sentence_of gga_late_line
  = Some (of_GGA {| GGA.fix_type := 2;
                    GGA.latitude := 48.1173;
                    GGA.latitude_direction := "N";
                    GGA.longitude := 11.516666666666667;
                    GGA.longitude_direction := "E";
                    GGA.altitude := 545.4;
                    GGA.mean_sea_level := 46.9;
                    GGA.hdop := 0.9;
                    GGA.utc_time := 9999999999999 + 12 * 3600 + 35 * 60 |}) /\
  valid_fix
    (connect_serial init "gps"
       ([(gga_line, 0%Z)] ++ (gga_late_line, 1%Z) :: [(vtg_line, 2%Z)])).1
  = true.
Proof.
  assert (Hgga : sentence_of gga_dgps_line = Some (of_GGA (gga_fields 2)))
    by (vm_compute; reflexivity).
  assert (Hgo : goes_on init "gps" [(gga_line, 0%Z)]).
  { cbn [goes_on]. split; [|exact I].
    intros (msg & Hout). vm_compute in Hout. discriminate Hout. }
  split; [exact Hgga|]. split; [|split].
  - apply (@valid_fix_is_of_the_last_GGA math gps_utils init "gps"
             [(gga_line, 0%Z)] gga_dgps_line 1%Z (of_GGA (gga_fields 2))
             (gga_fields 2) [(vtg_line, 2%Z); (rmc_line, 3%Z)] eq_refl Hgo Hgga
             eq_refl).
    intros line t q [Heq|[Heq|[]]] Hq; injection Heq as <- <-;
      vm_compute in Hq; injection Hq as <-; reflexivity.
  - vm_compute. reflexivity.
  - apply (@valid_fix_is_of_the_last_GGA math gps_utils init "gps"
             [(gga_line, 0%Z)] gga_late_line 1%Z _ _ [(vtg_line, 2%Z)]
             eq_refl Hgo eq_refl eq_refl).
    intros line t q [Heq|[]] Hq; injection Heq as <- <-;
      vm_compute in Hq; injection Hq as <-; reflexivity.
Defined.

End MoreRuns.
